(** * Derivative estimators of openqaoa/derivative_functions.py

    A shallow embedding of the gradient and Hessian estimators: the two
    evaluation wrappers, the shot allocators, the shared central-difference
    kernel, the four gradient estimators, the finite-difference Hessian and
    the factory [derivative].

    Conventions of the embedding.
    - Floating-point numbers are an abstract carrier [F] with the operations
      the source applies to them (class [Scalar]); the rationals are an
      instance on which every definition below computes.
    - Python exceptions are the [Raise] results of a state-and-error monad
      [M]; the state ([World]) holds the logger, the chronological list of
      calls received by the backend, and the future outputs of [np.random].
    - The backend, the cost function and the parameter containers are
      external: they are the fields of [Backend] and [QAOAParams].  What
      the backend answers is a function of the container and of the
      [n_shots] keyword it receives.
    - A wrapper overwrites the angles of its container just before it calls
      the backend; the record of the call keeps the container as the backend
      received it. *)

From Stdlib Require Import String DecimalString.
From Stdlib Require Import List ZArith QArith Qabs Bool Arith Lia.
Import ListNotations.
Open Scope Z_scope.

(** ** Numbers *)

Class Scalar (F : Type) : Type := {
  of_Z : Z -> F;
  fadd : F -> F -> F;
  fsub : F -> F -> F;
  fmul : F -> F -> F;
  fdiv : F -> F -> F;          (* numpy's [/]: total, as for float64 *)
  fneg : F -> F;
  fpow : F -> nat -> F;        (* [x ** n] *)
  fabs : F -> F;
  np_real : F -> F;
  fis_zero : F -> bool;        (* [x == 0] *)
  np_pi : F
}.

(** ** Exceptions and results *)

Inductive exn : Type :=
| AssertionError (msg : string)
| ValueError (msg : string)
| TypeError
| ZeroDivisionError
| IndexError
| UnboundLocalError.

Inductive result (A : Type) : Type :=
| Ok (a : A)
| Raise (e : exn).
Arguments Ok {A} a.
Arguments Raise {A} e.

Section Derivatives.

Context {F : Type} `{Scalar F}.

(** Python's [x / y] on Python numbers raises on a zero divisor. *)
Definition py_div (x y : F) : result F :=
  if fis_zero y then Raise ZeroDivisionError else Ok (fdiv x y).

(** ** numpy vectors *)

Definition np_zeros (n : nat) : list F := repeat (of_Z 0) n.

(** [v[i] = x] for [i < len(v)]. *)
Fixpoint set_item {A} (v : list A) (i : nat) (x : A) : list A :=
  match v, i with
  | [], _ => []
  | _ :: t, O => x :: t
  | h :: t, S i' => h :: set_item t i' x
  end.

Fixpoint map2 {A B C} (f : A -> B -> C) (u : list A) (v : list B) : list C :=
  match u, v with
  | a :: u', b :: v' => f a b :: map2 f u' v'
  | _, _ => []
  end.

Definition vadd (u v : list F) : list F := map2 fadd u v.
Definition vsub (u v : list F) : list F := map2 fsub u v.
Definition vscale (c : F) (v : list F) : list F := map (fmul c) v.

Definition np_sum (v : list F) : F := fold_left fadd v (of_Z 0).

Definition np_mean (v : list F) : F :=
  fdiv (np_sum v) (of_Z (Z.of_nat (length v))).

(** [np.var(v)] is [mean(abs(v - v.mean())**2)]. *)
Definition np_var (v : list F) : F :=
  let m := np_mean v in
  np_mean (map (fun x => fpow (fabs (fsub x m)) 2) v).

(** [v[a:b]] for non-negative bounds. *)
Definition py_slice {A} (v : list A) (a b : nat) : list A :=
  skipn a (firstn b v).

(** ** External collaborators *)

(** A parameter container: its class, the read-only layer count and
    coefficient lists, the conversion to the extended form, and the angles
    last written by [update_from_raw]. *)
Record QAOAParams : Type := {
  class_name : string;
  p : nat;
  mixer_1q_coeffs : list F;
  mixer_2q_coeffs : list F;
  cost_1q_coeffs : list F;
  cost_2q_coeffs : list F;
  convert_to_ext : list F -> list F;
  raw : list F
}.

Definition update_from_raw (params : QAOAParams) (args : list F) : QAOAParams :=
  {| class_name := class_name params;
     p := p params;
     mixer_1q_coeffs := mixer_1q_coeffs params;
     mixer_2q_coeffs := mixer_2q_coeffs params;
     cost_1q_coeffs := cost_1q_coeffs params;
     cost_2q_coeffs := cost_2q_coeffs params;
     convert_to_ext := convert_to_ext params;
     raw := args |}.

(** A histogram of measurement outcomes, in the dictionary's item order. *)
Definition Counts : Type := list (string * nat).

(** The backend: [expectation] and [get_counts] receive the container and
    the keyword argument [n_shots] ([None] when the keyword is not passed);
    [cost_function c] stands for
    [cost_function(c, backend_obj.circuit_params.cost_hamiltonian,
    backend_obj.cvar_alpha)], and [extended_params_empty] for
    [QAOAVariationalExtendedParams.empty(backend_obj.circuit_params)]. *)
Record Backend : Type := {
  expectation : QAOAParams -> option Z -> F;
  get_counts : QAOAParams -> option Z -> Counts;
  cost_function : Counts -> F;
  extended_params_empty : QAOAParams
}.

(** ** The mutable world *)

Record Logger : Type := {
  func_evals : Z;
  jac_func_evals : Z;
  n_shots_log : list (list (option Z))
}.

Inductive CallKind : Type := CallExpectation | CallGetCounts.

(** One call received by the backend: what was asked, with which container
    and keyword, and the logger counters as they stood at that moment. *)
Record BackendCall : Type := {
  call_kind : CallKind;
  call_params : QAOAParams;
  call_n_shots : option Z;
  call_func_evals : Z;
  call_jac_func_evals : Z
}.

Record World : Type := {
  logger : Logger;
  calls : list BackendCall;
  np_random : list (list nat)
}.

Definition M (A : Type) : Type := World -> result A * World.

Definition ret {A} (a : A) : M A := fun w => (Ok a, w).

Definition raise {A} (e : exn) : M A := fun w => (Raise e, w).

Definition bind {A B} (m : M A) (k : A -> M B) : M B :=
  fun w =>
    match m w with
    | (Ok a, w') => k a w'
    | (Raise e, w') => (Raise e, w')
    end.

Definition lift {A} (r : result A) : M A :=
  match r with Ok a => ret a | Raise e => raise e end.

Notation "x <- m ;; k" := (bind m (fun x => k))
  (at level 61, m at next level, right associativity).
Notation "m ;;; k" := (bind m (fun _ => k))
  (at level 61, right associativity).

(** ** Logger and backend primitives *)

(** [logger.log_variables({'func_evals': fe, 'jac_func_evals': je})] *)
Definition log_evals (fe je : Z) : M unit :=
  fun w =>
    (Ok tt,
     {| logger := {| func_evals := fe;
                     jac_func_evals := je;
                     n_shots_log := n_shots_log (logger w) |};
        calls := calls w;
        np_random := np_random w |}).

(** [logger.log_variables({'n_shots': l})] *)
Definition log_n_shots (l : list (option Z)) : M unit :=
  fun w =>
    (Ok tt,
     {| logger := {| func_evals := func_evals (logger w);
                     jac_func_evals := jac_func_evals (logger w);
                     n_shots_log := n_shots_log (logger w) ++ [l] |};
        calls := calls w;
        np_random := np_random w |}).

(** [logger.func_evals.best[0]] and [logger.jac_func_evals.best[0]] *)
Definition read_func_evals : M Z := fun w => (Ok (func_evals (logger w)), w).
Definition read_jac_func_evals : M Z :=
  fun w => (Ok (jac_func_evals (logger w)), w).

(** The backend receives a call; the record keeps the counters it could
    read in the logger at that moment. *)
Definition invoke_backend (kind : CallKind) (params : QAOAParams)
    (kwargs : option Z) : M unit :=
  fun w =>
    (Ok tt,
     {| logger := logger w;
        calls := calls w ++ [ {| call_kind := kind;
                                 call_params := params;
                                 call_n_shots := kwargs;
                                 call_func_evals := func_evals (logger w);
                                 call_jac_func_evals :=
                                   jac_func_evals (logger w) |} ];
        np_random := np_random w |}).

(** [{'n_shots': n_shots} if n_shots else {}]: the keyword is passed when
    [n_shots] is truthy, that is neither [None] nor [0]. *)
Definition n_shots_dict (n_shots : option Z) : option Z :=
  match n_shots with
  | Some n => if Z.eqb n 0 then None else Some n
  | None => None
  end.

(** ** Evaluation wrappers *)

Definition update_and_compute_expectation (backend_obj : Backend)
    (params : QAOAParams) (args : list F) (n_shots : option Z) : M F :=
  current_total_eval <- read_func_evals ;;
  let current_total_eval := current_total_eval + 1 in
  current_jac_eval <- read_jac_func_evals ;;
  let current_jac_eval := current_jac_eval + 1 in
  log_evals current_total_eval current_jac_eval ;;;
  let params := update_from_raw params args in
  let kwargs := n_shots_dict n_shots in
  invoke_backend CallExpectation params kwargs ;;;
  ret (expectation backend_obj params kwargs).

Definition update_and_get_counts (backend_obj : Backend)
    (params : QAOAParams) (args : list F) (n_shots : option Z) : M Counts :=
  current_total_eval <- read_func_evals ;;
  let current_total_eval := current_total_eval + 1 in
  current_jac_eval <- read_jac_func_evals ;;
  let current_jac_eval := current_jac_eval + 1 in
  log_evals current_total_eval current_jac_eval ;;;
  let params := update_from_raw params args in
  let kwargs := n_shots_dict n_shots in
  invoke_backend CallGetCounts params kwargs ;;;
  ret (get_counts backend_obj params kwargs).

(** ** Shot allocation *)

(** The [n_shots] argument of an estimator: a list, an integer or [None],
    or a value of any other type. *)
Inductive ShotSpec : Type :=
| ShotsList (l : list (option Z))
| ShotsScalar (n : option Z)
| ShotsOther.

Definition __create_n_shots_list (n_params : nat) (n_shots : ShotSpec)
    : result (list (option Z)) :=
  match n_shots with
  | ShotsList l =>
      if Nat.eqb (length l) n_params then Ok l
      else Raise (AssertionError
        "n_shots must be a list of length equal to the number of parameters.")
  | ShotsScalar n => Ok (repeat n n_params)
  | ShotsOther =>
      Raise (ValueError
        "n_shots must be either an integer or a list of integers.")
  end.

(** [np.repeat(v, k)]: each element [k] times, in order. *)
Definition np_repeat {A} (v : list A) (k : nat) : list A :=
  flat_map (fun x => repeat x k) v.

(** [a.reshape(2, len(a)//2).repeat(2, axis=0).reshape(a.size*2)]; the
    first reshape fails on an odd length. *)
Definition repeat_rows_twice {A} (a : list A) : result (list A) :=
  let half := Nat.div (length a) 2 in
  if Nat.eqb (2 * half) (length a) then
    let row0 := firstn half a in
    let row1 := skipn half a in
    Ok (row0 ++ row0 ++ row1 ++ row1)
  else Raise (ValueError "cannot reshape array").

Definition __create_n_shots_ext_list (n_params : nat)
    (n_associated_params : list nat) (n_shots : ShotSpec)
    : result (list (option Z)) :=
  match n_shots with
  | ShotsList l =>
      if Nat.eqb (length l) n_params then
        match repeat_rows_twice l with
        | Ok n_shots =>
            Ok (flat_map (fun rs => repeat (snd rs) (fst rs))
                         (combine n_associated_params n_shots))
        | Raise e => Raise e
        end
      else Raise (AssertionError
        "n_shots must be a list of length equal to the number of parameters.")
  | ShotsScalar n => Ok (repeat n (list_sum n_associated_params))
  | ShotsOther =>
      Raise (ValueError
        "n_shots must be either an integer or a list of integers.")
  end.

(** ** The shared kernel *)

(** [np.array(u) - np.array(v)] on one-dimensional arrays: elementwise on
    equal lengths, a one-element array is broadcast against the other, and
    any other pair of lengths is refused. *)
Definition np_subtract (u v : list F) : result (list F) :=
  if Nat.eqb (length u) (length v) then Ok (map2 fsub u v)
  else
    match u, v with
    | [a], _ => Ok (map (fun b => fsub a b) v)
    | _, [b] => Ok (map (fun a => fsub a b) u)
    | _, _ => Raise (ValueError "operands could not be broadcast together")
    end.

(** [[costs_dict[key] for key, value in counts.items() for _ in range(value)]],
    where [costs_dict[key]] is [cost_function({key: 1}, hamiltonian, alpha)]. *)
Definition shot_costs (backend_obj : Backend) (counts : Counts) : list F :=
  flat_map (fun kv => repeat (cost_function backend_obj [(fst kv, 1%nat)])
                             (snd kv))
           counts.

Definition fun_w_variance (args : list F) (backend_obj : Backend)
    (params : QAOAParams) (vect_eta : list F) (constant : F)
    (n_shots : option Z) : M (F * F) :=
  counts_i_dict <-
    update_and_get_counts backend_obj params (vsub args vect_eta) n_shots ;;
  counts_f_dict <-
    update_and_get_counts backend_obj params (vadd args vect_eta) n_shots ;;
  let eval_i_list := shot_costs backend_obj counts_i_dict in
  let eval_f_list := shot_costs backend_obj counts_f_dict in
  diff <- lift (np_subtract eval_f_list eval_i_list) ;;
  let grad_list := map (fun d => np_real (fmul constant d)) diff in
  ret (np_mean grad_list, np_var grad_list).

Definition fun_expectation (args : list F) (backend_obj : Backend)
    (params : QAOAParams) (vect_eta : list F) (constant : F)
    (n_shots : option Z) : M (F * F) :=
  e_plus <-
    update_and_compute_expectation backend_obj params (vadd args vect_eta)
                                   n_shots ;;
  e_minus <-
    update_and_compute_expectation backend_obj params (vsub args vect_eta)
                                   n_shots ;;
  ret (fmul constant (fsub e_plus e_minus), of_Z 0).

Definition __gradient (args : list F) (backend_obj : Backend)
    (params : QAOAParams) (variance : bool)
    : list F -> F -> option Z -> M (F * F) :=
  if variance then fun_w_variance args backend_obj params
  else fun_expectation args backend_obj params.

(** ** Python lists and loops *)

Definition rbind {A B} (r : result A) (k : A -> result B) : result B :=
  match r with Ok a => k a | Raise e => Raise e end.

(** [v[i]] for [i >= 0]. *)
Definition get_item {A} (v : list A) (i : nat) : result A :=
  match nth_error v i with Some x => Ok x | None => Raise IndexError end.

(** [v[k]] where [k] may be negative and then counts from the end. *)
Definition py_get {A} (v : list A) (k : Z) : result A :=
  let k' := if Z.ltb k 0 then k + Z.of_nat (length v) else k in
  if Z.ltb k' 0 then Raise IndexError else get_item v (Z.to_nat k').

Definition range (n : nat) : list nat := seq 0 n.

(** [range(a, b)] *)
Definition py_range (a b : nat) : list nat := seq a (b - a).

(** [k * v] for a list [v]. *)
Definition list_times {A} (k : nat) (v : list A) : list A :=
  concat (repeat v k).

(** [sum(v)], which starts from the integer [0]. *)
Fixpoint py_sum (v : list (option Z)) (acc : Z) : result Z :=
  match v with
  | [] => Ok acc
  | Some n :: t => py_sum t (acc + n)
  | None :: _ => Raise TypeError
  end.

(** A [for] loop that threads the variables it assigns. *)
Fixpoint for_each {A S} (xs : list A) (body : A -> S -> M S) (s : S) : M S :=
  match xs with
  | [] => ret s
  | x :: rest => s' <- body x s ;; for_each rest body s'
  end.

Fixpoint map_result {A B} (f : A -> result B) (xs : list A)
    : result (list B) :=
  match xs with
  | [] => Ok []
  | x :: rest =>
      rbind (f x) (fun y => rbind (map_result f rest) (fun ys => Ok (y :: ys)))
  end.

(** [np.cumsum] *)
Fixpoint np_cumsum_from (acc : nat) (v : list nat) : list nat :=
  match v with
  | [] => []
  | x :: t => (acc + x)%nat :: np_cumsum_from (acc + x)%nat t
  end.

Definition np_cumsum (v : list nat) : list nat := np_cumsum_from 0 v.

(** ** Results of an estimator *)

Inductive Output : Type :=
| Grad (grad : list F)
| GradVar (grad var : list F) (n_shots_used : Z)
| Hess (hess : list (list F)).

Record DerivativeOptions : Type := {
  stepsize : F;
  n_beta_single : Z;
  n_beta_pair : Z;
  n_gamma_single : Z;
  n_gamma_pair : Z
}.

(** ** Finite-difference gradient *)

Definition grad_fd_func (backend_obj : Backend) (params : QAOAParams)
    (eta : F) (variance : bool) (args : list F) (n_shots : ShotSpec)
    : M Output :=
  let __gradient_function := __gradient args backend_obj params variance in
  n_shots_list <- lift (__create_n_shots_list (length args) n_shots) ;;
  (if variance then log_n_shots n_shots_list else ret tt) ;;;
  gv <- for_each (range (length args))
          (fun i gv =>
             let vect_eta := np_zeros (length args) in
             let vect_eta := set_item vect_eta i (fdiv eta (of_Z 2)) in
             const <- lift (py_div (of_Z 1) eta) ;;
             shots_i <- lift (get_item n_shots_list i) ;;
             r <- __gradient_function vect_eta const shots_i ;;
             ret (set_item (fst gv) i (fst r), set_item (snd gv) i (snd r)))
          (np_zeros (length args), np_zeros (length args)) ;;
  if variance then
    total <- lift (py_sum n_shots_list 0) ;;
    ret (GradVar (fst gv) (snd gv) (2 * total))
  else ret (Grad (fst gv)).

Definition grad_fd (backend_obj : Backend) (params : QAOAParams)
    (gradient_options : DerivativeOptions) (variance : bool)
    : list F -> ShotSpec -> M Output :=
  let eta := stepsize gradient_options in
  grad_fd_func backend_obj params eta variance.

(** ** Parameter shift *)

Definition coeffs_list_of (params : QAOAParams) : list F :=
  list_times (p params) (mixer_1q_coeffs params)
  ++ list_times (p params) (mixer_2q_coeffs params)
  ++ list_times (p params) (cost_1q_coeffs params)
  ++ list_times (p params) (cost_2q_coeffs params).

Definition family_sizes (params : QAOAParams) : list nat :=
  [ length (mixer_1q_coeffs params); length (mixer_2q_coeffs params);
    length (cost_1q_coeffs params); length (cost_2q_coeffs params) ].

(** [np.insert(np.cumsum(n_associated_params), 0, 0)] *)
Definition group_bounds (n_associated_params : list nat) : list nat :=
  0%nat :: np_cumsum n_associated_params.

(** [[np.sum(x_ext[ l[i-1] : l[i] ]) for i in range(0, len(l)-1)]] *)
Definition group_sums (l : list nat) (x_ext : list F) : result (list F) :=
  map_result
    (fun i =>
       rbind (py_get l (Z.of_nat i - 1)) (fun a =>
       rbind (py_get l (Z.of_nat i)) (fun b =>
       Ok (np_sum (py_slice x_ext a b)))))
    (range (length l - 1)).

(** [a.reshape(rows, cols)], as the list of its rows. *)
Definition np_reshape {A} (rows cols : nat) (a : list A)
    : result (list (list A)) :=
  if Nat.eqb (length a) (rows * cols) then
    Ok (map (fun k => py_slice a (k * cols) ((k + 1) * cols)) (range rows))
  else Raise (ValueError "cannot reshape array").

(** The conversion of extended values to the standard form, the same text
    for the gradient and for the variance in [grad_ps_func] and in
    [grad_sps_func]:
    [g = np.array([np.sum(x_ext[l[i-1]:l[i]]) ...]).reshape(4, p)] and
    [np.concatenate((g[0] + g[1], g[2] + g[3]))]. *)
Definition ext_to_std (l : list nat) (p : nat) (x_ext : list F)
    : result (list F) :=
  rbind (group_sums l x_ext) (fun sums =>
  rbind (np_reshape 4 p sums) (fun g =>
  rbind (get_item g 0) (fun g0 =>
  rbind (get_item g 1) (fun g1 =>
  rbind (get_item g 2) (fun g2 =>
  rbind (get_item g 3) (fun g3 =>
  Ok (vadd g0 g1 ++ vadd g2 g3))))))).

(** The body of the loop over extended parameters, shared by the two
    parameter-shift estimators. *)
Definition param_shift_step (coeffs_list : list F) (args_ext : list F)
    (__gradient_function : list F -> F -> option Z -> M (F * F))
    (n_shots_list : list (option Z)) (i : nat) : M (F * F) :=
  r <- lift (get_item coeffs_list i) ;;
  let vect_eta := np_zeros (length args_ext) in
  shift <- lift (py_div np_pi (fmul (of_Z 4) r)) ;;
  let vect_eta := set_item vect_eta i shift in
  shots_i <- lift (get_item n_shots_list i) ;;
  __gradient_function vect_eta r shots_i.

(** The loop of [grad_ps_func] that fills [grad_ext] and [var_ext]. *)
Definition ps_extended (coeffs_list : list F) (args_ext : list F)
    (__gradient_function : list F -> F -> option Z -> M (F * F))
    (n_shots_list : list (option Z)) : M (list F * list F) :=
  for_each (range (length args_ext))
    (fun i gv =>
       r <- param_shift_step coeffs_list args_ext __gradient_function
                             n_shots_list i ;;
       ret (set_item (fst gv) i (fst r), set_item (snd gv) i (snd r)))
    (np_zeros (length args_ext), np_zeros (length args_ext)).

Definition grad_ps_func (backend_obj : Backend) (params : QAOAParams)
    (params_ext : QAOAParams) (variance : bool)
    (args : list F) (n_shots : ShotSpec) : M Output :=
  let coeffs_list := coeffs_list_of params in
  let n_associated_params := np_repeat (family_sizes params) (p params) in
  let l := group_bounds n_associated_params in
  let args_ext := convert_to_ext params args in
  let __gradient_function :=
    __gradient args_ext backend_obj params_ext variance in
  (if variance then
     std_list <- lift (__create_n_shots_list (length args) n_shots) ;;
     log_n_shots std_list
   else ret tt) ;;;
  n_shots_list <-
    lift (__create_n_shots_ext_list (length args) n_associated_params
                                    n_shots) ;;
  gv <- ps_extended coeffs_list args_ext __gradient_function n_shots_list ;;
  grad <- lift (ext_to_std l (p params) (fst gv)) ;;
  var <- lift (ext_to_std l (p params) (snd gv)) ;;
  if variance then
    total <- lift (py_sum n_shots_list 0) ;;
    ret (GradVar grad var (2 * total))
  else ret (Grad grad).

Definition grad_ps (backend_obj : Backend) (params : QAOAParams)
    (params_ext : QAOAParams) (variance : bool)
    : list F -> ShotSpec -> M Output :=
  grad_ps_func backend_obj params params_ext variance.

(** ** Stochastic parameter shift *)

Definition names_params : list string :=
  [ "n_beta_single"; "n_beta_pair"; "n_gamma_single"; "n_gamma_pair" ]%string.

(** [str(z)] for an integer. *)
Definition str_of_Z (z : Z) : string := NilZero.string_of_int (Z.to_int z).

(** The loop over [zip(n_sample, n_sample_equivalent_ps)] that asserts
    [-1 <= x <= y] and replaces [-1] by [y]. *)
Fixpoint check_n_sample (names : list string) (n_sample : list Z)
    (n_sample_equivalent_ps : list nat) : result (list nat) :=
  match names, n_sample, n_sample_equivalent_ps with
  | name :: names', x :: xs, y :: ys =>
      if Z.leb (-1) x && Z.leb x (Z.of_nat y) then
        rbind (check_n_sample names' xs ys) (fun rest =>
        Ok ((if Z.eqb x (-1) then y else Z.to_nat x) :: rest))
      else
        Raise (AssertionError
          ("Invalid " ++ name ++ ", it must be between -1 and "
           ++ str_of_Z (Z.of_nat y) ++ ", but " ++ str_of_Z x
           ++ " is passed."))
  | _, _, _ => Ok []
  end.

(** [np.random.choice(population, size, False)]: refused when the sample is
    larger than the population; otherwise the next output of the generator
    (and the first [size] elements once the recorded outputs run out).  An
    empty sample of an empty population is accepted, as numpy does. *)
Definition np_random_choice (population : list nat) (size : nat)
    : M (list nat) :=
  fun w =>
    if Nat.ltb (length population) size then
      (Raise (ValueError
         "Cannot take a larger sample than population when 'replace=False'"),
       w)
    else
      match np_random w with
      | drawn :: rest =>
          (Ok drawn,
           {| logger := logger w; calls := calls w; np_random := rest |})
      | [] => (Ok (firstn size population), w)
      end.

(** [np.random.randint(0, 2, size=size)] *)
Definition np_random_randint_0_2 (size : nat) : M (list nat) :=
  fun w =>
    match np_random w with
    | drawn :: rest =>
        (Ok drawn,
         {| logger := logger w; calls := calls w; np_random := rest |})
    | [] => (Ok (repeat 0%nat size), w)
    end.

(** The loop that fills [sampled_indices]. *)
Definition draw_sampled_indices (l : list nat)
    (n_associated_params : list nat) : M (list nat) :=
  for_each
    (combine (range (length n_associated_params)) n_associated_params)
    (fun i_n sampled_indices =>
       lo <- lift (get_item l (fst i_n)) ;;
       hi <- lift (get_item l (fst i_n + 1)) ;;
       drawn <- np_random_choice (py_range lo hi) (snd i_n) ;;
       ret (sampled_indices ++ drawn))
    [].

Definition py_in (i : nat) (v : list nat) : bool := existsb (Nat.eqb i) v.

(** The loop of [grad_sps_func] over the extended parameters; it threads
    [grad_ext], [var_ext] and [n_shots_used]. *)
Definition sps_extended (coeffs_list : list F) (args_ext : list F)
    (__gradient_function : list F -> F -> option Z -> M (F * F))
    (n_shots_list : list (option Z)) (sampled_indices : list nat)
    : M (list F * list F * Z) :=
  for_each (range (length args_ext))
    (fun i st =>
       if py_in i sampled_indices then
         r <- param_shift_step coeffs_list args_ext __gradient_function
                               n_shots_list i ;;
         shots_i <- lift (get_item n_shots_list i) ;;
         ret (set_item (fst (fst st)) i (fst r),
              set_item (snd (fst st)) i (snd r),
              snd st + match shots_i with Some n => 2 * n | None => 0 end)
       else ret st)
    (np_zeros (length args_ext), np_zeros (length args_ext), 0).

Definition grad_sps_func (backend_obj : Backend) (params_std : QAOAParams)
    (params_ext : QAOAParams) (n_sample : list nat) (variance : bool)
    (args : list F) (n_shots : ShotSpec) : M Output :=
  let n_sample_equivalent_ps := family_sizes params_std in
  let coeffs_list := coeffs_list_of params_std in
  let n_associated_params := np_repeat n_sample (p params_std) in
  let n_associated_params_equivalent_ps :=
    np_repeat n_sample_equivalent_ps (p params_std) in
  let l := group_bounds n_associated_params_equivalent_ps in
  let args_ext := convert_to_ext params_std args in
  let __gradient_function :=
    __gradient args_ext backend_obj params_ext variance in
  (if variance then
     std_list <- lift (__create_n_shots_list (length args) n_shots) ;;
     log_n_shots std_list
   else ret tt) ;;;
  n_shots_list <-
    lift (__create_n_shots_ext_list (length args)
            n_associated_params_equivalent_ps n_shots) ;;
  sampled_indices <- draw_sampled_indices l n_associated_params ;;
  st <- sps_extended coeffs_list args_ext __gradient_function n_shots_list
                     sampled_indices ;;
  grad <- lift (ext_to_std l (p params_std) (fst (fst st))) ;;
  var <- lift (ext_to_std l (p params_std) (snd (fst st))) ;;
  if variance then ret (GradVar grad var (snd st))
  else ret (Grad grad).

Definition grad_sps (backend_obj : Backend) (params_std : QAOAParams)
    (params_ext : QAOAParams) (gradient_options : DerivativeOptions)
    (variance : bool) : result (list F -> ShotSpec -> M Output) :=
  let n_sample :=
    [ n_beta_single gradient_options; n_beta_pair gradient_options;
      n_gamma_single gradient_options; n_gamma_pair gradient_options ] in
  let n_sample_equivalent_ps := family_sizes params_std in
  rbind (check_n_sample names_params n_sample n_sample_equivalent_ps)
    (fun n_sample =>
       Ok (grad_sps_func backend_obj params_std params_ext n_sample
                         variance)).

(** ** SPSA *)

Definition grad_spsa_func (backend_obj : Backend) (params : QAOAParams)
    (eta : F) (variance : bool) (args : list F) (n_shots : option Z)
    : M Output :=
  (if variance then log_n_shots [n_shots] else ret tt) ;;;
  let __gradient_function := __gradient args backend_obj params variance in
  bits <- np_random_randint_0_2 (length args) ;;
  let delta := map (fun b => 2 * Z.of_nat b - 1) bits in
  let vector_eta := map (fun d => fdiv (fmul (of_Z d) eta) (of_Z 2)) delta in
  const <- lift (py_div (of_Z 1) eta) ;;
  r <- __gradient_function vector_eta const n_shots ;;
  if variance then
    match n_shots with
    | Some n =>
        ret (GradVar (map (fun d => fmul (fst r) (of_Z d)) delta)
                     (map (fun d => fmul (snd r) (of_Z (Z.abs d))) delta)
                     (2 * n))
    | None => raise TypeError
    end
  else ret (Grad (map (fun d => fmul (fst r) (of_Z d)) delta)).

Definition grad_spsa (backend_obj : Backend) (params : QAOAParams)
    (gradient_options : DerivativeOptions) (variance : bool)
    : list F -> option Z -> M Output :=
  let eta := stepsize gradient_options in
  grad_spsa_func backend_obj params eta variance.

(** ** Finite-difference Hessian *)

(** [hess[i][j] = x] *)
Definition set_item2 (hess : list (list F)) (i j : nat) (x : F)
    : list (list F) :=
  set_item hess i (set_item (nth i hess []) j x).

Definition hessian_diagonal (backend_obj : Backend) (params : QAOAParams)
    (eta : F) (args vect_eta1 : list F) : M F :=
  let fun_ := update_and_compute_expectation backend_obj params in
  f1 <- fun_ (vadd args (vscale (fmul (of_Z 2) eta) vect_eta1)) None ;;
  f2 <- fun_ (vadd args (vscale eta vect_eta1)) None ;;
  f3 <- fun_ args None ;;
  f4 <- fun_ (vsub args (vscale eta vect_eta1)) None ;;
  f5 <- fun_ (vsub args (vscale (fmul (of_Z 2) eta) vect_eta1)) None ;;
  ret (fdiv
         (fsub (fadd (fsub (fadd (fneg f1) (fmul (of_Z 16) f2))
                           (fmul (of_Z 30) f3))
                     (fmul (of_Z 16) f4))
               f5)
         (fmul (of_Z 12) (fpow eta 2))).

Definition hessian_off_diagonal (backend_obj : Backend) (params : QAOAParams)
    (eta : F) (args vect_eta1 vect_eta2 : list F) : M F :=
  let fun_ := update_and_compute_expectation backend_obj params in
  f1 <- fun_ (vadd (vadd args (vscale eta vect_eta1)) (vscale eta vect_eta2))
             None ;;
  f2 <- fun_ (vsub (vadd args (vscale eta vect_eta1)) (vscale eta vect_eta2))
             None ;;
  f3 <- fun_ (vadd (vsub args (vscale eta vect_eta1)) (vscale eta vect_eta2))
             None ;;
  f4 <- fun_ (vsub (vsub args (vscale eta vect_eta1)) (vscale eta vect_eta2))
             None ;;
  ret (fdiv (fadd (fsub (fsub f1 f2) f3) f4)
            (fmul (of_Z 4) (fpow eta 2))).

Definition hessian_fd_func (backend_obj : Backend) (params : QAOAParams)
    (eta : F) (args : list F) : M Output :=
  let n := length args in
  hess <- for_each (range n)
    (fun i hess =>
       for_each (range n)
         (fun j hess =>
            let vect_eta1 := set_item (np_zeros n) i (of_Z 1) in
            let vect_eta2 := set_item (np_zeros n) j (of_Z 1) in
            if Nat.eqb i j then
              x <- hessian_diagonal backend_obj params eta args vect_eta1 ;;
              ret (set_item2 hess i i x)
            else
              x <- hessian_off_diagonal backend_obj params eta args
                                        vect_eta1 vect_eta2 ;;
              ret (set_item2 hess i j x))
         hess)
    (repeat (np_zeros n) n) ;;
  ret (Hess hess).

Definition hessian_fd (backend_obj : Backend) (params : QAOAParams)
    (hessian_options : DerivativeOptions) : list F -> M Output :=
  let eta := stepsize hessian_options in
  hessian_fd_func backend_obj params eta.

(** ** The factory *)

(** What [derivative] returns: a gradient estimator taking [(args,
    n_shots)], the SPSA estimator whose [n_shots] is a single value, or the
    Hessian estimator taking [args] alone. *)
Inductive Callable : Type :=
| GradientCallable (f : list F -> ShotSpec -> M Output)
| SpsaCallable (f : list F -> option Z -> M Output)
| HessianCallable (f : list F -> M Output).

(** The keys a caller may give in [derivative_options]. *)
Record OptionsDict : Type := {
  opt_stepsize : option F;
  opt_n_beta_single : option Z;
  opt_n_beta_pair : option Z;
  opt_n_gamma_single : option Z;
  opt_n_gamma_pair : option Z
}.

Definition default_derivative_options : DerivativeOptions :=
  {| stepsize := fdiv (of_Z 1) (of_Z 100000);     (* the literal 0.00001 *)
     n_beta_single := -1;
     n_beta_pair := -1;
     n_gamma_single := -1;
     n_gamma_pair := -1 |}.

Definition or_default {A} (o : option A) (d : A) : A :=
  match o with Some x => x | None => d end.

(** [{**default_derivative_options, **derivative_options}] *)
Definition merge_options (derivative_options : option OptionsDict)
    : DerivativeOptions :=
  match derivative_options with
  | Some o =>
      let d := default_derivative_options in
      {| stepsize := or_default (opt_stepsize o) (stepsize d);
         n_beta_single := or_default (opt_n_beta_single o) (n_beta_single d);
         n_beta_pair := or_default (opt_n_beta_pair o) (n_beta_pair d);
         n_gamma_single :=
           or_default (opt_n_gamma_single o) (n_gamma_single d);
         n_gamma_pair := or_default (opt_n_gamma_pair o) (n_gamma_pair d) |}
  | None => default_derivative_options
  end.

Definition derivative_types : list string :=
  [ "gradient"; "gradient_w_variance"; "hessian" ]%string.

Definition derivative_methods : list string :=
  [ "finite_difference"; "param_shift"; "stoch_param_shift"; "grad_spsa" ]%string.

(** [x in names] and [x == name] for an argument that defaults to [None]. *)
Definition str_in (x : option string) (names : list string) : bool :=
  match x with
  | Some s => existsb (String.eqb s) names
  | None => false
  end.

Definition str_is (x : option string) (name : string) : bool :=
  match x with
  | Some s => String.eqb s name
  | None => false
  end.

Definition str_of_option (x : option string) : string :=
  match x with Some s => s | None => "None" end.

Definition not_standard_message (params : QAOAParams) : string :=
  (class_name params ++
   " not supported - only Standard Parametrisation is supported for parameter shift/stochastic parameter shift for now.")%string.

Definition is_standard (params : QAOAParams) : bool :=
  String.eqb (class_name params) "QAOAVariationalStandardParams".

(** The two branches [derivative_type == 'gradient'] and
    [derivative_type == 'gradient_w_variance'] differ by [variance] only. *)
Definition derivative_gradient (backend_obj : Backend) (params : QAOAParams)
    (params_ext : QAOAParams) (derivative_method : option string)
    (derivative_options : DerivativeOptions) (variance : bool)
    : M Callable :=
  if str_is derivative_method "finite_difference" then
    ret (GradientCallable
           (grad_fd backend_obj params derivative_options variance))
  else if str_is derivative_method "param_shift" then
    if is_standard params then
      ret (GradientCallable (grad_ps backend_obj params params_ext variance))
    else raise (AssertionError (not_standard_message params))
  else if str_is derivative_method "stoch_param_shift" then
    if is_standard params then
      f <- lift (grad_sps backend_obj params params_ext derivative_options
                          variance) ;;
      ret (GradientCallable f)
    else raise (AssertionError (not_standard_message params))
  else if str_is derivative_method "grad_spsa" then
    ret (SpsaCallable
           (grad_spsa backend_obj params derivative_options variance))
  else raise UnboundLocalError.   (* [return out] with [out] never assigned *)

Definition derivative (backend_obj : Backend) (params : QAOAParams)
    (derivative_type derivative_method : option string)
    (derivative_options : option OptionsDict) : M Callable :=
  let derivative_options := merge_options derivative_options in
  let params_ext := extended_params_empty backend_obj in
  if negb (str_in derivative_type derivative_types) then
    raise (AssertionError
      "Unknown derivative type specified - please choose between ['gradient', 'gradient_w_variance', 'hessian']")
  else if negb (str_in derivative_method derivative_methods) then
    raise (AssertionError
      "Unknown derivative computation method specified - please choose between ['finite_difference', 'param_shift', 'stoch_param_shift', 'grad_spsa']")
  else
    (* params = deepcopy(params) *)
    if str_is derivative_type "gradient" then
      derivative_gradient backend_obj params params_ext derivative_method
                          derivative_options false
    else if str_is derivative_type "gradient_w_variance" then
      derivative_gradient backend_obj params params_ext derivative_method
                          derivative_options true
    else
      if str_is derivative_method "finite_difference" then
        ret (HessianCallable
               (hessian_fd backend_obj params derivative_options))
      else
        raise (ValueError
          ("Only support hessian derivative method is finite_difference. Your choice: "
           ++ str_of_option derivative_method)).

(** The number of calls the backend has received. *)
Definition n_calls (w : World) : Z := Z.of_nat (length (calls w)).

(** ** Vocabulary of the statements *)

(** The world after one evaluation through a wrapper: both counters are
    raised, then the backend receives the call. *)
Definition record_call (kind : CallKind) (params : QAOAParams)
    (kwargs : option Z) (w : World) : World :=
  {| logger := {| func_evals := func_evals (logger w) + 1;
                  jac_func_evals := jac_func_evals (logger w) + 1;
                  n_shots_log := n_shots_log (logger w) |};
     calls := calls w ++ [ {| call_kind := kind;
                              call_params := params;
                              call_n_shots := kwargs;
                              call_func_evals := func_evals (logger w) + 1;
                              call_jac_func_evals :=
                                jac_func_evals (logger w) + 1 |} ];
     np_random := np_random w |}.

(** What the backend was asked, leaving the counters aside. *)
Definition call_request (c : BackendCall)
    : CallKind * QAOAParams * option Z :=
  (call_kind c, call_params c, call_n_shots c).

(** [tally w new w']: from [w] to [w'] the backend received exactly the
    calls [new], both counters grew by their number, and the [k]-th of them
    already saw the counters raised [k + 1] times. *)
Definition tally (w : World) (new : list BackendCall) (w' : World) : Prop :=
  calls w' = calls w ++ new
  /\ func_evals (logger w') = func_evals (logger w) + Z.of_nat (length new)
  /\ jac_func_evals (logger w')
     = jac_func_evals (logger w) + Z.of_nat (length new)
  /\ forall k c, nth_error new k = Some c ->
       call_func_evals c = func_evals (logger w) + Z.of_nat k + 1
       /\ call_jac_func_evals c = jac_func_evals (logger w) + Z.of_nat k + 1.

Definition tallied {A} (m : M A) : Prop :=
  forall w, exists new, tally w new (snd (m w)).

(** A callable that [derivative] can return. *)
Definition built_by_derivative (c : Callable) : Prop :=
  exists backend_obj params derivative_type derivative_method
         derivative_options w,
    fst (derivative backend_obj params derivative_type derivative_method
                    derivative_options w) = Ok c.

(** One call of an estimator built by the factory. *)
Inductive estimator_call : M Output -> Prop :=
| call_gradient f args n_shots :
    built_by_derivative (GradientCallable f) ->
    estimator_call (f args n_shots)
| call_spsa f args n_shots :
    built_by_derivative (SpsaCallable f) ->
    estimator_call (f args n_shots)
| call_hessian f args :
    built_by_derivative (HessianCallable f) ->
    estimator_call (f args).

(** A sequence of estimator calls on one world; a call that raises leaves
    the world as it was when the exception escaped. *)
Fixpoint run_all {A} (ms : list (M A)) (w : World) : World :=
  match ms with
  | [] => w
  | m :: rest => run_all rest (snd (m w))
  end.

(** The extended shot list in the words of the specification: the four
    families mixer-1q, mixer-2q, cost-1q, cost-2q in this order, each over
    the [p] layers, every gate of a (family, layer) group receiving the shot
    count of its standard parameter (the layer's mixer angle for the first
    two families, the layer's cost angle, [p] places further, for the last
    two). *)
Definition broadcast_extended_spec (p : nat) (sizes : list nat)
    (shots : list (option Z)) : list (option Z) :=
  flat_map
    (fun family =>
       flat_map
         (fun layer =>
            repeat (nth (Nat.div family 2 * p + layer) shots None)
                   (nth family sizes 0%nat))
         (range p))
    (range 4).

(** ** The documented validation failures *)

Definition is_gradient_type (derivative_type : option string) : Prop :=
  derivative_type = Some "gradient"%string
  \/ derivative_type = Some "gradient_w_variance"%string.

(** A stochastic sample size [x] for a family with [y] gates per layer that
    lies outside [-1 .. y]. *)
Definition out_of_range (x : Z) (y : nat) : Prop := x < -1 \/ Z.of_nat y < x.

Inductive validation_failure : forall A, M A -> Prop :=
| unknown_type backend_obj params derivative_type derivative_method
    derivative_options :
    str_in derivative_type derivative_types = false ->
    validation_failure Callable
      (derivative backend_obj params derivative_type derivative_method
                  derivative_options)
| unknown_method backend_obj params derivative_type derivative_method
    derivative_options :
    str_in derivative_method derivative_methods = false ->
    validation_failure Callable
      (derivative backend_obj params derivative_type derivative_method
                  derivative_options)
| hessian_other_method backend_obj params derivative_method
    derivative_options :
    derivative_method <> Some "finite_difference"%string ->
    validation_failure Callable
      (derivative backend_obj params (Some "hessian"%string)
                  derivative_method derivative_options)
| not_standard backend_obj params derivative_type derivative_method
    derivative_options :
    is_gradient_type derivative_type ->
    derivative_method = Some "param_shift"%string
    \/ derivative_method = Some "stoch_param_shift"%string ->
    class_name params <> "QAOAVariationalStandardParams"%string ->
    validation_failure Callable
      (derivative backend_obj params derivative_type derivative_method
                  derivative_options)
| sample_size_out_of_range backend_obj params derivative_type
    derivative_options :
    is_gradient_type derivative_type ->
    class_name params = "QAOAVariationalStandardParams"%string ->
    (let o := merge_options derivative_options in
     out_of_range (n_beta_single o) (length (mixer_1q_coeffs params))
     \/ out_of_range (n_beta_pair o) (length (mixer_2q_coeffs params))
     \/ out_of_range (n_gamma_single o) (length (cost_1q_coeffs params))
     \/ out_of_range (n_gamma_pair o) (length (cost_2q_coeffs params))) ->
    validation_failure Callable
      (derivative backend_obj params derivative_type
                  (Some "stoch_param_shift"%string) derivative_options)
| shots_length_fd backend_obj params eta variance args l :
    length l <> length args ->
    validation_failure Output
      (grad_fd_func backend_obj params eta variance args (ShotsList l))
| shots_length_ps backend_obj params params_ext variance args l :
    length l <> length args ->
    validation_failure Output
      (grad_ps_func backend_obj params params_ext variance args (ShotsList l))
| shots_length_sps backend_obj params params_ext n_sample variance args l :
    length l <> length args ->
    validation_failure Output
      (grad_sps_func backend_obj params params_ext n_sample variance args
                     (ShotsList l)).

(** ** The parameter-shift rule, as the specification words it *)

(** The perturbation of extended parameter [i]: [pi / (4 r_i)] in slot [i]
    and zero elsewhere. *)
Definition shift_vector (coeffs_list : list F) (n i : nat) : list F :=
  set_item (np_zeros n) i
           (fdiv np_pi (fmul (of_Z 4) (nth i coeffs_list (of_Z 0)))).

(** [r_i * (E(theta + eta) - E(theta - eta))] *)
Definition shift_estimate (backend_obj : Backend) (params_ext : QAOAParams)
    (coeffs_list args_ext : list F) (n_shots_list : list (option Z))
    (i : nat) : F :=
  let r := nth i coeffs_list (of_Z 0) in
  let eta := shift_vector coeffs_list (length args_ext) i in
  let kwargs := n_shots_dict (nth i n_shots_list None) in
  fmul r
    (fsub (expectation backend_obj
             (update_from_raw params_ext (vadd args_ext eta)) kwargs)
          (expectation backend_obj
             (update_from_raw params_ext (vsub args_ext eta)) kwargs)).

(** The two expectation requests of extended parameter [i]. *)
Definition shift_requests (params_ext : QAOAParams)
    (coeffs_list args_ext : list F) (n_shots_list : list (option Z))
    (i : nat) : list (CallKind * QAOAParams * option Z) :=
  let eta := shift_vector coeffs_list (length args_ext) i in
  let kwargs := n_shots_dict (nth i n_shots_list None) in
  [ (CallExpectation, update_from_raw params_ext (vadd args_ext eta), kwargs);
    (CallExpectation, update_from_raw params_ext (vsub args_ext eta), kwargs) ].

(** ** The Hessian stencils, as the specification words them *)

(** The unit vector [e_i] of length [n]. *)
Definition unit_vector (n i : nat) : list F :=
  set_item (np_zeros n) i (of_Z 1).

Definition hessian_stencil (backend_obj : Backend) (params : QAOAParams)
    (eta : F) (args : list F) (i j : nat) : F :=
  let f := fun theta =>
    expectation backend_obj (update_from_raw params theta) None in
  let e := unit_vector (length args) in
  if Nat.eqb i j then
    fdiv
      (fsub
         (fadd
            (fsub
               (fadd (fneg (f (vadd args (vscale (fmul (of_Z 2) eta) (e i)))))
                     (fmul (of_Z 16) (f (vadd args (vscale eta (e i))))))
               (fmul (of_Z 30) (f args)))
            (fmul (of_Z 16) (f (vsub args (vscale eta (e i))))))
         (f (vsub args (vscale (fmul (of_Z 2) eta) (e i)))))
      (fmul (of_Z 12) (fpow eta 2))
  else
    fdiv
      (fadd
         (fsub
            (fsub
               (f (vadd (vadd args (vscale eta (e i))) (vscale eta (e j))))
               (f (vsub (vadd args (vscale eta (e i))) (vscale eta (e j)))))
            (f (vadd (vsub args (vscale eta (e i))) (vscale eta (e j)))))
         (f (vsub (vsub args (vscale eta (e i))) (vscale eta (e j)))))
      (fmul (of_Z 4) (fpow eta 2)).

(** The total number of shots of a histogram. *)
Definition count_total (counts : Counts) : nat := list_sum (map snd counts).

(** ** Outputs of [np.random.choice] *)

Fixpoint nodupb (v : list nat) : bool :=
  match v with
  | [] => true
  | x :: t => negb (py_in x t) && nodupb t
  end.

(** [drawn] is a possible output of
    [np.random.choice(population, size, False)]: [size] distinct elements of
    the population. *)
Definition valid_draw (population : list nat) (size : nat)
    (drawn : list nat) : bool :=
  Nat.eqb (length drawn) size && nodupb drawn
  && forallb (fun x => py_in x population) drawn.

(** The recorded outputs of the generator answer the successive requests
    [(population, size)] with possible outputs. *)
Fixpoint valid_draws (requests : list (list nat * nat))
    (outputs : list (list nat)) : bool :=
  match requests, outputs with
  | (population, size) :: requests', drawn :: outputs' =>
      valid_draw population size drawn && valid_draws requests' outputs'
  | _, _ => true
  end.

(** The requests made by the loop that fills [sampled_indices]. *)
Definition sampling_requests (l : list nat) (n_associated_params : list nat)
    : list (list nat * nat) :=
  map (fun i_n => (py_range (nth (fst i_n) l 0%nat)
                            (nth (fst i_n + 1) l 0%nat),
                   snd i_n))
      (combine (range (length n_associated_params)) n_associated_params).

Definition output_gradient (out : Output) : option (list F) :=
  match out with
  | Grad grad => Some grad
  | GradVar grad _ _ => Some grad
  | Hess _ => None
  end.

Definition output_variance (out : Output) : option (list F) :=
  match out with
  | GradVar _ var _ => Some var
  | _ => None
  end.

Definition output_shots (out : Output) : option Z :=
  match out with
  | GradVar _ _ n_shots_used => Some n_shots_used
  | _ => None
  end.

(** The world with other future outputs of the generator. *)
Definition set_random (outputs : list (list nat)) (w : World) : World :=
  {| logger := logger w; calls := calls w; np_random := outputs |}.

(** A stochastic sample size that asks for every gate of its family:
    [-1], or the number of gates itself. *)
Definition samples_all (x : Z) (y : nat) : Prop := x = -1 \/ x = Z.of_nat y.

(** ** Shots used, as the specification words them *)

(** The sum of the allocated shot counts; an absent count adds nothing. *)
Definition sum_shots (v : list (option Z)) : Z :=
  fold_right (fun s acc => match s with Some n => n | None => 0 end + acc)
             0 v.

(** The shot counts of the sampled extended indices only. *)
Definition sampled_shots (n_shots_list : list (option Z))
    (sampled_indices : list nat) (n_ext : nat) : list (option Z) :=
  map (fun i => nth i n_shots_list None)
      (filter (fun i => py_in i sampled_indices) (range n_ext)).

(** A backend whose histograms all hold the same number of shots for a
    given [n_shots] keyword. *)
Definition steady_totals (backend_obj : Backend) : Prop :=
  forall params1 params2 kwargs,
    count_total (get_counts backend_obj params1 kwargs)
    = count_total (get_counts backend_obj params2 kwargs).

(** The computation returns a value from the world [w]. *)
Definition returns {A} (m : M A) (w : World) : Prop :=
  exists a w', m w = (Ok a, w').

(** ** The conversion to the standard form, two readings *)

(** The lower bound the code uses for entry [i] of the group sums: [l[i-1]],
    which for [i = 0] is the last element of [l]. *)
Definition code_lower (l : list nat) (i : nat) : nat :=
  nth (if Nat.eqb i 0 then length l - 1 else i - 1)%nat l 0%nat.

(** Entry [i] of the list comprehension over [range(0, len(l)-1)]. *)
Definition code_group_sum (l : list nat) (x_ext : list F) (i : nat) : F :=
  np_sum (py_slice x_ext (code_lower l i) (nth i l 0%nat)).

(** The sum of the extended values of group [k], whose indices are
    [l[k] .. l[k+1] - 1]. *)
Definition group_total (l : list nat) (x_ext : list F) (k : nat) : F :=
  np_sum (py_slice x_ext (nth k l 0%nat) (nth (k + 1) l 0%nat)).

(** The standard form in the words of the specification: for each layer
    the mixer entry adds the mixer-1q and mixer-2q group totals, and the
    cost entry adds the cost-1q and cost-2q group totals; the [p] mixer
    entries come first. *)
Definition ext_to_std_spec (l : list nat) (p : nat) (x_ext : list F)
    : list F :=
  map (fun layer => fadd (group_total l x_ext layer)
                         (group_total l x_ext (p + layer)))
      (range p)
  ++ map (fun layer => fadd (group_total l x_ext (2 * p + layer))
                            (group_total l x_ext (3 * p + layer)))
         (range p).

(** ** Properties of computations *)

(** The computation ignores the random generator. *)
Definition blind {A} (m : M A) : Prop :=
  forall w t, m (set_random t w) = (fst (m w), set_random t (snd (m w))).

(** The computation returns from every world. *)
Definition total {A} (m : M A) : Prop := forall w, returns m w.

(** Entry [k] exists in the matrix [hess]. *)
Definition entry_valid (hess : list (list F)) (k : nat * nat) : Prop :=
  (fst k < length hess)%nat /\ (snd k < length (nth (fst k) hess []))%nat.

(** ** Further vocabulary *)

(** The computation returns from every world, after exactly [k] backend
    calls, each of which satisfies [P]. *)
Definition emits {A} (P : BackendCall -> Prop) (k : nat) (m : M A) : Prop :=
  forall w, exists a w' new,
    m w = (Ok a, w')
    /\ calls w' = calls w ++ new
    /\ length new = k
    /\ Forall P new.

(** An expectation request without the [n_shots] keyword. *)
Definition plain_expectation (c : BackendCall) : Prop :=
  call_kind c = CallExpectation /\ call_n_shots c = None.

(** The perturbation of parameter [i] in the finite-difference gradient:
    [eta / 2] in slot [i] and zero elsewhere. *)
Definition fd_vector (eta : F) (n i : nat) : list F :=
  set_item (np_zeros n) i (fdiv eta (of_Z 2)).

(** [(1 / eta) * (E(args + v) - E(args - v))] for [v = fd_vector eta n i]. *)
Definition fd_estimate (backend_obj : Backend) (params : QAOAParams)
    (eta : F) (args : list F) (n_shots_list : list (option Z)) (i : nat)
    : F :=
  let v := fd_vector eta (length args) i in
  let kwargs := n_shots_dict (nth i n_shots_list None) in
  fmul (fdiv (of_Z 1) eta)
    (fsub (expectation backend_obj (update_from_raw params (vadd args v))
                       kwargs)
          (expectation backend_obj (update_from_raw params (vsub args v))
                       kwargs)).

Definition fd_requests (params : QAOAParams) (eta : F) (args : list F)
    (n_shots_list : list (option Z)) (i : nat)
    : list (CallKind * QAOAParams * option Z) :=
  let v := fd_vector eta (length args) i in
  let kwargs := n_shots_dict (nth i n_shots_list None) in
  [ (CallExpectation, update_from_raw params (vadd args v), kwargs);
    (CallExpectation, update_from_raw params (vsub args v), kwargs) ].

(** What [np.random.randint(0, 2, size=size)] answers in the world [w]. *)
Definition next_bits (w : World) (size : nat) : list nat :=
  match np_random w with
  | drawn :: _ => drawn
  | [] => repeat 0%nat size
  end.

(** [2 * bits - 1] and [delta * eta / 2] *)
Definition spsa_delta (bits : list nat) : list Z :=
  map (fun b => 2 * Z.of_nat b - 1) bits.

Definition spsa_vector (eta : F) (delta : list Z) : list F :=
  map (fun d => fdiv (fmul (of_Z d) eta) (of_Z 2)) delta.

(** The standard shot counts weighted by the numbers of gates they are
    spread over: the counts of the [p] mixer angles by the mixer gates per
    layer, those of the [p] cost angles by the cost gates per layer. *)
Definition weighted_shots (p : nat) (mixer_gates cost_gates : nat)
    (shots : list (option Z)) : Z :=
  Z.of_nat mixer_gates * sum_shots (firstn p shots)
  + Z.of_nat cost_gates * sum_shots (skipn p shots).

(** A stochastic sample size [x] for a family with [y] gates per layer that
    lies within [-1 .. y]. *)
Definition in_range (x : Z) (y : nat) : Prop := -1 <= x <= Z.of_nat y.

(** The requests that pass every check of [derivative] and of the factory it
    calls: a Hessian by finite differences, or a gradient (with or without
    variance) by one of the four methods, where the two parameter-shift
    methods need the standard parametrisation and the stochastic one also
    needs its four sample sizes within range. *)
Definition accepted_request (params : QAOAParams)
    (derivative_type derivative_method : option string)
    (derivative_options : option OptionsDict) : Prop :=
  (derivative_type = Some "hessian"%string
   /\ derivative_method = Some "finite_difference"%string)
  \/ (is_gradient_type derivative_type
      /\ (derivative_method = Some "finite_difference"%string
          \/ derivative_method = Some "grad_spsa"%string
          \/ (derivative_method = Some "param_shift"%string
              /\ class_name params = "QAOAVariationalStandardParams"%string)
          \/ (derivative_method = Some "stoch_param_shift"%string
              /\ class_name params = "QAOAVariationalStandardParams"%string
              /\ let o := merge_options derivative_options in
                 in_range (n_beta_single o) (length (mixer_1q_coeffs params))
                 /\ in_range (n_beta_pair o)
                             (length (mixer_2q_coeffs params))
                 /\ in_range (n_gamma_single o)
                             (length (cost_1q_coeffs params))
                 /\ in_range (n_gamma_pair o)
                             (length (cost_2q_coeffs params))))).

(** The computation leaves the shot lists of the logger as they are. *)
Definition keeps_shots_log {A} (m : M A) : Prop :=
  forall w, n_shots_log (logger (snd (m w))) = n_shots_log (logger w).

(** What an estimator adds to the shot lists of the logger: the allocated
    list, in variance mode and when the allocation succeeds. *)
Definition logged_shots (variance : bool)
    (n_shots_list : result (list (option Z))) : list (list (option Z)) :=
  match n_shots_list with
  | Ok l => if variance then [l] else []
  | Raise _ => []
  end.

End Derivatives.

Arguments validation_failure {F H A} m.

(** ** The rationals as numbers *)

#[export] Instance Q_Scalar : Scalar Q := {
  of_Z := inject_Z;
  fadd := Qplus;
  fsub := Qminus;
  fmul := Qmult;
  fdiv := Qdiv;
  fneg := Qopp;
  fpow := fun x n => Qpower x (Z.of_nat n);
  fabs := Qabs;
  np_real := fun x => x;
  fis_zero := fun x => Qeq_bool x 0;
  (* the double nearest to pi, which is the value of [np.pi] *)
  np_pi := Qmake 884279719003555 281474976710656
}.

(** ** Concrete inputs

    A one-layer circuit with one single-qubit mixer gate and one two-qubit
    cost gate, both of coefficient 1: the standard vector [[beta; gamma]] and
    the extended vector have two entries each. *)

Definition example_convert_to_ext (p : nat) (sizes : list nat)
    (args : list Q) : list Q :=
  flat_map
    (fun family =>
       flat_map
         (fun layer =>
            repeat (nth (Nat.div family 2 * p + layer) args 0%Q)
                   (nth family sizes 0%nat))
         (range p))
    (range 4).

Definition example_params : QAOAParams :=
  {| class_name := "QAOAVariationalStandardParams";
     p := 1;
     mixer_1q_coeffs := [1%Q];
     mixer_2q_coeffs := [];
     cost_1q_coeffs := [];
     cost_2q_coeffs := [1%Q];
     convert_to_ext := example_convert_to_ext 1 [1; 0; 0; 1]%nat;
     raw := [] |}.

Definition example_params_ext : QAOAParams :=
  {| class_name := "QAOAVariationalExtendedParams";
     p := 1;
     mixer_1q_coeffs := [1%Q];
     mixer_2q_coeffs := [];
     cost_1q_coeffs := [];
     cost_2q_coeffs := [1%Q];
     convert_to_ext := fun args => args;
     raw := [] |}.

(** The expectation is [angle_0 + 2 * angle_1]; every histogram holds three
    shots; the outcome 11 costs 1 and any other outcome costs 0. *)
Definition example_backend : Backend :=
  {| expectation := fun params _ =>
       (nth 0 (raw params) 0 + 2 * nth 1 (raw params) 0)%Q;
     get_counts := fun params _ =>
       if Qle_bool 0 (nth 1 (raw params) 0%Q)
       then [("00"%string, 1%nat); ("11"%string, 2%nat)]
       else [("00"%string, 2%nat); ("11"%string, 1%nat)];
     cost_function := fun counts =>
       match counts with
       | (key, _) :: _ => if String.eqb key "11" then 1%Q else 0%Q
       | [] => 0%Q
       end;
     extended_params_empty := example_params_ext |}.

(** A backend whose histogram holds [n_forward] shots at non-negative first
    angle and two shots otherwise. *)
Definition uneven_backend (n_forward : nat) : Backend :=
  {| expectation := fun _ _ => 0%Q;
     get_counts := fun params _ =>
       if Qle_bool 0 (nth 0 (raw params) 0%Q)
       then [("0"%string, n_forward)]
       else [("0"%string, 1%nat); ("1"%string, 1%nat)];
     cost_function := fun counts =>
       match counts with
       | (key, _) :: _ => if String.eqb key "1" then 1%Q else 0%Q
       | [] => 0%Q
       end;
     extended_params_empty := example_params_ext |}.

Definition example_world : World (F := Q) :=
  {| logger := {| func_evals := 0; jac_func_evals := 0; n_shots_log := [] |};
     calls := [];
     np_random := [] |}.

(** The same world when the generator is about to answer the four sampling
    requests of the example circuit with [[0]], [[]], [[]] and [[1]]. *)
Definition example_world_sampling : World (F := Q) :=
  set_random [[0%nat]; []; []; [1%nat]] example_world.

(** The world when the generator is about to answer the four sampling
    requests with [[0]], [[]], [[]] and [[]]: only the mixer gate is
    sampled. *)
Definition example_world_mixer : World (F := Q) :=
  set_random [[0%nat]; []; []; []] example_world.

(** The world when [np.random.randint] is about to answer [[1; 0]]. *)
Definition example_world_signs : World (F := Q) :=
  set_random [[1; 0]%nat] example_world.

Definition example_options : DerivativeOptions (F := Q) :=
  merge_options None.


(** * Properties *)

Section Properties.

Context {F : Type} `{Scalar F}.

Implicit Types (backend_obj : @Backend F).
Implicit Types (params params_ext params_std : @QAOAParams F).
Implicit Types (w : @World F).
Implicit Types (args args_ext vect_eta coeffs_list : list F).
Implicit Types (n_shots_list : list (option Z)).
Implicit Types (hess : list (list F)).

Notation "x <- m ;; k" := (bind m (fun x => k))
  (at level 61, m at next level, right associativity).
Notation "m ;;; k" := (bind m (fun _ => k))
  (at level 61, right associativity).

(** ** The monad *)

Lemma bind_ok {A B} (m : @M F A) (k : A -> @M F B) w a w' :
  m w = (Ok a, w') -> bind m k w = k a w'.
Proof. unfold bind; intros ->; reflexivity. Qed.

Lemma bind_raise {A B} (m : @M F A) (k : A -> @M F B) w e w' :
  m w = (Raise e, w') -> bind m k w = (Raise e, w').
Proof. unfold bind; intros ->; reflexivity. Qed.

Lemma lift_ok {A} (r : result A) a w :
  r = Ok a -> lift r w = (Ok a, w).
Proof. intros ->; reflexivity. Qed.

Lemma lift_raise {A} (r : result A) e w :
  r = Raise e -> lift r w = (Raise e, w).
Proof. intros ->; reflexivity. Qed.

(** ** The wrappers, run *)

Lemma update_and_compute_expectation_run backend_obj params args n_shots w :
  update_and_compute_expectation backend_obj params args n_shots w
  = (Ok (expectation backend_obj (update_from_raw params args)
                     (n_shots_dict n_shots)),
     record_call CallExpectation (update_from_raw params args)
                 (n_shots_dict n_shots) w).
Proof. reflexivity. Qed.

Lemma update_and_get_counts_run backend_obj params args n_shots w :
  update_and_get_counts backend_obj params args n_shots w
  = (Ok (get_counts backend_obj (update_from_raw params args)
                    (n_shots_dict n_shots)),
     record_call CallGetCounts (update_from_raw params args)
                 (n_shots_dict n_shots) w).
Proof. reflexivity. Qed.

Lemma n_shots_dict_some n_shots n :
  n_shots_dict n_shots = Some n <-> n_shots = Some n /\ n <> 0.
Proof.
  unfold n_shots_dict; destruct n_shots as [m|].
  - destruct (Z.eqb_spec m 0) as [E|E]; split.
    + discriminate.
    + intros [[= ->] N]; contradiction.
    + intros [= ->]; split; [reflexivity | assumption].
    + intros [[= ->] _]; reflexivity.
  - split; [discriminate | intros [[=] _]].
Qed.

Lemma n_shots_dict_none n_shots :
  n_shots_dict n_shots = None <-> n_shots = None \/ n_shots = Some 0.
Proof.
  unfold n_shots_dict; destruct n_shots as [m|].
  - destruct (Z.eqb_spec m 0) as [E|E]; split.
    + intros _; right; now subst.
    + reflexivity.
    + discriminate.
    + intros [[=] | [= ->]]; contradiction.
  - split; auto.
Qed.

(** ** Counting backend calls *)

Lemma tally_refl w : tally w [] w.
Proof.
  unfold tally; cbn [length]; rewrite app_nil_r.
  repeat split; try lia; destruct k; discriminate.
Qed.

Lemma tally_quiet w w' :
  calls w' = calls w ->
  func_evals (logger w') = func_evals (logger w) ->
  jac_func_evals (logger w') = jac_func_evals (logger w) ->
  tally w [] w'.
Proof.
  intros C E J; unfold tally; cbn [length]; rewrite app_nil_r.
  repeat split; try lia; try assumption; destruct k; discriminate.
Qed.

Lemma tally_trans w w1 w2 new1 new2 :
  tally w new1 w1 -> tally w1 new2 w2 -> tally w (new1 ++ new2) w2.
Proof.
  intros (C1 & F1 & J1 & S1) (C2 & F2 & J2 & S2).
  unfold tally; rewrite length_app, Nat2Z.inj_add.
  split; [rewrite C2, C1, app_assoc; reflexivity|].
  split; [lia|]. split; [lia|].
  intros k c Hk.
  destruct (Nat.lt_ge_cases k (length new1)) as [L|L].
  - rewrite nth_error_app1 in Hk by assumption. apply S1; assumption.
  - rewrite nth_error_app2 in Hk by assumption.
    destruct (S2 _ _ Hk) as [A B]. split; lia.
Qed.

Lemma tally_record_call kind params kwargs w :
  exists c, call_request c = (kind, params, kwargs)
    /\ tally w [c] (record_call kind params kwargs w).
Proof.
  exists {| call_kind := kind; call_params := params;
            call_n_shots := kwargs;
            call_func_evals := func_evals (logger w) + 1;
            call_jac_func_evals := jac_func_evals (logger w) + 1 |}.
  split; [reflexivity|].
  unfold tally; cbn.
  repeat split; try lia;
    destruct k as [|[|k]]; cbn in *; try discriminate;
    match goal with E : Some _ = Some _ |- _ => injection E as <- end;
    cbn; lia.
Qed.

Lemma tallied_ret {A} (a : A) : tallied (@ret F A a).
Proof. intros w; exists []; apply tally_refl. Qed.

Lemma tallied_raise {A} e : tallied (@raise F A e).
Proof. intros w; exists []; apply tally_refl. Qed.

Lemma tallied_lift {A} (r : result A) : tallied (@lift F A r).
Proof. destruct r; [apply tallied_ret | apply tallied_raise]. Qed.

Lemma tallied_bind {A B} (m : @M F A) (k : A -> @M F B) :
  tallied m -> (forall a, tallied (k a)) -> tallied (bind m k).
Proof.
  intros Hm Hk w. unfold bind.
  destruct (Hm w) as [new1 T1].
  destruct (m w) as [[a|e] w1]; cbn [snd] in T1.
  - destruct (Hk a w1) as [new2 T2].
    exists (new1 ++ new2). eapply tally_trans; eassumption.
  - exists new1; exact T1.
Qed.

Lemma tallied_for_each {A S} (xs : list A) (body : A -> S -> @M F S) s :
  (forall x s', tallied (body x s')) -> tallied (for_each xs body s).
Proof.
  intros Hb; revert s; induction xs as [|x xs IH]; intros s; cbn [for_each].
  - apply tallied_ret.
  - apply tallied_bind; [apply Hb | intros; apply IH].
Qed.

Lemma tallied_log_n_shots l : tallied (@log_n_shots F l).
Proof. intros w; exists []; apply tally_quiet; reflexivity. Qed.

Lemma tallied_np_random_choice population size :
  tallied (@np_random_choice F population size).
Proof.
  intros w; exists []; unfold np_random_choice.
  destruct (Nat.ltb _ _); [apply tally_refl|].
  destruct (np_random w); apply tally_quiet; reflexivity.
Qed.

Lemma tallied_np_random_randint_0_2 size :
  tallied (@np_random_randint_0_2 F size).
Proof.
  intros w; exists []; unfold np_random_randint_0_2.
  destruct (np_random w); apply tally_quiet; reflexivity.
Qed.

Lemma tallied_update_and_compute_expectation backend_obj params args n_shots :
  tallied (update_and_compute_expectation backend_obj params args n_shots).
Proof.
  intros w; rewrite update_and_compute_expectation_run; cbn [snd].
  destruct (tally_record_call CallExpectation (update_from_raw params args)
              (n_shots_dict n_shots) w) as (c & _ & T).
  exists [c]; exact T.
Qed.

Lemma tallied_update_and_get_counts backend_obj params args n_shots :
  tallied (update_and_get_counts backend_obj params args n_shots).
Proof.
  intros w; rewrite update_and_get_counts_run; cbn [snd].
  destruct (tally_record_call CallGetCounts (update_from_raw params args)
              (n_shots_dict n_shots) w) as (c & _ & T).
  exists [c]; exact T.
Qed.

Create HintDb tallied.

#[local] Hint Resolve tallied_ret tallied_raise tallied_lift
  tallied_log_n_shots tallied_np_random_choice tallied_np_random_randint_0_2
  tallied_update_and_compute_expectation tallied_update_and_get_counts
  : tallied.

(** One step of a compositional proof that a computation is [tallied]. *)
Ltac tallied_step :=
  lazymatch goal with
  | |- tallied (bind _ _) => apply tallied_bind; [ | intros ]
  | |- tallied (for_each _ _ _) => apply tallied_for_each; intros
  | |- tallied (if ?b then _ else _) => destruct b
  | |- tallied (match ?x with _ => _ end) => destruct x
  | |- tallied _ => solve [ auto with tallied ]
  end.

Ltac tallied_tac := cbv beta zeta; repeat (tallied_step; cbv beta zeta).

Lemma tallied_gradient args backend_obj params variance vect_eta constant
    n_shots :
  tallied (__gradient args backend_obj params variance vect_eta constant
                      n_shots).
Proof.
  unfold __gradient; destruct variance;
    unfold fun_w_variance, fun_expectation; tallied_tac.
Qed.

#[local] Hint Resolve tallied_gradient : tallied.

Lemma tallied_param_shift_step coeffs_list args_ext backend_obj params
    variance n_shots_list i :
  tallied (param_shift_step coeffs_list args_ext
             (__gradient args_ext backend_obj params variance)
             n_shots_list i).
Proof. unfold param_shift_step; tallied_tac. Qed.

#[local] Hint Resolve tallied_param_shift_step : tallied.

Lemma tallied_grad_fd_func backend_obj params eta variance args n_shots :
  tallied (grad_fd_func backend_obj params eta variance args n_shots).
Proof. unfold grad_fd_func; tallied_tac. Qed.

Lemma tallied_grad_ps_func backend_obj params params_ext variance args
    n_shots :
  tallied (grad_ps_func backend_obj params params_ext variance args n_shots).
Proof. unfold grad_ps_func, ps_extended; tallied_tac. Qed.

Lemma tallied_grad_sps_func backend_obj params params_ext n_sample variance
    args n_shots :
  tallied (grad_sps_func backend_obj params params_ext n_sample variance
                         args n_shots).
Proof.
  unfold grad_sps_func, sps_extended, draw_sampled_indices; tallied_tac.
Qed.

Lemma tallied_grad_spsa_func backend_obj params eta variance args n_shots :
  tallied (grad_spsa_func backend_obj params eta variance args n_shots).
Proof. unfold grad_spsa_func; tallied_tac. Qed.

Lemma tallied_hessian_fd_func backend_obj params eta args :
  tallied (hessian_fd_func backend_obj params eta args).
Proof.
  unfold hessian_fd_func, hessian_diagonal, hessian_off_diagonal;
    tallied_tac.
Qed.

(** ** What the factory returns *)

Lemma derivative_gradient_ok backend_obj params params_ext derivative_method
    derivative_options variance w c :
  fst (derivative_gradient backend_obj params params_ext derivative_method
         derivative_options variance w) = Ok c ->
  c = GradientCallable (grad_fd backend_obj params derivative_options variance)
  \/ c = GradientCallable (grad_ps backend_obj params params_ext variance)
  \/ (exists n_sample,
        c = GradientCallable
              (grad_sps_func backend_obj params params_ext n_sample variance))
  \/ c = SpsaCallable
           (grad_spsa backend_obj params derivative_options variance).
Proof.
  unfold derivative_gradient.
  destruct (str_is derivative_method "finite_difference").
  { intros [= <-]; auto. }
  destruct (str_is derivative_method "param_shift").
  { destruct (is_standard params); [intros [= <-]; auto | discriminate]. }
  destruct (str_is derivative_method "stoch_param_shift").
  { destruct (is_standard params); [|discriminate].
    unfold bind, grad_sps.
    destruct (check_n_sample _ _ _) as [n_sample|e]; cbn; [|discriminate].
    intros [= <-]; right; right; left; exists n_sample; reflexivity. }
  destruct (str_is derivative_method "grad_spsa"); [|discriminate].
  intros [= <-]; auto.
Qed.

Lemma derivative_ok backend_obj params derivative_type derivative_method
    derivative_options w c :
  fst (derivative backend_obj params derivative_type derivative_method
                  derivative_options w) = Ok c ->
  (exists variance,
     c = GradientCallable
           (grad_fd backend_obj params (merge_options derivative_options)
                    variance)
     \/ c = GradientCallable
              (grad_ps backend_obj params (extended_params_empty backend_obj)
                       variance)
     \/ (exists n_sample,
           c = GradientCallable
                 (grad_sps_func backend_obj params
                    (extended_params_empty backend_obj) n_sample variance))
     \/ c = SpsaCallable
              (grad_spsa backend_obj params (merge_options derivative_options)
                         variance))
  \/ c = HessianCallable
           (hessian_fd backend_obj params (merge_options derivative_options)).
Proof.
  unfold derivative.
  destruct (negb (str_in derivative_type derivative_types)); [discriminate|].
  destruct (negb (str_in derivative_method derivative_methods));
    [discriminate|].
  destruct (str_is derivative_type "gradient").
  { intros E; left; exists false; eapply derivative_gradient_ok; exact E. }
  destruct (str_is derivative_type "gradient_w_variance").
  { intros E; left; exists true; eapply derivative_gradient_ok; exact E. }
  destruct (str_is derivative_method "finite_difference");
    [intros [= <-]; auto | discriminate].
Qed.

Lemma estimator_call_tallied (m : @M F Output) :
  estimator_call m -> tallied m.
Proof.
  intros [f args n_shots B | f args n_shots B | f args B];
    destruct B as (be & prm & dt & dm & opts & w & E);
    apply derivative_ok in E;
    destruct E as [(variance & [E | [E | [(n_sample & E) | E]]]) | E];
    try discriminate; injection E as ->.
  - apply tallied_grad_fd_func.
  - apply tallied_grad_ps_func.
  - apply tallied_grad_sps_func.
  - apply tallied_grad_spsa_func.
  - apply tallied_hessian_fd_func.
Qed.

Lemma run_all_tally (ms : list (@M F Output)) w :
  Forall estimator_call ms -> exists new, tally w new (run_all ms w).
Proof.
  intros Hms; revert w; induction Hms as [|m ms Hm _ IH]; intros w;
    cbn [run_all].
  - exists []; apply tally_refl.
  - destruct (estimator_call_tallied m Hm w) as [new1 T1].
    destruct (IH (snd (m w))) as [new2 T2].
    exists (new1 ++ new2); eapply tally_trans; eassumption.
Qed.

(** ** Claims on the wrappers *)

(** C8, as amended: each wrapper passes the keyword [n_shots] to the
    backend exactly when the caller's value is an integer other than zero,
    and then passes that very integer; with [None] or with [0] the backend
    call carries no [n_shots] keyword.  The backend is never handed a zero
    or a null shot count. *)
Theorem shots_forwarded_when_nonzero backend_obj params args n_shots w :
  (exists c,
     calls (snd (update_and_compute_expectation backend_obj params args
                                                n_shots w))
     = calls w ++ [c]
     /\ call_request c
        = (CallExpectation, update_from_raw params args, call_n_shots c)
     /\ (forall n, call_n_shots c = Some n <-> n_shots = Some n /\ n <> 0)
     /\ (call_n_shots c = None <-> n_shots = None \/ n_shots = Some 0)
     /\ call_n_shots c <> Some 0)
  /\ (exists c,
        calls (snd (update_and_get_counts backend_obj params args n_shots w))
        = calls w ++ [c]
        /\ call_request c
           = (CallGetCounts, update_from_raw params args, call_n_shots c)
        /\ (forall n, call_n_shots c = Some n <-> n_shots = Some n /\ n <> 0)
        /\ (call_n_shots c = None <-> n_shots = None \/ n_shots = Some 0)
        /\ call_n_shots c <> Some 0).
Proof.
  rewrite update_and_compute_expectation_run, update_and_get_counts_run.
  cbn [snd record_call calls].
  split; (eexists; split; [reflexivity|]; cbn;
          split; [reflexivity|]; split; [|split];
          [ apply n_shots_dict_some
          | apply n_shots_dict_none
          | intros E; apply n_shots_dict_some in E; destruct E as [_ N];
            now apply N ]).
Qed.

(** C9: each wrapper raises [func_evals] and [jac_func_evals] by exactly
    one and only then calls the backend, once; and along any sequence of
    calls of estimators built by [derivative] on one logger, both counters
    grow by the number of backend calls received, the k-th of which sees
    them already raised k+1 times, so that neither counter ever decreases. *)
Theorem counters_count_backend_calls :
  (forall backend_obj params args n_shots w,
     exists c,
       tally w [c]
         (snd (update_and_compute_expectation backend_obj params args
                                              n_shots w))
       /\ call_kind c = CallExpectation)
  /\ (forall backend_obj params args n_shots w,
        exists c,
          tally w [c]
            (snd (update_and_get_counts backend_obj params args n_shots w))
          /\ call_kind c = CallGetCounts)
  /\ (forall (ms : list (@M F Output)) w,
        Forall estimator_call ms ->
        (exists new, tally w new (run_all ms w))
        /\ func_evals (logger w) <= func_evals (logger (run_all ms w))
        /\ jac_func_evals (logger w)
           <= jac_func_evals (logger (run_all ms w))).
Proof.
  split; [|split].
  - intros. rewrite update_and_compute_expectation_run; cbn [snd].
    destruct (tally_record_call CallExpectation (update_from_raw params args)
                (n_shots_dict n_shots) w) as (c & R & T).
    exists c; split; [exact T | now injection R].
  - intros. rewrite update_and_get_counts_run; cbn [snd].
    destruct (tally_record_call CallGetCounts (update_from_raw params args)
                (n_shots_dict n_shots) w) as (c & R & T).
    exists c; split; [exact T | now injection R].
  - intros ms w Hms.
    destruct (run_all_tally ms w Hms) as (new & T).
    split; [exists new; exact T|].
    destruct T as (_ & E & J & _); lia.
Qed.

(** ** Shot allocation *)

Lemma combine_app_same {A B} (x1 x2 : list A) (y1 y2 : list B) :
  length x1 = length y1 ->
  combine (x1 ++ x2) (y1 ++ y2) = combine x1 y1 ++ combine x2 y2.
Proof.
  revert y1; induction x1 as [|a x1 IH]; intros [|b y1] E;
    try discriminate; cbn; [reflexivity|].
  f_equal; apply IH; now injection E.
Qed.

Lemma flat_map_combine_repeat {A} (a n : nat) (row : list A) :
  length row = n ->
  flat_map (fun rs => repeat (snd rs) (fst rs)) (combine (repeat a n) row)
  = flat_map (fun x => repeat x a) row.
Proof.
  intros <-; induction row as [|x row IH]; cbn;
    [reflexivity | now rewrite IH].
Qed.

Lemma flat_map_ext_seq {B} (f g : nat -> list B) start len :
  (forall i, start <= i < start + len -> f i = g i)%nat ->
  flat_map f (seq start len) = flat_map g (seq start len).
Proof.
  revert start; induction len as [|len IH]; intros start E; cbn;
    [reflexivity|].
  rewrite E by lia. f_equal. apply IH; intros; apply E; lia.
Qed.

Lemma flat_map_nth_seq {A B} (f : A -> list B) (row : list A) d :
  flat_map f row = flat_map (fun i => f (nth i row d)) (seq 0 (length row)).
Proof.
  induction row as [|x row IH]; cbn [flat_map length seq]; [reflexivity|].
  cbn [nth]. f_equal. rewrite IH at 1. rewrite <- seq_shift.
  rewrite !flat_map_concat_map, map_map. reflexivity.
Qed.

Lemma length_flat_map_repeat_seq {A} (g : nat -> A) a start len :
  length (flat_map (fun layer => repeat (g layer) a) (seq start len))
  = list_sum (repeat a len).
Proof.
  revert start; induction len as [|len IH]; intros start;
    cbn [seq flat_map repeat list_sum]; [reflexivity|].
  rewrite length_app, repeat_length, IH; reflexivity.
Qed.

(** C6: for a single integer or an absent value the allocator returns that
    value [n] times; a list of length [n] is returned unchanged and a list
    of another length makes the call fail; the extended allocator turns a
    standard list of length [2p] into one entry per extended parameter,
    each (family, layer) group of gates receiving the shot count of its
    standard parameter, in the order mixer-1q, mixer-2q, cost-1q, cost-2q
    over the layers. *)
Theorem shot_broadcasting :
  (forall n v,
     __create_n_shots_list n (ShotsScalar v) = Ok (repeat v n)
     /\ length (repeat v n) = n)
  /\ (forall n l, length l = n -> __create_n_shots_list n (ShotsList l) = Ok l)
  /\ (forall n l, length l <> n ->
        exists msg,
          __create_n_shots_list n (ShotsList l) = Raise (AssertionError msg))
  /\ (forall p a b c d l,
        length l = (2 * p)%nat ->
        __create_n_shots_ext_list (2 * p) (np_repeat [a; b; c; d] p)
                                  (ShotsList l)
        = Ok (broadcast_extended_spec p [a; b; c; d] l)
        /\ length (broadcast_extended_spec p [a; b; c; d] l)
           = list_sum (np_repeat [a; b; c; d] p))
  /\ (forall n sizes l, length l <> n ->
        exists msg,
          __create_n_shots_ext_list n sizes (ShotsList l)
          = Raise (AssertionError msg)).
Proof.
  split; [|split; [|split; [|split]]].
  - intros n v; split; [reflexivity | apply repeat_length].
  - intros n l <-; cbn. now rewrite Nat.eqb_refl.
  - intros n l N; cbn.
    destruct (Nat.eqb_spec (length l) n); [contradiction|].
    eexists; reflexivity.
  - intros p a b c d l L.
    assert (E : __create_n_shots_ext_list (2 * p) (np_repeat [a; b; c; d] p)
                  (ShotsList l)
                = Ok (broadcast_extended_spec p [a; b; c; d] l)).
    { unfold __create_n_shots_ext_list, repeat_rows_twice.
      rewrite L, Nat.eqb_refl.
      replace (Nat.div (2 * p) 2) with p
        by (rewrite Nat.mul_comm, Nat.div_mul; [reflexivity | discriminate]).
      rewrite Nat.eqb_refl. f_equal.
      assert (L0 : length (firstn p l) = p)
        by (rewrite length_firstn; lia).
      assert (L1 : length (skipn p l) = p)
        by (rewrite length_skipn; lia).
      unfold np_repeat, broadcast_extended_spec, range.
      cbn [flat_map seq nth Nat.div Nat.divmod fst].
      rewrite !app_nil_r.
      rewrite !combine_app_same by (rewrite repeat_length; congruence).
      rewrite !flat_map_app.
      rewrite !flat_map_combine_repeat by assumption.
      rewrite !(flat_map_nth_seq _ (firstn p l) None),
              !(flat_map_nth_seq _ (skipn p l) None), L0, L1.
      f_equal; [|f_equal; [|f_equal]].
      all: apply flat_map_ext_seq; intros i Hi; cbn [Nat.mul Nat.add].
      all: rewrite ?nth_firstn, ?nth_skipn.
      all: try (destruct (Nat.ltb_spec i p); [|lia]).
      all: rewrite ?Nat.add_0_r; reflexivity. }
    split; [exact E|].
    unfold broadcast_extended_spec, np_repeat, range.
    cbn [flat_map seq nth].
    rewrite !app_nil_r, !length_app, !list_sum_app,
      !length_flat_map_repeat_seq.
    reflexivity.
  - intros n sizes l N; cbn.
    destruct (Nat.eqb_spec (length l) n); [contradiction|].
    eexists; reflexivity.
Qed.

(** ** Validation *)

Lemma str_is_false x name : x <> Some name -> str_is x name = false.
Proof.
  destruct x as [s|]; cbn; [|reflexivity].
  intros N; apply String.eqb_neq; congruence.
Qed.

Lemma check_n_sample_out_of_range x0 x1 x2 x3 y0 y1 y2 y3 :
  out_of_range x0 y0 \/ out_of_range x1 y1 \/ out_of_range x2 y2
  \/ out_of_range x3 y3 ->
  exists msg,
    check_n_sample names_params [x0; x1; x2; x3] [y0; y1; y2; y3]
    = Raise (AssertionError msg).
Proof.
  unfold out_of_range, names_params; intros Hout; cbn [check_n_sample].
  repeat match goal with
  | |- context [Z.leb ?a ?b] => destruct (Z.leb_spec a b)
  end; cbn [andb rbind]; try (eexists; reflexivity); lia.
Qed.

Lemma derivative_gradient_type_run backend_obj params derivative_type
    derivative_method derivative_options w :
  is_gradient_type derivative_type ->
  str_in derivative_method derivative_methods = true ->
  exists variance,
    derivative backend_obj params derivative_type derivative_method
               derivative_options w
    = derivative_gradient backend_obj params
        (extended_params_empty backend_obj) derivative_method
        (merge_options derivative_options) variance w.
Proof.
  intros [-> | ->] Hm; unfold derivative; rewrite Hm; cbn;
    [exists false | exists true]; reflexivity.
Qed.

(** C5: each documented validation failure raises, and leaves the world as
    it was: the backend has received no call and both evaluation counters
    are unchanged. *)
Theorem validation_precedes_backend (A : Type) (m : @M F A) :
  validation_failure m ->
  forall w,
    (exists e, m w = (Raise e, w))
    /\ calls (snd (m w)) = calls w
    /\ func_evals (logger (snd (m w))) = func_evals (logger w)
    /\ jac_func_evals (logger (snd (m w))) = jac_func_evals (logger w).
Proof.
  intros V w.
  enough (E : exists e, m w = (Raise e, w)).
  { split; [exact E|]. destruct E as [e ->]; cbn; auto. }
  destruct V as
    [ be prm dt dm opts Ht | be prm dt dm opts Hm | be prm dm opts Hm
    | be prm dt dm opts Ht Hm Hc | be prm dt opts Ht Hc Hout
    | be prm eta variance args l Hl | be prm prm_ext variance args l Hl
    | be prm prm_ext n_sample variance args l Hl ].
  - unfold derivative; rewrite Ht; cbn; eexists; reflexivity.
  - unfold derivative.
    destruct (negb (str_in dt derivative_types)); [eexists; reflexivity|].
    rewrite Hm; cbn; eexists; reflexivity.
  - unfold derivative; cbn.
    destruct (negb (str_in dm derivative_methods)); [eexists; reflexivity|].
    rewrite (str_is_false dm _ Hm); eexists; reflexivity.
  - assert (Hin : str_in dm derivative_methods = true)
      by (destruct Hm as [-> | ->]; reflexivity).
    destruct (derivative_gradient_type_run be prm dt dm opts w Ht Hin)
      as [variance ->].
    unfold derivative_gradient, is_standard.
    apply String.eqb_neq in Hc; rewrite Hc.
    destruct Hm as [-> | ->]; cbn; eexists; reflexivity.
  - destruct (derivative_gradient_type_run be prm dt
                (Some "stoch_param_shift"%string) opts w Ht eq_refl)
      as [variance ->].
    unfold derivative_gradient, is_standard; rewrite Hc; cbn.
    unfold bind, grad_sps, family_sizes.
    destruct (check_n_sample_out_of_range _ _ _ _ _ _ _ _ Hout) as [msg ->].
    cbn; eexists; reflexivity.
  - unfold grad_fd_func, bind; cbn.
    destruct (Nat.eqb_spec (length l) (length args)); [contradiction|].
    cbn; eexists; reflexivity.
  - unfold grad_ps_func, bind; destruct variance; cbn;
      destruct (Nat.eqb_spec (length l) (length args)); try contradiction;
      cbn; eexists; reflexivity.
  - unfold grad_sps_func, bind; destruct variance; cbn;
      destruct (Nat.eqb_spec (length l) (length args)); try contradiction;
      cbn; eexists; reflexivity.
Qed.

(** ** Loops that only assign *)

Lemma for_each_pure {A S} (xs : list A) (body : A -> S -> @M F S)
    (f : A -> S -> S) (g : A -> @World F -> @World F) :
  (forall x s w, In x xs -> body x s w = (Ok (f x s), g x w)) ->
  forall s w,
    for_each xs body s w
    = (Ok (fold_left (fun s x => f x s) xs s),
       fold_left (fun w x => g x w) xs w).
Proof.
  induction xs as [|x xs IH]; intros Hb s w; cbn [for_each fold_left].
  - reflexivity.
  - rewrite (bind_ok _ _ _ _ _ (Hb x s w (or_introl eq_refl))).
    apply IH; intros; apply Hb; now right.
Qed.

Lemma calls_fold_left {A} (g : A -> @World F -> @World F)
    (requests : A -> list (CallKind * @QAOAParams F * option Z)) xs :
  (forall x w, In x xs ->
     map call_request (calls (g x w))
     = map call_request (calls w) ++ requests x) ->
  forall w,
    map call_request (calls (fold_left (fun w x => g x w) xs w))
    = map call_request (calls w) ++ flat_map requests xs.
Proof.
  induction xs as [|x xs IH]; intros Hg w; cbn [fold_left flat_map].
  - now rewrite app_nil_r.
  - rewrite IH by (intros; apply Hg; now right).
    rewrite Hg by now left. now rewrite app_assoc.
Qed.

Lemma fold_left_pair {A S T} (f : A -> S -> S) (g : A -> T -> T) xs s t :
  fold_left (fun st x => (f x (fst st), g x (snd st))) xs (s, t)
  = (fold_left (fun s x => f x s) xs s, fold_left (fun t x => g x t) xs t).
Proof.
  revert s t; induction xs as [|x xs IH]; intros s t; cbn; [reflexivity|].
  apply IH.
Qed.

(** A fold of point updates holds, at every updated point, the value
    written there. *)
Section PointUpdates.

Context {S K V : Type}.
Variable upd : S -> K -> V -> S.
Variable get : S -> K -> option V.
Variable valid : S -> K -> Prop.
Variable e : K -> V.
Hypothesis K_dec : forall a b : K, {a = b} + {a <> b}.
Hypothesis valid_upd : forall s k v k', valid s k' -> valid (upd s k v) k'.
Hypothesis get_upd_same : forall s k v, valid s k -> get (upd s k v) k = Some v.
Hypothesis get_upd_other :
  forall s k v k', k' <> k -> get (upd s k v) k' = get s k'.

Lemma fold_upd_valid ks s k :
  valid s k -> valid (fold_left (fun s k => upd s k (e k)) ks s) k.
Proof.
  revert s; induction ks as [|k0 ks IH]; intros s Hv; cbn; [exact Hv|].
  apply IH, valid_upd, Hv.
Qed.

Lemma fold_upd_get ks s k :
  In k ks -> valid s k ->
  get (fold_left (fun s k => upd s k (e k)) ks s) k = Some (e k).
Proof.
  induction ks as [|k0 ks IH] using rev_ind; intros Hin Hv; [destruct Hin|].
  rewrite fold_left_app; cbn [fold_left].
  destruct (K_dec k k0) as [<- | N].
  - apply get_upd_same, fold_upd_valid, Hv.
  - rewrite get_upd_other by exact N.
    apply IH; [|exact Hv].
    apply in_app_or in Hin; destruct Hin as [Hin | [E | []]];
      [exact Hin | congruence].
Qed.

End PointUpdates.

Lemma length_set_item {A} (v : list A) i x :
  length (set_item v i x) = length v.
Proof.
  revert i; induction v as [|h v IH]; intros [|i]; cbn; auto.
Qed.

Lemma nth_error_set_item_same {A} (v : list A) i x :
  (i < length v)%nat -> nth_error (set_item v i x) i = Some x.
Proof.
  revert i; induction v as [|h v IH]; intros [|i] L; cbn in *;
    try lia; [reflexivity | apply IH; lia].
Qed.

Lemma nth_error_set_item_other {A} (v : list A) i x j :
  j <> i -> nth_error (set_item v i x) j = nth_error v j.
Proof.
  revert i j; induction v as [|h v IH]; intros [|i] [|j] N; cbn;
    try reflexivity; try contradiction.
  apply IH; congruence.
Qed.

Lemma nth_set_item_same {A} (v : list A) i x d :
  (i < length v)%nat -> nth i (set_item v i x) d = x.
Proof.
  intros L; apply nth_error_nth, nth_error_set_item_same, L.
Qed.

Lemma nth_set_item_other {A} (v : list A) i x j d :
  j <> i -> nth j (set_item v i x) d = nth j v d.
Proof.
  revert i j; induction v as [|h v IH]; intros [|i] [|j] N; cbn;
    try reflexivity; try contradiction.
  apply IH; congruence.
Qed.

Lemma fold_set_item_get {A} (e : nat -> A) ks v k :
  In k ks -> (k < length v)%nat ->
  nth_error (fold_left (fun v k => set_item v k (e k)) ks v) k = Some (e k).
Proof.
  apply (fold_upd_get (@set_item A) (@nth_error A)
           (fun v k => (k < length v)%nat) e Nat.eq_dec).
  - intros; now rewrite length_set_item.
  - intros; now apply nth_error_set_item_same.
  - intros; now apply nth_error_set_item_other.
Qed.

Lemma fold_set_item_length {A} (e : nat -> A) ks v :
  length (fold_left (fun v k => set_item v k (e k)) ks v) = length v.
Proof.
  revert v; induction ks as [|k ks IH]; intros v; cbn; [reflexivity|].
  now rewrite IH, length_set_item.
Qed.

Lemma get_item_nth {A} (v : list A) i d :
  (i < length v)%nat -> get_item v i = Ok (nth i v d).
Proof.
  intros L; unfold get_item. now rewrite (nth_error_nth' v d L).
Qed.

Lemma length_np_zeros n : length (@np_zeros F _ n) = n.
Proof. apply repeat_length. Qed.

(** ** Parameter shift in expectation mode *)

Lemma fun_expectation_run args backend_obj params vect_eta constant n_shots w :
  fun_expectation args backend_obj params vect_eta constant n_shots w
  = (Ok (fmul constant
           (fsub (expectation backend_obj
                    (update_from_raw params (vadd args vect_eta))
                    (n_shots_dict n_shots))
                 (expectation backend_obj
                    (update_from_raw params (vsub args vect_eta))
                    (n_shots_dict n_shots))),
         of_Z 0),
     record_call CallExpectation (update_from_raw params (vsub args vect_eta))
       (n_shots_dict n_shots)
       (record_call CallExpectation
          (update_from_raw params (vadd args vect_eta))
          (n_shots_dict n_shots) w)).
Proof. reflexivity. Qed.

Lemma param_shift_step_run backend_obj params_ext coeffs_list args_ext
    n_shots_list i w :
  (i < length coeffs_list)%nat ->
  (i < length n_shots_list)%nat ->
  fis_zero (fmul (of_Z 4) (nth i coeffs_list (of_Z 0))) = false ->
  param_shift_step coeffs_list args_ext
    (__gradient args_ext backend_obj params_ext false) n_shots_list i w
  = (Ok (shift_estimate backend_obj params_ext coeffs_list args_ext
                        n_shots_list i, of_Z 0),
     let eta := shift_vector coeffs_list (length args_ext) i in
     let kwargs := n_shots_dict (nth i n_shots_list None) in
     record_call CallExpectation
       (update_from_raw params_ext (vsub args_ext eta)) kwargs
       (record_call CallExpectation
          (update_from_raw params_ext (vadd args_ext eta)) kwargs w)).
Proof.
  intros Lc Ls Z0. unfold param_shift_step.
  rewrite (bind_ok _ _ _ _ _
             (lift_ok _ _ _ (get_item_nth coeffs_list i (of_Z 0) Lc))).
  unfold py_div; rewrite Z0.
  rewrite (bind_ok _ _ _ _ _ (lift_ok _ _ _ eq_refl)).
  rewrite (bind_ok _ _ _ _ _
             (lift_ok _ _ _ (get_item_nth n_shots_list i None Ls))).
  reflexivity.
Qed.

(** C2: in expectation mode the loop of [grad_ps_func] gives every extended
    parameter [i] the estimate [r_i * (E(theta + eta) - E(theta - eta))],
    where [eta] is [pi / (4 r_i)] in slot [i] and zero elsewhere, and asks
    the backend for exactly these two expectations, in this order, for each
    extended parameter; [grad_ps_func] returns the conversion of these
    estimates to the standard form. *)
Theorem parameter_shift_rule backend_obj params params_ext args n_shots
    n_shots_list w :
  let coeffs_list := coeffs_list_of params in
  let args_ext := convert_to_ext params args in
  let l := group_bounds (np_repeat (family_sizes params) (p params)) in
  __create_n_shots_ext_list (length args)
    (np_repeat (family_sizes params) (p params)) n_shots = Ok n_shots_list ->
  (length args_ext <= length coeffs_list)%nat ->
  (length args_ext <= length n_shots_list)%nat ->
  (forall i, (i < length args_ext)%nat ->
     fis_zero (fmul (of_Z 4) (nth i coeffs_list (of_Z 0))) = false) ->
  exists grad_ext var_ext w',
    ps_extended coeffs_list args_ext
      (__gradient args_ext backend_obj params_ext false) n_shots_list w
    = (Ok (grad_ext, var_ext), w')
    /\ length grad_ext = length args_ext
    /\ (forall i, (i < length args_ext)%nat ->
          nth_error grad_ext i
          = Some (shift_estimate backend_obj params_ext coeffs_list args_ext
                                 n_shots_list i))
    /\ map call_request (calls w')
       = map call_request (calls w)
         ++ flat_map (shift_requests params_ext coeffs_list args_ext
                                     n_shots_list)
                     (range (length args_ext))
    /\ grad_ps_func backend_obj params params_ext false args n_shots w
       = (rbind (ext_to_std l (p params) grad_ext) (fun grad =>
          rbind (ext_to_std l (p params) var_ext) (fun _ =>
          Ok (Grad grad))),
          w').
Proof.
  intros coeffs_list args_ext l Hshots Lc Ls Hz.
  set (f := fun (i : nat) (gv : list F * list F) =>
              (set_item (fst gv) i
                 (shift_estimate backend_obj params_ext coeffs_list args_ext
                                 n_shots_list i),
               set_item (snd gv) i (of_Z 0))).
  set (g := fun (i : nat) (w : @World F) =>
              let eta := shift_vector coeffs_list (length args_ext) i in
              let kwargs := n_shots_dict (nth i n_shots_list None) in
              record_call CallExpectation
                (update_from_raw params_ext (vsub args_ext eta)) kwargs
                (record_call CallExpectation
                   (update_from_raw params_ext (vadd args_ext eta)) kwargs w)).
  assert (Hloop :
    ps_extended coeffs_list args_ext
      (__gradient args_ext backend_obj params_ext false) n_shots_list w
    = (Ok (fold_left (fun s x => f x s) (range (length args_ext))
             (np_zeros (length args_ext), np_zeros (length args_ext))),
       fold_left (fun w x => g x w) (range (length args_ext)) w)).
  { unfold ps_extended. apply for_each_pure.
    intros i gv w0 Hi. apply in_seq in Hi.
    erewrite bind_ok
      by (apply param_shift_step_run; [lia | lia | apply Hz; lia]).
    reflexivity. }
  pose proof
    (fold_left_pair
       (fun i gr =>
          set_item gr i
            (shift_estimate backend_obj params_ext coeffs_list args_ext
                            n_shots_list i))
       (fun i va => set_item va i (of_Z 0))
       (range (length args_ext))
       (np_zeros (length args_ext)) (np_zeros (length args_ext))) as P.
  cbv beta in P. unfold f in Hloop at 1. rewrite P in Hloop. clear P.
  do 3 eexists. split; [exact Hloop|].
  split; [now rewrite fold_set_item_length, length_np_zeros|].
  split.
  { intros i Hi.
    apply fold_set_item_get with
      (e := shift_estimate backend_obj params_ext coeffs_list args_ext
                           n_shots_list).
    - apply in_seq; lia.
    - now rewrite length_np_zeros. }
  split.
  { apply calls_fold_left. intros i w0 _. unfold g, shift_requests; cbn.
    rewrite !map_app, <- app_assoc. reflexivity. }
  unfold grad_ps_func. cbn [bind].
  fold coeffs_list args_ext l.
  unfold bind at 1. cbn [ret].
  rewrite (bind_ok _ _ _ _ _ (lift_ok _ _ _ Hshots)).
  rewrite (bind_ok _ _ _ _ _ Hloop).
  cbn [fst snd].
  unfold bind, lift.
  destruct (ext_to_std l (p params) _) as [grad|e]; cbn; [|reflexivity].
  destruct (ext_to_std l (p params) _) as [var|e]; cbn; reflexivity.
Qed.

(** ** The Hessian *)

Lemma set_item_beyond {A} (v : list A) i x :
  (length v <= i)%nat -> set_item v i x = v.
Proof.
  revert i; induction v as [|h v IH]; intros [|i] L; cbn in *;
    try reflexivity; try lia.
  f_equal; apply IH; lia.
Qed.

Lemma fold_left_map {A B S} (u : S -> B -> S) (m : A -> B) xs s :
  fold_left u (map m xs) s = fold_left (fun s x => u s (m x)) xs s.
Proof. revert s; induction xs as [|x xs IH]; intros s; cbn; auto. Qed.

Lemma fold_left_list_prod {A B S} (u : S -> A * B -> S) xs ys s :
  fold_left (fun s x => fold_left (fun s y => u s (x, y)) ys s) xs s
  = fold_left u (list_prod xs ys) s.
Proof.
  revert s; induction xs as [|x xs IH]; intros s; cbn [fold_left list_prod];
    [reflexivity|].
  now rewrite fold_left_app, fold_left_map, IH.
Qed.

Lemma set_item2_valid hess k x k' :
  entry_valid hess k' ->
  entry_valid (set_item2 hess (fst k) (snd k) x) k'.
Proof.
  destruct k as [i j], k' as [i' j']; unfold entry_valid, set_item2; cbn.
  intros [Li Lj]; rewrite length_set_item; split; [exact Li|].
  destruct (Nat.eq_dec i' i) as [-> | N].
  - rewrite nth_set_item_same by exact Li. now rewrite length_set_item.
  - now rewrite nth_set_item_other.
Qed.

Lemma set_item2_same hess k x :
  entry_valid hess k ->
  nth_error (nth (fst k) (set_item2 hess (fst k) (snd k) x) []) (snd k)
  = Some x.
Proof.
  destruct k as [i j]; unfold entry_valid, set_item2; cbn; intros [Li Lj].
  rewrite nth_set_item_same by exact Li.
  now apply nth_error_set_item_same.
Qed.

Lemma set_item2_other hess k x k' :
  k' <> k ->
  nth_error (nth (fst k') (set_item2 hess (fst k) (snd k) x) []) (snd k')
  = nth_error (nth (fst k') hess []) (snd k').
Proof.
  destruct k as [i j], k' as [i' j']; unfold set_item2; cbn; intros N.
  destruct (Nat.eq_dec i' i) as [-> | Ni].
  - destruct (Nat.lt_ge_cases i (length hess)) as [L | L].
    + rewrite nth_set_item_same by exact L.
      apply nth_error_set_item_other; congruence.
    + now rewrite set_item_beyond.
  - now rewrite nth_set_item_other.
Qed.

Lemma pair_eq_dec (a b : nat * nat) : {a = b} + {a <> b}.
Proof. decide equality; apply Nat.eq_dec. Qed.

Lemma for_each_values {A S} (xs : list A) (body : A -> S -> @M F S)
    (f : A -> S -> S) :
  (forall x s w, In x xs -> fst (body x s w) = Ok (f x s)) ->
  forall s w,
    fst (for_each xs body s w) = Ok (fold_left (fun s x => f x s) xs s).
Proof.
  induction xs as [|x xs IH]; intros Hb s w; cbn [for_each fold_left].
  - reflexivity.
  - unfold bind. pose proof (Hb x s w (or_introl eq_refl)) as E.
    destruct (body x s w) as [[s1|e] w1]; cbn [fst] in E; [|discriminate].
    injection E as ->. apply IH; intros; apply Hb; now right.
Qed.

Lemma hessian_entry_run backend_obj params eta args i j hess w :
  fst ((if Nat.eqb i j then
          x <- hessian_diagonal backend_obj params eta args
                 (set_item (np_zeros (length args)) i (of_Z 1)) ;;
          ret (set_item2 hess i i x)
        else
          x <- hessian_off_diagonal backend_obj params eta args
                 (set_item (np_zeros (length args)) i (of_Z 1))
                 (set_item (np_zeros (length args)) j (of_Z 1)) ;;
          ret (set_item2 hess i j x)) w)
  = Ok (set_item2 hess i j
          (hessian_stencil backend_obj params eta args i j)).
Proof.
  unfold hessian_stencil.
  destruct (Nat.eqb_spec i j) as [<- | N]; reflexivity.
Qed.

(** C7: the finite-difference Hessian returns a matrix whose entry (i, j)
    is the 5-point central stencil over [12 eta^2] on the diagonal and the
    4-point mixed stencil over [4 eta^2] off the diagonal, [f] being the
    backend expectation. *)
Theorem hessian_stencils backend_obj params eta args w :
  exists hess w',
    hessian_fd_func backend_obj params eta args w = (Ok (Hess hess), w')
    /\ length hess = length args
    /\ forall i j, (i < length args)%nat -> (j < length args)%nat ->
         nth_error (nth i hess []) j
         = Some (hessian_stencil backend_obj params eta args i j).
Proof.
  set (n := length args).
  set (st := fun k : nat * nat =>
               hessian_stencil backend_obj params eta args (fst k) (snd k)).
  set (u := fun (h : list (list F)) (k : nat * nat) =>
              set_item2 h (fst k) (snd k) (st k)).
  assert (Hloop :
    fst (for_each (range n)
      (fun i hess =>
         for_each (range n)
           (fun j hess =>
              let vect_eta1 := set_item (np_zeros n) i (of_Z 1) in
              let vect_eta2 := set_item (np_zeros n) j (of_Z 1) in
              if Nat.eqb i j then
                x <- hessian_diagonal backend_obj params eta args vect_eta1 ;;
                ret (set_item2 hess i i x)
              else
                x <- hessian_off_diagonal backend_obj params eta args
                       vect_eta1 vect_eta2 ;;
                ret (set_item2 hess i j x))
           hess)
      (repeat (np_zeros n) n) w)
    = Ok (fold_left u (list_prod (range n) (range n))
                    (repeat (np_zeros n) n))).
  { rewrite <- fold_left_list_prod.
    apply (for_each_values (range n) _
             (fun i h => fold_left (fun h j => u h (i, j)) (range n) h)).
    intros i h w0 _.
    apply (for_each_values (range n) _ (fun j h => u h (i, j))).
    intros j h' w1 _. cbv zeta. apply hessian_entry_run. }
  unfold hessian_fd_func; fold n.
  unfold bind at 1.
  destruct (for_each (range n) _ (repeat (np_zeros n) n) w) as [r w1].
  cbn [fst] in Hloop; subst r.
  do 2 eexists; split; [reflexivity|].
  assert (Hvalid : forall i j, (i < n)%nat -> (j < n)%nat ->
            entry_valid (repeat (np_zeros n) n) (i, j)).
  { intros i j Hi Hj; unfold entry_valid; cbn [fst snd].
    rewrite repeat_length; split; [exact Hi|].
    rewrite (nth_error_nth _ _ _ (nth_error_repeat (np_zeros n) Hi)).
    now rewrite length_np_zeros. }
  split.
  { clear Hvalid. generalize (list_prod (range n) (range n)).
    generalize (repeat_length (np_zeros n) n).
    generalize (repeat (np_zeros n) n) as h.
    intros h Hh ks; revert h Hh; induction ks as [|k ks IH]; intros h Hh;
      cbn [fold_left]; [exact Hh|].
    apply IH. unfold u, set_item2. now rewrite length_set_item. }
  intros i j Hi Hj.
  change (hessian_stencil backend_obj params eta args i j) with (st (i, j)).
  apply (fold_upd_get
           (fun h k x => set_item2 h (fst k) (snd k) x)
           (fun h k => nth_error (nth (fst k) h []) (snd k))
           entry_valid st pair_eq_dec
           set_item2_valid set_item2_same set_item2_other
           (list_prod (range n) (range n)) (repeat (np_zeros n) n) (i, j)).
  - apply in_prod; apply in_seq; lia.
  - now apply Hvalid.
Qed.

(** ** The kernel in counts mode *)

Lemma length_shot_costs backend_obj (counts : Counts) :
  length (shot_costs backend_obj counts) = count_total counts.
Proof.
  unfold shot_costs, count_total.
  induction counts as [|[key value] counts IH]; cbn; [reflexivity|].
  now rewrite length_app, repeat_length, IH.
Qed.

Lemma length_map2 {A B C} (f : A -> B -> C) u v :
  length u = length v -> length (map2 f u v) = length u.
Proof.
  revert v; induction u as [|a u IH]; intros [|b v] E; cbn in *;
    try discriminate; [reflexivity|].
  f_equal; apply IH; now injection E.
Qed.

Lemma np_subtract_same (u v : list F) :
  length u = length v -> np_subtract u v = Ok (map2 fsub u v).
Proof. intros E; unfold np_subtract; rewrite E, Nat.eqb_refl; reflexivity. Qed.

Lemma np_subtract_raise (u v : list F) :
  length u <> length v -> length u <> 1%nat -> length v <> 1%nat ->
  exists msg, np_subtract u v = Raise (ValueError msg).
Proof.
  intros N Nu Nv; unfold np_subtract.
  destruct (Nat.eqb_spec (length u) (length v)); [contradiction|].
  destruct u as [|a [|a' u]], v as [|b [|b' v]]; cbn in *;
    try contradiction; eexists; reflexivity.
Qed.

Lemma np_subtract_broadcast (u v : list F) :
  length u = 1%nat \/ length v = 1%nat ->
  exists d, np_subtract u v = Ok d
            /\ (length u = 1%nat -> length d = length v)
            /\ (length v = 1%nat -> length d = length u).
Proof.
  intros E; unfold np_subtract.
  destruct (Nat.eqb_spec (length u) (length v)) as [L | L].
  - eexists; split; [reflexivity|]. rewrite length_map2 by exact L.
    repeat split; lia.
  - destruct u as [|a [|a' u]], v as [|b [|b' v]]; cbn [length] in *;
      try lia; eexists; (split; [reflexivity|]);
      rewrite ?length_map; cbn [length]; repeat split; lia.
Qed.

Lemma np_subtract_one_left (u v : list F) d :
  length u = 1%nat ->
  np_subtract u v = Ok (map (fun b => fsub (nth 0 u d) b) v).
Proof.
  intros L; unfold np_subtract.
  destruct u as [|a [|a' u]]; try discriminate L. cbn [nth length].
  destruct v as [|b [|b' v]]; reflexivity.
Qed.

Lemma np_subtract_one_right (u v : list F) d :
  length v = 1%nat ->
  np_subtract u v = Ok (map (fun a => fsub a (nth 0 v d)) u).
Proof.
  intros L; unfold np_subtract.
  destruct v as [|b [|b' v]]; try discriminate L. cbn [nth length].
  destruct u as [|a [|a' u]]; reflexivity.
Qed.

(** C10, as amended: the kernel subtracts the per-shot cost lists of the
    two histograms.  With equal totals it returns the mean and variance of
    the elementwise differences; with different totals, neither of which is
    one, it raises after the two backend calls; and when one histogram holds
    a single shot, the samples are that shot's cost against the cost of
    every shot of the other histogram ([constant * (c_f - c_i[k])] for
    every backward shot [k] when the forward histogram holds the single
    shot, [constant * (c_f[k] - c_i)] for every forward shot [k] when the
    backward one does), and the kernel returns their mean and variance,
    over as many samples as the other histogram has shots. *)
Theorem kernel_shot_totals backend_obj params args vect_eta constant n_shots
    w :
  let kwargs := n_shots_dict n_shots in
  let params_i := update_from_raw params (vsub args vect_eta) in
  let params_f := update_from_raw params (vadd args vect_eta) in
  let eval_i_list := shot_costs backend_obj
                       (get_counts backend_obj params_i kwargs) in
  let eval_f_list := shot_costs backend_obj
                       (get_counts backend_obj params_f kwargs) in
  let total_i := count_total (get_counts backend_obj params_i kwargs) in
  let total_f := count_total (get_counts backend_obj params_f kwargs) in
  let w' := record_call CallGetCounts params_f kwargs
              (record_call CallGetCounts params_i kwargs w) in
  (length eval_i_list = total_i /\ length eval_f_list = total_f)
  /\ (total_f = total_i ->
      let grad_list := map (fun d => np_real (fmul constant d))
                           (map2 fsub eval_f_list eval_i_list) in
      fun_w_variance args backend_obj params vect_eta constant n_shots w
      = (Ok (np_mean grad_list, np_var grad_list), w')
      /\ length grad_list = total_i)
  /\ (total_f <> total_i -> total_f <> 1%nat -> total_i <> 1%nat ->
      exists msg,
        fun_w_variance args backend_obj params vect_eta constant n_shots w
        = (Raise (ValueError msg), w'))
  /\ (total_f = 1%nat ->
      let cost_f := nth 0 eval_f_list (of_Z 0) in
      let grad_list :=
        map (fun cost_i => np_real (fmul constant (fsub cost_f cost_i)))
            eval_i_list in
      fun_w_variance args backend_obj params vect_eta constant n_shots w
      = (Ok (np_mean grad_list, np_var grad_list), w')
      /\ length grad_list = total_i)
  /\ (total_i = 1%nat ->
      let cost_i := nth 0 eval_i_list (of_Z 0) in
      let grad_list :=
        map (fun cost_f => np_real (fmul constant (fsub cost_f cost_i)))
            eval_f_list in
      fun_w_variance args backend_obj params vect_eta constant n_shots w
      = (Ok (np_mean grad_list, np_var grad_list), w')
      /\ length grad_list = total_f).
Proof.
  intros kwargs params_i params_f eval_i_list eval_f_list total_i total_f w'.
  assert (Li : length eval_i_list = total_i) by apply length_shot_costs.
  assert (Lf : length eval_f_list = total_f) by apply length_shot_costs.
  assert (Hkernel :
    fun_w_variance args backend_obj params vect_eta constant n_shots w
    = bind (lift (np_subtract eval_f_list eval_i_list))
        (fun diff =>
           let grad_list := map (fun d => np_real (fmul constant d)) diff in
           ret (np_mean grad_list, np_var grad_list)) w') by reflexivity.
  split; [split; assumption|]. split; [|split; [|split]].
  - intros E. rewrite Hkernel.
    rewrite np_subtract_same by congruence. cbn.
    split; [reflexivity|].
    rewrite length_map, length_map2 by congruence. congruence.
  - intros N Nf Ni. rewrite Hkernel.
    destruct (np_subtract_raise eval_f_list eval_i_list) as [msg ->];
      try congruence.
    eexists; reflexivity.
  - intros E cost_f grad_list. rewrite Hkernel.
    rewrite (np_subtract_one_left eval_f_list eval_i_list (of_Z 0))
      by congruence.
    unfold grad_list, cost_f. cbn [lift bind ret]. rewrite map_map.
    split; [reflexivity|]. now rewrite length_map.
  - intros E cost_i grad_list. rewrite Hkernel.
    rewrite (np_subtract_one_right eval_f_list eval_i_list (of_Z 0))
      by congruence.
    unfold grad_list, cost_i. cbn [lift bind ret]. rewrite map_map.
    split; [reflexivity|]. now rewrite length_map.
Qed.

(** ** Inversion of runs *)

Lemma bind_inv {A B} (m : @M F A) (k : A -> @M F B) w b w' :
  bind m k w = (Ok b, w') ->
  exists a w1, m w = (Ok a, w1) /\ k a w1 = (Ok b, w').
Proof.
  unfold bind; destruct (m w) as [[a|e] w1]; [|discriminate].
  intros E; exists a, w1; auto.
Qed.

Lemma lift_inv {A} (r : result A) w a w' :
  lift r w = (Ok a, w') -> r = Ok a /\ w' = w.
Proof. destruct r; cbn; [intros [= -> ->]; auto | discriminate]. Qed.

Lemma ret_inv {A} (a b : A) w w' :
  @ret F A a w = (Ok b, w') -> b = a /\ w' = w.
Proof. intros [= -> ->]; auto. Qed.

(** ** Computations that ignore the random generator *)

Lemma blind_ret {A} (a : A) : blind (@ret F A a).
Proof. intros w t; reflexivity. Qed.

Lemma blind_raise {A} e : blind (@raise F A e).
Proof. intros w t; reflexivity. Qed.

Lemma blind_lift {A} (r : result A) : blind (@lift F A r).
Proof. destruct r; [apply blind_ret | apply blind_raise]. Qed.

Lemma blind_bind {A B} (m : @M F A) (k : A -> @M F B) :
  blind m -> (forall a, blind (k a)) -> blind (bind m k).
Proof.
  intros Hm Hk w t; unfold bind; rewrite Hm.
  destruct (m w) as [[a|e] w1]; cbn [fst snd]; [apply Hk | reflexivity].
Qed.

Lemma blind_for_each {A S} (xs : list A) (body : A -> S -> @M F S) s :
  (forall x s', blind (body x s')) -> blind (for_each xs body s).
Proof.
  intros Hb; revert s; induction xs as [|x xs IH]; intros s; cbn [for_each].
  - apply blind_ret.
  - apply blind_bind; [apply Hb | intros; apply IH].
Qed.

Lemma blind_log_n_shots l : blind (@log_n_shots F l).
Proof. intros w t; reflexivity. Qed.

Lemma blind_update_and_compute_expectation backend_obj params args n_shots :
  blind (update_and_compute_expectation backend_obj params args n_shots).
Proof. intros w t; reflexivity. Qed.

Lemma blind_update_and_get_counts backend_obj params args n_shots :
  blind (update_and_get_counts backend_obj params args n_shots).
Proof. intros w t; reflexivity. Qed.

Create HintDb blind.

#[local] Hint Resolve blind_ret blind_raise blind_lift blind_log_n_shots
  blind_update_and_compute_expectation blind_update_and_get_counts : blind.

Ltac blind_step :=
  lazymatch goal with
  | |- blind (bind _ _) => apply blind_bind; [ | intros ]
  | |- blind (for_each _ _ _) => apply blind_for_each; intros
  | |- blind (if ?b then _ else _) => destruct b
  | |- blind (match ?x with _ => _ end) => destruct x
  | |- blind _ => solve [ auto with blind ]
  end.

Ltac blind_tac := cbv beta zeta; repeat (blind_step; cbv beta zeta).

Lemma blind_gradient args backend_obj params variance vect_eta constant
    n_shots :
  blind (__gradient args backend_obj params variance vect_eta constant
                    n_shots).
Proof.
  unfold __gradient; destruct variance;
    unfold fun_w_variance, fun_expectation; blind_tac.
Qed.

#[local] Hint Resolve blind_gradient : blind.

Lemma blind_param_shift_step coeffs_list args_ext backend_obj params variance
    n_shots_list i :
  blind (param_shift_step coeffs_list args_ext
           (__gradient args_ext backend_obj params variance) n_shots_list i).
Proof. unfold param_shift_step; blind_tac. Qed.

#[local] Hint Resolve blind_param_shift_step : blind.

Lemma blind_sps_extended coeffs_list args_ext backend_obj params variance
    n_shots_list sampled_indices :
  blind (sps_extended coeffs_list args_ext
           (__gradient args_ext backend_obj params variance) n_shots_list
           sampled_indices).
Proof. unfold sps_extended; blind_tac. Qed.

(** ** Group bounds *)

Lemma cumsum_step acc v i :
  (i < length v)%nat ->
  nth (S i) (acc :: np_cumsum_from acc v) 0%nat
  = (nth i (acc :: np_cumsum_from acc v) 0 + nth i v 0)%nat.
Proof.
  revert acc i; induction v as [|x v IH]; intros acc i L; cbn [length] in L;
    [lia|].
  destruct i as [|i]; [reflexivity|].
  cbn [np_cumsum_from].
  change (nth (S (S i)) (acc :: (acc + x)%nat :: np_cumsum_from (acc + x) v)
              0%nat)
    with (nth (S i) ((acc + x)%nat :: np_cumsum_from (acc + x) v) 0%nat).
  rewrite IH by lia. reflexivity.
Qed.

Lemma cumsum_last acc v :
  nth (length v) (acc :: np_cumsum_from acc v) 0%nat = (acc + list_sum v)%nat.
Proof.
  revert acc; induction v as [|x v IH]; intros acc; cbn [length list_sum].
  - cbn; lia.
  - cbn [np_cumsum_from].
    change (nth (S (length v))
                (acc :: (acc + x)%nat :: np_cumsum_from (acc + x) v) 0%nat)
      with (nth (length v) ((acc + x)%nat :: np_cumsum_from (acc + x) v)
                0%nat).
    rewrite IH. unfold list_sum; cbn [fold_right]. lia.
Qed.

Lemma length_cumsum acc v : length (np_cumsum_from acc v) = length v.
Proof.
  revert acc; induction v as [|x v IH]; intros acc; cbn;
    [reflexivity | now rewrite IH].
Qed.

Lemma length_group_bounds v : length (group_bounds v) = S (length v).
Proof. unfold group_bounds, np_cumsum; cbn; now rewrite length_cumsum. Qed.

Lemma group_bounds_step v i :
  (i < length v)%nat ->
  nth (S i) (group_bounds v) 0%nat
  = (nth i (group_bounds v) 0 + nth i v 0)%nat.
Proof. apply cumsum_step. Qed.

Lemma group_bounds_last v :
  nth (length v) (group_bounds v) 0%nat = list_sum v.
Proof. unfold group_bounds, np_cumsum; now rewrite cumsum_last. Qed.

Lemma group_bounds_cover v k x :
  (k <= length v)%nat -> (x < nth k (group_bounds v) 0)%nat ->
  exists i, (i < k)%nat
            /\ (nth i (group_bounds v) 0 <= x
                < nth i (group_bounds v) 0 + nth i v 0)%nat.
Proof.
  induction k as [|k IH]; intros Hk Hx.
  - cbn in Hx; lia.
  - rewrite group_bounds_step in Hx by lia.
    destruct (Nat.lt_ge_cases x (nth k (group_bounds v) 0%nat)) as [L | L].
    + destruct (IH ltac:(lia) L) as (i & Hi & Hr). exists i; split; [lia|].
      exact Hr.
    + exists k; split; lia.
Qed.

(** ** Draws *)

Lemma py_in_In x v : py_in x v = true <-> In x v.
Proof.
  unfold py_in; rewrite existsb_exists; split.
  - intros (y & Hy & E); apply Nat.eqb_eq in E; now subst.
  - intros Hx; exists x; split; [exact Hx | apply Nat.eqb_refl].
Qed.

Lemma nodupb_NoDup v : nodupb v = true -> NoDup v.
Proof.
  induction v as [|x v IH]; cbn [nodupb]; intros E; constructor.
  - apply andb_prop in E; destruct E as [E _].
    intros Hin; apply py_in_In in Hin; rewrite Hin in E; discriminate.
  - apply IH; apply andb_prop in E; tauto.
Qed.

Lemma valid_draw_covers lo n drawn x :
  valid_draw (py_range lo (lo + n)) n drawn = true ->
  (lo <= x < lo + n)%nat -> In x drawn.
Proof.
  unfold valid_draw, py_range; intros E Hx.
  apply andb_prop in E; destruct E as [E Hincl].
  apply andb_prop in E; destruct E as [Hlen Hnd].
  apply Nat.eqb_eq in Hlen. apply nodupb_NoDup in Hnd.
  replace (lo + n - lo)%nat with n in Hincl by lia.
  assert (I : incl drawn (seq lo n)).
  { intros y Hy. rewrite forallb_forall in Hincl.
    apply py_in_In, Hincl, Hy. }
  assert (I' : incl (seq lo n) drawn).
  { apply (NoDup_length_incl Hnd); [rewrite length_seq; lia | exact I]. }
  apply I', in_seq; lia.
Qed.

Lemma draw_sampled_indices_loop (l : list nat) (lo : nat -> nat)
    (xs : list (nat * nat)) :
  (forall i n, In (i, n) xs ->
     get_item l i = Ok (lo i) /\ get_item l (i + 1) = Ok (lo i + n)%nat) ->
  forall sampled w,
    valid_draws
      (map (fun i_n => (py_range (lo (fst i_n)) (lo (fst i_n) + snd i_n),
                        snd i_n)) xs)
      (np_random w) = true ->
    exists sampled' t,
      for_each xs
        (fun i_n sampled_indices =>
           lo <- lift (get_item l (fst i_n)) ;;
           hi <- lift (get_item l (fst i_n + 1)) ;;
           drawn <- np_random_choice (py_range lo hi) (snd i_n) ;;
           ret (sampled_indices ++ drawn))
        sampled w
      = (Ok sampled', set_random t w)
      /\ (forall x, In x sampled -> In x sampled')
      /\ (forall i n x, In (i, n) xs ->
            (lo i <= x < lo i + n)%nat -> In x sampled').
Proof.
  induction xs as [|[i n] xs IH]; intros Hl sampled w Hv; cbn [for_each].
  - exists sampled, (np_random w); split; [destruct w; reflexivity|].
    split; [auto | intros ? ? ? []].
  - destruct (Hl i n (or_introl eq_refl)) as [Hlo Hhi].
    cbn [fst snd].
    assert (Hchoice : exists drawn t,
      np_random_choice (py_range (lo i) (lo i + n)) n w
      = (Ok drawn, set_random t w)
      /\ (forall x, (lo i <= x < lo i + n)%nat -> In x drawn)
      /\ valid_draws
           (map (fun i_n => (py_range (lo (fst i_n))
                                      (lo (fst i_n) + snd i_n), snd i_n)) xs)
           t = true).
    { unfold np_random_choice, py_range.
      rewrite length_seq.
      replace (lo i + n - lo i)%nat with n by lia.
      rewrite Nat.ltb_irrefl.
      cbn [map valid_draws fst snd] in Hv.
      destruct (np_random w) as [|drawn rest] eqn:Er.
      - exists (firstn n (seq (lo i) n)), [].
        split; [destruct w; cbn in *; now subst|].
        split.
        + intros x Hx. rewrite firstn_all2 by (rewrite length_seq; lia).
          apply in_seq; lia.
        + destruct xs as [|[? ?] ?]; reflexivity.
      - apply andb_prop in Hv; destruct Hv as [Hd Hrest].
        exists drawn, rest. split; [reflexivity|]. split; [|exact Hrest].
        intros x Hx; eapply valid_draw_covers; eassumption. }
    destruct Hchoice as (drawn & t & Hc & Hcov & Hv').
    destruct (IH (fun i' n' Hin => Hl i' n' (or_intror Hin))
                (sampled ++ drawn) (set_random t w) Hv')
      as (sampled' & t' & Hrun & Hkeep & Hall).
    exists sampled', t'. split; [|split].
    + erewrite bind_ok; [exact Hrun|].
      cbv beta; cbn [fst snd].
      rewrite (bind_ok _ _ _ _ _ (lift_ok _ _ _ Hlo)).
      rewrite (bind_ok _ _ _ _ _ (lift_ok _ _ _ Hhi)).
      rewrite (bind_ok _ _ _ _ _ Hc). reflexivity.
    + intros x Hx; apply Hkeep, in_or_app; now left.
    + intros i' n' x [[= <- <-] | Hin] Hx.
      * apply Hkeep, in_or_app; right; now apply Hcov.
      * eapply Hall; eassumption.
Qed.

Lemma in_combine_seq {A} (v : list A) start i x :
  In (i, x) (combine (seq start (length v)) v)
  <-> (start <= i)%nat /\ nth_error v (i - start) = Some x.
Proof.
  revert start; induction v as [|y v IH]; intros start; cbn [length seq combine].
  - split; [intros [] | intros [_ E]; destruct (i - start)%nat; discriminate].
  - cbn [In]; rewrite IH; split.
    + intros [[= <- <-] | [L E]].
      * rewrite Nat.sub_diag; split; [lia | reflexivity].
      * split; [lia|].
        replace (i - start)%nat with (S (i - S start)) by lia. exact E.
    + intros [L E].
      destruct (Nat.eq_dec i start) as [-> | N].
      * rewrite Nat.sub_diag in E; cbn in E; left; congruence.
      * right; split; [lia|].
        replace (i - start)%nat with (S (i - S start)) in E by lia. exact E.
Qed.

Lemma draw_sampled_indices_full (v : list nat) w :
  valid_draws (sampling_requests (group_bounds v) v) (np_random w) = true ->
  exists sampled t,
    draw_sampled_indices (group_bounds v) v w = (Ok sampled, set_random t w)
    /\ forall x, (x < list_sum v)%nat -> In x sampled.
Proof.
  intros Hv.
  assert (Hitems : forall i n,
    In (i, n) (combine (range (length v)) v) ->
    (i < length v)%nat /\ nth i v 0%nat = n
    /\ nth (i + 1) (group_bounds v) 0%nat
       = (nth i (group_bounds v) 0 + n)%nat).
  { intros i n Hin. apply in_combine_seq in Hin. destruct Hin as [_ E].
    rewrite Nat.sub_0_r in E.
    assert (L : (i < length v)%nat)
      by (apply nth_error_Some; congruence).
    pose proof (nth_error_nth _ _ 0%nat E) as En.
    split; [exact L|]. split; [exact En|].
    rewrite Nat.add_1_r, group_bounds_step by exact L. now rewrite En. }
  destruct (draw_sampled_indices_loop (group_bounds v)
              (fun i => nth i (group_bounds v) 0%nat)
              (combine (range (length v)) v)) with (sampled := @nil nat)
              (w := w)
    as (sampled & t & Hrun & _ & Hall).
  - intros i n Hin. destruct (Hitems i n Hin) as (L & _ & Estep).
    split.
    + apply get_item_nth. rewrite length_group_bounds; lia.
    + rewrite <- Estep. apply get_item_nth.
      rewrite length_group_bounds; lia.
  - rewrite <- Hv. unfold sampling_requests. f_equal.
    apply map_ext_in. intros [i n] Hin; cbn [fst snd].
    destruct (Hitems i n Hin) as (_ & _ & ->). reflexivity.
  - exists sampled, t. split; [exact Hrun|].
    intros x Hx. rewrite <- group_bounds_last in Hx.
    destruct (group_bounds_cover v (length v) x (le_n _) Hx)
      as (i & Hi & Hr).
    apply (Hall i (nth i v 0%nat) x); [|exact Hr].
    apply in_combine_seq. split; [lia|].
    rewrite Nat.sub_0_r. now apply nth_error_nth'.
Qed.

(** ** Full sampling runs the parameter-shift loop *)

Lemma param_shift_step_inv coeffs_list args_ext
    (__gradient_function : list F -> F -> option Z -> @M F (F * F))
    n_shots_list i w r w' :
  param_shift_step coeffs_list args_ext __gradient_function n_shots_list i w
  = (Ok r, w') ->
  (i < length coeffs_list)%nat
  /\ exists shots_i, get_item n_shots_list i = Ok shots_i.
Proof.
  unfold param_shift_step, bind, get_item.
  destruct (nth_error coeffs_list i) as [c|] eqn:Ec; cbn; [|discriminate].
  destruct (py_div _ _); cbn; [|discriminate].
  destruct (nth_error n_shots_list i) as [s|]; cbn; [|discriminate].
  intros _; split; [|eauto].
  apply nth_error_Some; congruence.
Qed.

Lemma sps_loop_follows_ps coeffs_list args_ext
    (__gradient_function : list F -> F -> option Z -> @M F (F * F))
    n_shots_list sampled_indices xs :
  (forall i, (i < length coeffs_list)%nat -> In i sampled_indices) ->
  forall gv used w gv' w',
    for_each xs
      (fun i gv =>
         r <- param_shift_step coeffs_list args_ext __gradient_function
                               n_shots_list i ;;
         ret (set_item (fst gv) i (fst r), set_item (snd gv) i (snd r)))
      gv w = (Ok gv', w') ->
    exists used',
      for_each xs
        (fun i st =>
           if py_in i sampled_indices then
             r <- param_shift_step coeffs_list args_ext __gradient_function
                                   n_shots_list i ;;
             shots_i <- lift (get_item n_shots_list i) ;;
             ret (set_item (fst (fst st)) i (fst r),
                  set_item (snd (fst st)) i (snd r),
                  snd st + match shots_i with
                           | Some n => 2 * n
                           | None => 0
                           end)
           else ret st)
        (gv, used) w = (Ok (gv', used'), w').
Proof.
  intros Hall; induction xs as [|i xs IH]; intros gv used w gv' w' Hps;
    cbn [for_each] in *.
  - apply ret_inv in Hps; destruct Hps as [-> ->]. exists used; reflexivity.
  - apply bind_inv in Hps; destruct Hps as (gv1 & w1 & Hbody & Hrest).
    apply bind_inv in Hbody; destruct Hbody as (r & w2 & Hstep & Hret).
    apply ret_inv in Hret; destruct Hret as [-> ->].
    destruct (param_shift_step_inv _ _ _ _ _ _ _ _ Hstep) as (Li & s & Hs).
    destruct (IH _ (used + match s with Some n => 2 * n | None => 0 end)
                 _ _ _ Hrest) as (used' & Hsps).
    exists used'.
    erewrite bind_ok; [exact Hsps|].
    cbv beta. rewrite (proj2 (py_in_In i sampled_indices) (Hall i Li)).
    rewrite (bind_ok _ _ _ _ _ Hstep).
    rewrite (bind_ok _ _ _ _ _ (lift_ok _ _ _ Hs)). reflexivity.
Qed.

Lemma length_list_times {A} k (v : list A) :
  length (list_times k v) = (k * length v)%nat.
Proof.
  unfold list_times; induction k as [|k IH]; cbn; [reflexivity|].
  now rewrite length_app, IH.
Qed.

Lemma list_sum_repeat a k : list_sum (repeat a k) = (k * a)%nat.
Proof.
  induction k as [|k IH]; cbn [repeat]; [reflexivity|].
  change (list_sum (a :: repeat a k)) with (a + list_sum (repeat a k))%nat.
  now rewrite IH.
Qed.

Lemma length_coeffs_list_of params :
  length (coeffs_list_of params)
  = list_sum (np_repeat (family_sizes params) (p params)).
Proof.
  unfold coeffs_list_of, np_repeat, family_sizes; cbn [flat_map].
  rewrite !length_app, !list_sum_app, !length_list_times, !list_sum_repeat.
  cbn; lia.
Qed.

Lemma check_n_sample_all x0 x1 x2 x3 y0 y1 y2 y3 :
  samples_all x0 y0 -> samples_all x1 y1 -> samples_all x2 y2 ->
  samples_all x3 y3 ->
  check_n_sample names_params [x0; x1; x2; x3] [y0; y1; y2; y3]
  = Ok [y0; y1; y2; y3].
Proof.
  assert (Hone : forall x y, samples_all x y ->
            (Z.leb (-1) x && Z.leb x (Z.of_nat y) = true)
            /\ (if Z.eqb x (-1) then y else Z.to_nat x) = y).
  { intros x y [-> | ->].
    - split; [|reflexivity].
      apply andb_true_intro; split; apply Z.leb_le; lia.
    - split; [apply andb_true_intro; split; apply Z.leb_le; lia|].
      destruct (Z.eqb_spec (Z.of_nat y) (-1)); [lia | apply Nat2Z.id]. }
  intros H0 H1 H2 H3; unfold names_params; cbn [check_n_sample].
  destruct (Hone _ _ H0) as [-> ->], (Hone _ _ H1) as [-> ->],
           (Hone _ _ H2) as [-> ->], (Hone _ _ H3) as [-> ->].
  reflexivity.
Qed.

(** C3: when each of the four sample sizes is [-1] or the full size of its
    family, then on every argument vector and shot specification on which
    [grad_ps] returns, [grad_sps] returns the same gradient and the same
    variance, after the same backend calls and with the same counters. *)
Theorem full_sampling_is_parameter_shift backend_obj params params_ext
    gradient_options variance args n_shots w out_ps w_ps :
  let n_associated_params :=
    np_repeat (family_sizes params) (p params) in
  samples_all (n_beta_single gradient_options)
              (length (mixer_1q_coeffs params)) ->
  samples_all (n_beta_pair gradient_options)
              (length (mixer_2q_coeffs params)) ->
  samples_all (n_gamma_single gradient_options)
              (length (cost_1q_coeffs params)) ->
  samples_all (n_gamma_pair gradient_options)
              (length (cost_2q_coeffs params)) ->
  valid_draws
    (sampling_requests (group_bounds n_associated_params)
                       n_associated_params)
    (np_random w) = true ->
  grad_ps backend_obj params params_ext variance args n_shots w
  = (Ok out_ps, w_ps) ->
  exists grad_sps_func out_sps w_sps,
    grad_sps backend_obj params params_ext gradient_options variance
    = Ok grad_sps_func
    /\ grad_sps_func args n_shots w = (Ok out_sps, w_sps)
    /\ output_gradient out_sps = output_gradient out_ps
    /\ output_variance out_sps = output_variance out_ps
    /\ calls w_sps = calls w_ps
    /\ logger w_sps = logger w_ps.
Proof.
  intros n_assoc H0 H1 H2 H3 Hdraws Hps.
  exists (grad_sps_func backend_obj params params_ext (family_sizes params)
                        variance).
  assert (Hfactory :
    grad_sps backend_obj params params_ext gradient_options variance
    = Ok (grad_sps_func backend_obj params params_ext (family_sizes params)
                        variance)).
  { unfold grad_sps. unfold family_sizes at 1.
    rewrite (check_n_sample_all _ _ _ _ _ _ _ _ H0 H1 H2 H3). reflexivity. }
  unfold grad_ps, grad_ps_func in Hps. fold n_assoc in Hps.
  apply bind_inv in Hps; destruct Hps as (u & wa & Hpre & Hps).
  apply bind_inv in Hps; destruct Hps as (nsl & wa' & Hext & Hps).
  apply lift_inv in Hext; destruct Hext as [Hext ->].
  apply bind_inv in Hps; destruct Hps as (gv & wb & Hloop & Hps).
  apply bind_inv in Hps; destruct Hps as (grad & wb' & Hg & Hps).
  apply lift_inv in Hg; destruct Hg as [Hg ->].
  apply bind_inv in Hps; destruct Hps as (var & wb' & Hv & Hps).
  apply lift_inv in Hv; destruct Hv as [Hv ->].
  assert (Hrand : np_random wa = np_random w).
  { destruct variance.
    - apply bind_inv in Hpre; destruct Hpre as (sl & w1 & Hl & Hlog).
      apply lift_inv in Hl; destruct Hl as [_ ->].
      injection Hlog as _ <-; reflexivity.
    - injection Hpre as _ <-; reflexivity. }
  rewrite <- Hrand in Hdraws.
  destruct (draw_sampled_indices_full n_assoc wa Hdraws)
    as (sampled & t & Hdraw & Hcover).
  unfold n_assoc in Hcover. rewrite <- length_coeffs_list_of in Hcover.
  unfold ps_extended in Hloop.
  destruct (sps_loop_follows_ps _ _ _ _ sampled
              (range (length (convert_to_ext params args))) Hcover
              _ 0 _ _ _ Hloop) as (used & Hsps).
  assert (Hspsloop :
    sps_extended (coeffs_list_of params) (convert_to_ext params args)
      (__gradient (convert_to_ext params args) backend_obj params_ext
                  variance)
      nsl sampled (set_random t wa)
    = (Ok (gv, used), set_random t wb)).
  { rewrite blind_sps_extended. unfold sps_extended.
    change (np_zeros (length (convert_to_ext params args)),
            np_zeros (length (convert_to_ext params args)), 0)
      with ((np_zeros (length (convert_to_ext params args)),
             np_zeros (length (convert_to_ext params args))), 0).
    rewrite Hsps. reflexivity. }
  assert (Hrun : exists out_sps,
    grad_sps_func backend_obj params params_ext (family_sizes params)
                  variance args n_shots w
    = (Ok out_sps, set_random t wb)
    /\ output_gradient out_sps = Some grad
    /\ output_variance out_sps = if variance then Some var else None).
  { unfold grad_sps_func. fold n_assoc.
    rewrite (bind_ok _ _ _ _ _ Hpre).
    rewrite (bind_ok _ _ _ _ _ (lift_ok _ _ _ Hext)).
    rewrite (bind_ok _ _ _ _ _ Hdraw).
    rewrite (bind_ok _ _ _ _ _ Hspsloop).
    cbn [fst snd].
    rewrite (bind_ok _ _ _ _ _ (lift_ok _ _ _ Hg)).
    rewrite (bind_ok _ _ _ _ _ (lift_ok _ _ _ Hv)).
    destruct variance; eexists; (split; [reflexivity|]); split; reflexivity. }
  destruct Hrun as (out_sps & Hrun & Hog & Hov).
  exists out_sps, (set_random t wb).
  split; [exact Hfactory|]. split; [exact Hrun|].
  destruct variance.
  - apply bind_inv in Hps; destruct Hps as (total & wc & Ht & Hret).
    apply lift_inv in Ht; destruct Ht as [_ ->].
    injection Hret as <- <-. cbn. rewrite Hog, Hov. auto.
  - injection Hps as <- <-. cbn. rewrite Hog, Hov. auto.
Qed.

(** ** Shots used *)

Lemma py_sum_inv v acc total :
  py_sum v acc = Ok total -> total = acc + sum_shots v.
Proof.
  revert acc; induction v as [|[n|] v IH]; intros acc; cbn [py_sum].
  - intros [= <-]; cbn; lia.
  - intros E; apply IH in E; cbn [sum_shots fold_right] in *.
    unfold sum_shots in E; lia.
  - discriminate.
Qed.

Lemma grad_fd_shots backend_obj params eta args n_shots w out w' :
  grad_fd_func backend_obj params eta true args n_shots w = (Ok out, w') ->
  exists n_shots_list,
    __create_n_shots_list (length args) n_shots = Ok n_shots_list
    /\ output_shots out = Some (2 * sum_shots n_shots_list).
Proof.
  unfold grad_fd_func; intros Hrun.
  apply bind_inv in Hrun; destruct Hrun as (nsl & w1 & Hl & Hrun).
  apply lift_inv in Hl; destruct Hl as [Hl ->].
  apply bind_inv in Hrun; destruct Hrun as (u & w2 & _ & Hrun).
  apply bind_inv in Hrun; destruct Hrun as (gv & w3 & _ & Hrun).
  apply bind_inv in Hrun; destruct Hrun as (total & w4 & Ht & Hret).
  apply lift_inv in Ht; destruct Ht as [Ht ->].
  injection Hret as <- <-.
  exists nsl; split; [exact Hl|].
  apply py_sum_inv in Ht; cbn; now rewrite Ht.
Qed.

Lemma grad_ps_shots backend_obj params params_ext args n_shots w out w' :
  grad_ps_func backend_obj params params_ext true args n_shots w
  = (Ok out, w') ->
  exists n_shots_list,
    __create_n_shots_ext_list (length args)
      (np_repeat (family_sizes params) (p params)) n_shots = Ok n_shots_list
    /\ output_shots out = Some (2 * sum_shots n_shots_list).
Proof.
  unfold grad_ps_func; intros Hrun.
  apply bind_inv in Hrun; destruct Hrun as (u & w1 & _ & Hrun).
  apply bind_inv in Hrun; destruct Hrun as (nsl & w2 & Hl & Hrun).
  apply lift_inv in Hl; destruct Hl as [Hl ->].
  apply bind_inv in Hrun; destruct Hrun as (gv & w3 & _ & Hrun).
  apply bind_inv in Hrun; destruct Hrun as (grad & w4 & _ & Hrun).
  apply bind_inv in Hrun; destruct Hrun as (var & w5 & _ & Hrun).
  apply bind_inv in Hrun; destruct Hrun as (total & w6 & Ht & Hret).
  apply lift_inv in Ht; destruct Ht as [Ht ->].
  injection Hret as <- <-.
  exists nsl; split; [exact Hl|].
  apply py_sum_inv in Ht; cbn; now rewrite Ht.
Qed.

Lemma grad_spsa_shots backend_obj params eta args n_shots w out w' :
  grad_spsa_func backend_obj params eta true args n_shots w = (Ok out, w') ->
  exists n, n_shots = Some n /\ output_shots out = Some (2 * n).
Proof.
  unfold grad_spsa_func; intros Hrun.
  apply bind_inv in Hrun; destruct Hrun as (u & w1 & _ & Hrun).
  apply bind_inv in Hrun; destruct Hrun as (bits & w2 & _ & Hrun).
  apply bind_inv in Hrun; destruct Hrun as (const & w3 & _ & Hrun).
  apply bind_inv in Hrun; destruct Hrun as (r & w4 & _ & Hrun).
  destruct n_shots as [n|]; [|discriminate].
  injection Hrun as <- <-. exists n; auto.
Qed.

Lemma sps_loop_shots coeffs_list args_ext
    (__gradient_function : list F -> F -> option Z -> @M F (F * F))
    n_shots_list sampled_indices xs :
  forall st w st' w',
    for_each xs
      (fun i st =>
         if py_in i sampled_indices then
           r <- param_shift_step coeffs_list args_ext __gradient_function
                                 n_shots_list i ;;
           shots_i <- lift (get_item n_shots_list i) ;;
           ret (set_item (fst (fst st)) i (fst r),
                set_item (snd (fst st)) i (snd r),
                snd st + match shots_i with
                         | Some n => 2 * n
                         | None => 0
                         end)
         else ret st)
      st w = (Ok st', w') ->
    snd st'
    = snd st
      + 2 * sum_shots
              (map (fun i => nth i n_shots_list None)
                   (filter (fun i => py_in i sampled_indices) xs)).
Proof.
  induction xs as [|i xs IH]; intros st w st' w' Hrun; cbn [for_each] in Hrun.
  - injection Hrun as <- _; cbn; lia.
  - apply bind_inv in Hrun; destruct Hrun as (st1 & w1 & Hbody & Hrest).
    apply IH in Hrest. cbn [filter].
    destruct (py_in i sampled_indices).
    + apply bind_inv in Hbody; destruct Hbody as (r & w2 & _ & Hbody).
      apply bind_inv in Hbody; destruct Hbody as (s & w3 & Hs & Hret).
      apply lift_inv in Hs; destruct Hs as [Hs ->].
      apply ret_inv in Hret; destruct Hret as [-> _].
      unfold get_item in Hs.
      destruct (nth_error n_shots_list i) as [s'|] eqn:En; [|discriminate].
      injection Hs as ->.
      cbn [snd] in Hrest. rewrite Hrest. cbn [map].
      rewrite (nth_error_nth _ _ None En).
      unfold sum_shots; cbn [fold_right]. destruct s; lia.
    + apply ret_inv in Hbody; destruct Hbody as [-> _]. exact Hrest.
Qed.

Lemma grad_sps_shots backend_obj params params_ext n_sample args n_shots w
    out w' :
  grad_sps_func backend_obj params params_ext n_sample true args n_shots w
  = (Ok out, w') ->
  exists n_shots_list std_list sampled_indices w2,
    __create_n_shots_ext_list (length args)
      (np_repeat (family_sizes params) (p params)) n_shots = Ok n_shots_list
    /\ __create_n_shots_list (length args) n_shots = Ok std_list
    /\ draw_sampled_indices
         (group_bounds (np_repeat (family_sizes params) (p params)))
         (np_repeat n_sample (p params)) (snd (log_n_shots std_list w))
       = (Ok sampled_indices, w2)
    /\ output_shots out
       = Some (2 * sum_shots
                     (sampled_shots n_shots_list sampled_indices
                        (length (convert_to_ext params args)))).
Proof.
  unfold grad_sps_func; intros Hrun.
  apply bind_inv in Hrun; destruct Hrun as (u & w1 & Hpre & Hrun).
  apply bind_inv in Hpre; destruct Hpre as (std & w0 & Hstd & Hlog).
  apply lift_inv in Hstd; destruct Hstd as [Hstd ->].
  assert (Hw1 : w1 = snd (log_n_shots std w)) by (now rewrite Hlog).
  apply bind_inv in Hrun; destruct Hrun as (nsl & w2 & Hl & Hrun).
  apply lift_inv in Hl; destruct Hl as [Hl ->].
  apply bind_inv in Hrun; destruct Hrun as (sampled & w3 & Hd & Hrun).
  apply bind_inv in Hrun; destruct Hrun as (st & w4 & Hloop & Hrun).
  apply bind_inv in Hrun; destruct Hrun as (grad & w5 & _ & Hrun).
  apply bind_inv in Hrun; destruct Hrun as (var & w6 & _ & Hret).
  injection Hret as <- _.
  exists nsl, std, sampled, w3.
  split; [exact Hl|]. split; [exact Hstd|]. split; [now rewrite <- Hw1|].
  unfold sps_extended in Hloop. apply sps_loop_shots in Hloop.
  cbn [output_shots snd] in *. unfold sampled_shots. rewrite Hloop.
  f_equal; lia.
Qed.

(** ** Computations that return *)

Lemma total_ret {A} (a : A) : total (@ret F A a).
Proof. intros w; exists a, w; reflexivity. Qed.

Lemma total_lift {A} (r : result A) a : r = Ok a -> total (@lift F A r).
Proof. intros -> w; exists a, w; reflexivity. Qed.

Lemma total_bind {A B} (m : @M F A) (k : A -> @M F B) :
  total m -> (forall a, total (k a)) -> total (bind m k).
Proof.
  intros Hm Hk w. destruct (Hm w) as (a & w1 & E).
  destruct (Hk a w1) as (b & w2 & E2).
  exists b, w2. now rewrite (bind_ok _ _ _ _ _ E).
Qed.

Lemma total_for_each {A S} (xs : list A) (body : A -> S -> @M F S) :
  (forall x s, In x xs -> total (body x s)) ->
  forall s, total (for_each xs body s).
Proof.
  induction xs as [|x xs IH]; intros Hb s; cbn [for_each].
  - apply total_ret.
  - apply total_bind; [apply Hb; now left|].
    intros s'; apply IH; intros; apply Hb; now right.
Qed.

Lemma total_log_n_shots l : total (@log_n_shots F l).
Proof. intros w; do 2 eexists; reflexivity. Qed.

Lemma total_update_and_compute_expectation backend_obj params args n_shots :
  total (update_and_compute_expectation backend_obj params args n_shots).
Proof.
  intros w; unfold returns; rewrite update_and_compute_expectation_run.
  do 2 eexists; reflexivity.
Qed.

Lemma total_update_and_get_counts backend_obj params args n_shots :
  total (update_and_get_counts backend_obj params args n_shots).
Proof.
  intros w; unfold returns; rewrite update_and_get_counts_run.
  do 2 eexists; reflexivity.
Qed.

Lemma total_np_random_choice population size :
  (size <= length population)%nat ->
  total (@np_random_choice F population size).
Proof.
  intros L w; unfold returns, np_random_choice.
  destruct (Nat.ltb_spec (length population) size); [lia|].
  destruct (np_random w); do 2 eexists; reflexivity.
Qed.

Lemma total_np_random_randint_0_2 size :
  total (@np_random_randint_0_2 F size).
Proof.
  intros w; unfold returns, np_random_randint_0_2.
  destruct (np_random w); do 2 eexists; reflexivity.
Qed.

Lemma fun_w_variance_run args backend_obj params vect_eta constant n_shots w :
  fun_w_variance args backend_obj params vect_eta constant n_shots w
  = bind
      (lift (np_subtract
               (shot_costs backend_obj
                  (get_counts backend_obj
                     (update_from_raw params (vadd args vect_eta))
                     (n_shots_dict n_shots)))
               (shot_costs backend_obj
                  (get_counts backend_obj
                     (update_from_raw params (vsub args vect_eta))
                     (n_shots_dict n_shots)))))
      (fun diff =>
         let grad_list := map (fun d => np_real (fmul constant d)) diff in
         ret (np_mean grad_list, np_var grad_list))
      (record_call CallGetCounts (update_from_raw params (vadd args vect_eta))
         (n_shots_dict n_shots)
         (record_call CallGetCounts
            (update_from_raw params (vsub args vect_eta))
            (n_shots_dict n_shots) w)).
Proof. reflexivity. Qed.

Lemma total_gradient backend_obj params args variance vect_eta constant
    n_shots :
  steady_totals backend_obj ->
  total (__gradient args backend_obj params variance vect_eta constant
                    n_shots).
Proof.
  intros Hsteady w; unfold returns, __gradient; destruct variance.
  - rewrite fun_w_variance_run.
    rewrite np_subtract_same
      by (rewrite !length_shot_costs; apply Hsteady).
    do 2 eexists; reflexivity.
  - rewrite fun_expectation_run. do 2 eexists; reflexivity.
Qed.

Lemma py_sum_integer v acc :
  Forall (fun s => s <> None) v -> exists total, py_sum v acc = Ok total.
Proof.
  intros Hv; revert acc; induction Hv as [|[n|] v Hs _ IH]; intros acc;
    cbn [py_sum]; [eauto | apply IH | contradiction].
Qed.

Lemma create_n_shots_list_length n n_shots n_shots_list :
  __create_n_shots_list n n_shots = Ok n_shots_list ->
  length n_shots_list = n.
Proof.
  destruct n_shots as [l | v |]; cbn; [| |discriminate].
  - destruct (Nat.eqb_spec (length l) n); [|discriminate].
    now intros [= <-].
  - intros [= <-]; apply repeat_length.
Qed.

(** ** The conversion to the standard form, run *)

Lemma map_result_ok {A B} (f : A -> result B) (g : A -> B) xs :
  (forall x, In x xs -> f x = Ok (g x)) -> map_result f xs = Ok (map g xs).
Proof.
  induction xs as [|x xs IH]; intros Hf; cbn [map_result map];
    [reflexivity|].
  rewrite Hf by now left. cbn [rbind].
  rewrite IH by (intros; apply Hf; now right). reflexivity.
Qed.

Lemma py_get_nat {A} (v : list A) i d :
  (i < length v)%nat -> py_get v (Z.of_nat i) = Ok (nth i v d).
Proof.
  intros L; unfold py_get.
  destruct (Z.ltb_spec (Z.of_nat i) 0); [lia|].
  destruct (Z.ltb_spec (Z.of_nat i) 0); [lia|].
  rewrite Nat2Z.id. now apply get_item_nth.
Qed.

Lemma py_get_before {A} (v : list A) i d :
  (i < length v)%nat ->
  py_get v (Z.of_nat i - 1)
  = Ok (nth (if Nat.eqb i 0 then length v - 1 else i - 1)%nat v d).
Proof.
  intros L; destruct i as [|i]; cbn [Nat.eqb].
  - unfold py_get. change (Z.of_nat 0 - 1) with (-1).
    change (Z.ltb (-1) 0) with true. cbv iota.
    destruct (Z.ltb_spec (-1 + Z.of_nat (length v)) 0); [lia|].
    replace (Z.to_nat (-1 + Z.of_nat (length v))) with (length v - 1)%nat
      by lia.
    apply get_item_nth; lia.
  - replace (Z.of_nat (S i) - 1) with (Z.of_nat i) by lia.
    replace (S i - 1)%nat with i by lia.
    apply py_get_nat; lia.
Qed.

Lemma group_sums_run (l : list nat) (x_ext : list F) :
  group_sums l x_ext
  = Ok (map (code_group_sum l x_ext) (range (length l - 1))).
Proof.
  unfold group_sums. apply map_result_ok.
  intros i Hi. apply in_seq in Hi.
  rewrite (py_get_before l i 0%nat) by lia. cbn [rbind].
  rewrite (py_get_nat l i 0%nat) by lia. reflexivity.
Qed.

Lemma ext_to_std_run (l : list nat) (p : nat) (x_ext : list F) :
  length l = S (4 * p) ->
  ext_to_std l p x_ext
  = Ok (let sums := map (code_group_sum l x_ext) (range (4 * p)) in
        vadd (py_slice sums (0 * p) (1 * p)) (py_slice sums (1 * p) (2 * p))
        ++ vadd (py_slice sums (2 * p) (3 * p))
                (py_slice sums (3 * p) (4 * p))).
Proof.
  intros L; unfold ext_to_std.
  rewrite group_sums_run, L. cbn [rbind].
  replace (S (4 * p) - 1)%nat with (4 * p)%nat by lia.
  unfold np_reshape, range. rewrite length_map, length_seq, Nat.eqb_refl.
  reflexivity.
Qed.

Lemma length_np_repeat {A} (v : list A) k :
  length (np_repeat v k) = (length v * k)%nat.
Proof.
  unfold np_repeat; induction v as [|x v IH]; cbn; [reflexivity|].
  now rewrite length_app, repeat_length, IH.
Qed.

Lemma ext_to_std_returns params (x_ext : list F) :
  exists std,
    ext_to_std (group_bounds (np_repeat (family_sizes params) (p params)))
               (p params) x_ext = Ok std.
Proof.
  eexists. apply ext_to_std_run.
  rewrite length_group_bounds, length_np_repeat. reflexivity.
Qed.

(** ** The estimators return *)

Lemma returns_bind {A B} (m : @M F A) (k : A -> @M F B) w a w1 :
  m w = (Ok a, w1) -> returns (k a) w1 -> returns (bind m k) w.
Proof.
  intros E (b & w2 & E2). exists b, w2. now rewrite (bind_ok _ _ _ _ _ E).
Qed.

Lemma returns_total {A} (m : @M F A) w : total m -> returns m w.
Proof. intros T; apply T. Qed.

Lemma total_param_shift_step backend_obj params_ext coeffs_list args_ext
    variance n_shots_list i :
  steady_totals backend_obj ->
  (i < length coeffs_list)%nat ->
  (i < length n_shots_list)%nat ->
  fis_zero (fmul (of_Z 4) (nth i coeffs_list (of_Z 0))) = false ->
  total (param_shift_step coeffs_list args_ext
           (__gradient args_ext backend_obj params_ext variance)
           n_shots_list i).
Proof.
  intros Hsteady Lc Ls Z0 w. unfold param_shift_step.
  eapply returns_bind;
    [apply lift_ok, (get_item_nth coeffs_list i (of_Z 0) Lc)|].
  unfold py_div; rewrite Z0.
  eapply returns_bind; [apply lift_ok; reflexivity|].
  eapply returns_bind;
    [apply lift_ok, (get_item_nth n_shots_list i None Ls)|].
  now apply total_gradient.
Qed.

Lemma create_n_shots_ext_list_std n sizes n_shots n_shots_list :
  __create_n_shots_ext_list n sizes n_shots = Ok n_shots_list ->
  exists std_list, __create_n_shots_list n n_shots = Ok std_list.
Proof.
  destruct n_shots as [l | v |]; cbn; [| eauto | discriminate].
  destruct (Nat.eqb (length l) n); [eauto | discriminate].
Qed.

Lemma grad_fd_returns backend_obj params eta args n_shots n_shots_list w :
  steady_totals backend_obj ->
  fis_zero eta = false ->
  __create_n_shots_list (length args) n_shots = Ok n_shots_list ->
  Forall (fun s => s <> None) n_shots_list ->
  returns (grad_fd_func backend_obj params eta true args n_shots) w.
Proof.
  intros Hsteady Heta Hl Hint. unfold grad_fd_func.
  eapply returns_bind; [apply lift_ok, Hl|].
  apply returns_total.
  apply total_bind; [apply total_log_n_shots | intros _].
  apply total_bind.
  - apply total_for_each. intros i gv Hi. apply in_seq in Hi.
    unfold py_div; rewrite Heta.
    apply total_bind; [eapply total_lift; reflexivity | intros const].
    apply total_bind;
      [eapply total_lift, (get_item_nth n_shots_list i None) | intros s].
    { rewrite (create_n_shots_list_length _ _ _ Hl); lia. }
    apply total_bind; [now apply total_gradient | intros r].
    apply total_ret.
  - intros gv. destruct (py_sum_integer _ 0 Hint) as [t Ht].
    apply total_bind; [eapply total_lift, Ht | intros; apply total_ret].
Qed.

Lemma grad_ps_returns backend_obj params params_ext args n_shots
    n_shots_list w :
  let coeffs_list := coeffs_list_of params in
  let args_ext := convert_to_ext params args in
  steady_totals backend_obj ->
  __create_n_shots_ext_list (length args)
    (np_repeat (family_sizes params) (p params)) n_shots = Ok n_shots_list ->
  Forall (fun s => s <> None) n_shots_list ->
  (length args_ext <= length coeffs_list)%nat ->
  (length args_ext <= length n_shots_list)%nat ->
  (forall i, (i < length args_ext)%nat ->
     fis_zero (fmul (of_Z 4) (nth i coeffs_list (of_Z 0))) = false) ->
  returns (grad_ps_func backend_obj params params_ext true args n_shots) w.
Proof.
  intros coeffs_list args_ext Hsteady Hl Hint Lc Ls Hz.
  destruct (create_n_shots_ext_list_std _ _ _ _ Hl) as [std Hstd].
  unfold grad_ps_func. fold coeffs_list args_ext.
  eapply returns_bind.
  { rewrite (bind_ok _ _ _ _ _ (lift_ok _ _ _ Hstd)). reflexivity. }
  eapply returns_bind; [apply lift_ok, Hl|].
  apply returns_total.
  apply total_bind.
  - unfold ps_extended. apply total_for_each. intros i gv Hi.
    apply in_seq in Hi.
    apply total_bind; [|intros; apply total_ret].
    apply total_param_shift_step; [assumption | lia | lia | apply Hz; lia].
  - intros gv.
    destruct (ext_to_std_returns params (fst gv)) as [g Hg].
    destruct (ext_to_std_returns params (snd gv)) as [v Hv].
    destruct (py_sum_integer _ 0 Hint) as [t Ht].
    apply total_bind; [eapply total_lift, Hg | intros].
    apply total_bind; [eapply total_lift, Hv | intros].
    apply total_bind; [eapply total_lift, Ht | intros; apply total_ret].
Qed.

Lemma grad_spsa_returns backend_obj params eta args n w :
  steady_totals backend_obj ->
  fis_zero eta = false ->
  returns (grad_spsa_func backend_obj params eta true args (Some n)) w.
Proof.
  intros Hsteady Heta. apply returns_total. unfold grad_spsa_func.
  apply total_bind; [apply total_log_n_shots | intros _].
  apply total_bind; [apply total_np_random_randint_0_2 | intros bits].
  unfold py_div; rewrite Heta.
  apply total_bind; [eapply total_lift; reflexivity | intros const].
  apply total_bind; [now apply total_gradient | intros r].
  apply total_ret.
Qed.

Lemma Forall2_le_nth (u v : list nat) i a :
  Forall2 le u v -> nth_error u i = Some a ->
  (i < length v)%nat /\ (a <= nth i v 0)%nat.
Proof.
  intros Huv; revert i; induction Huv as [|x y u v Hxy _ IH]; intros i E.
  - destruct i; discriminate.
  - destruct i as [|i]; cbn in *.
    + injection E as <-. split; [lia | exact Hxy].
    + destruct (IH i E); split; [lia | assumption].
Qed.

Lemma Forall2_le_repeat x y k :
  (x <= y)%nat -> Forall2 le (repeat x k) (repeat y k).
Proof. intros Hxy; induction k; cbn; constructor; assumption. Qed.

Lemma Forall2_le_np_repeat (u v : list nat) k :
  Forall2 le u v -> Forall2 le (np_repeat u k) (np_repeat v k).
Proof.
  unfold np_repeat; induction 1 as [|x y u v Hxy _ IH]; cbn [flat_map];
    [constructor|].
  apply Forall2_app; [now apply Forall2_le_repeat | exact IH].
Qed.

Lemma total_draw_sampled_indices (sizes n_associated_params : list nat) :
  Forall2 le n_associated_params sizes ->
  total (@draw_sampled_indices F (group_bounds sizes) n_associated_params).
Proof.
  intros Hle. unfold draw_sampled_indices.
  apply total_for_each. intros [i n] sampled Hin w; cbn [fst snd].
  apply in_combine_seq in Hin; destruct Hin as [_ E].
  rewrite Nat.sub_0_r in E.
  destruct (Forall2_le_nth _ _ i _ Hle E) as [Li Ln].
  eapply returns_bind.
  { apply lift_ok, (get_item_nth _ i 0%nat).
    rewrite length_group_bounds; lia. }
  eapply returns_bind.
  { apply lift_ok, (get_item_nth _ (i + 1) 0%nat).
    rewrite length_group_bounds; lia. }
  apply returns_total.
  apply total_bind; [|intros; apply total_ret].
  apply total_np_random_choice.
  unfold py_range. rewrite length_seq, Nat.add_1_r, group_bounds_step by lia.
  lia.
Qed.

Lemma grad_sps_returns backend_obj params params_ext n_sample args n_shots
    n_shots_list w :
  let coeffs_list := coeffs_list_of params in
  let args_ext := convert_to_ext params args in
  steady_totals backend_obj ->
  Forall2 le n_sample (family_sizes params) ->
  __create_n_shots_ext_list (length args)
    (np_repeat (family_sizes params) (p params)) n_shots = Ok n_shots_list ->
  (length args_ext <= length coeffs_list)%nat ->
  (length args_ext <= length n_shots_list)%nat ->
  (forall i, (i < length args_ext)%nat ->
     fis_zero (fmul (of_Z 4) (nth i coeffs_list (of_Z 0))) = false) ->
  returns
    (grad_sps_func backend_obj params params_ext n_sample true args n_shots)
    w.
Proof.
  intros coeffs_list args_ext Hsteady Hle Hl Lc Ls Hz.
  destruct (create_n_shots_ext_list_std _ _ _ _ Hl) as [std Hstd].
  unfold grad_sps_func. fold coeffs_list args_ext.
  eapply returns_bind.
  { rewrite (bind_ok _ _ _ _ _ (lift_ok _ _ _ Hstd)). reflexivity. }
  eapply returns_bind; [apply lift_ok, Hl|].
  apply returns_total.
  apply total_bind;
    [apply total_draw_sampled_indices, Forall2_le_np_repeat, Hle
    | intros sampled].
  apply total_bind.
  - unfold sps_extended. apply total_for_each. intros i st Hi.
    apply in_seq in Hi.
    destruct (py_in i sampled); [|apply total_ret].
    apply total_bind;
      [apply total_param_shift_step;
         [assumption | lia | lia | apply Hz; lia]
      | intros r].
    apply total_bind;
      [eapply total_lift, (get_item_nth n_shots_list i None); lia
      | intros; apply total_ret].
  - intros st.
    destruct (ext_to_std_returns params (fst (fst st))) as [g Hg].
    destruct (ext_to_std_returns params (snd (fst st))) as [v Hv].
    apply total_bind; [eapply total_lift, Hg | intros].
    apply total_bind; [eapply total_lift, Hv | intros; apply total_ret].
Qed.

(** C4: in variance mode the third component returned is twice the sum of
    the allocated shot counts for finite difference (the per-parameter
    list) and for parameter shift (the list over the extended parameters),
    twice the single shot count for SPSA, and, for stochastic parameter
    shift, twice the sum of the shot counts of the sampled extended indices
    only; and each estimator does return on integer shot counts when the
    backend's histograms hold a steady number of shots and the divisors are
    not zero. *)
Theorem shots_used_reported backend_obj params params_ext eta n_sample args
    w :
  (* finite difference *)
  (forall n_shots,
     (forall out w',
        grad_fd_func backend_obj params eta true args n_shots w
        = (Ok out, w') ->
        exists n_shots_list,
          __create_n_shots_list (length args) n_shots = Ok n_shots_list
          /\ output_shots out = Some (2 * sum_shots n_shots_list))
     /\ (forall n_shots_list,
           steady_totals backend_obj ->
           fis_zero eta = false ->
           __create_n_shots_list (length args) n_shots = Ok n_shots_list ->
           Forall (fun s => s <> None) n_shots_list ->
           returns (grad_fd_func backend_obj params eta true args n_shots)
                   w))
  (* parameter shift *)
  /\ (forall n_shots,
        (forall out w',
           grad_ps_func backend_obj params params_ext true args n_shots w
           = (Ok out, w') ->
           exists n_shots_list,
             __create_n_shots_ext_list (length args)
               (np_repeat (family_sizes params) (p params)) n_shots
             = Ok n_shots_list
             /\ output_shots out = Some (2 * sum_shots n_shots_list))
        /\ (forall n_shots_list,
              steady_totals backend_obj ->
              __create_n_shots_ext_list (length args)
                (np_repeat (family_sizes params) (p params)) n_shots
              = Ok n_shots_list ->
              Forall (fun s => s <> None) n_shots_list ->
              (length (convert_to_ext params args)
               <= length (coeffs_list_of params))%nat ->
              (length (convert_to_ext params args)
               <= length n_shots_list)%nat ->
              (forall i, (i < length (convert_to_ext params args))%nat ->
                 fis_zero (fmul (of_Z 4)
                             (nth i (coeffs_list_of params) (of_Z 0)))
                 = false) ->
              returns
                (grad_ps_func backend_obj params params_ext true args
                              n_shots) w))
  (* SPSA *)
  /\ (forall n_shots,
        (forall out w',
           grad_spsa_func backend_obj params eta true args n_shots w
           = (Ok out, w') ->
           exists n, n_shots = Some n /\ output_shots out = Some (2 * n))
        /\ (forall n,
              steady_totals backend_obj ->
              fis_zero eta = false ->
              n_shots = Some n ->
              returns
                (grad_spsa_func backend_obj params eta true args n_shots) w))
  (* stochastic parameter shift *)
  /\ (forall n_shots,
        (forall out w',
           grad_sps_func backend_obj params params_ext n_sample true args
                         n_shots w
           = (Ok out, w') ->
           exists n_shots_list std_list sampled_indices w2,
             __create_n_shots_ext_list (length args)
               (np_repeat (family_sizes params) (p params)) n_shots
             = Ok n_shots_list
             /\ __create_n_shots_list (length args) n_shots = Ok std_list
             /\ draw_sampled_indices
                  (group_bounds
                     (np_repeat (family_sizes params) (p params)))
                  (np_repeat n_sample (p params))
                  (snd (log_n_shots std_list w))
                = (Ok sampled_indices, w2)
             /\ output_shots out
                = Some (2 * sum_shots
                              (sampled_shots n_shots_list sampled_indices
                                 (length (convert_to_ext params args)))))
        /\ (forall n_shots_list,
              steady_totals backend_obj ->
              Forall2 le n_sample (family_sizes params) ->
              __create_n_shots_ext_list (length args)
                (np_repeat (family_sizes params) (p params)) n_shots
              = Ok n_shots_list ->
              (length (convert_to_ext params args)
               <= length (coeffs_list_of params))%nat ->
              (length (convert_to_ext params args)
               <= length n_shots_list)%nat ->
              (forall i, (i < length (convert_to_ext params args))%nat ->
                 fis_zero (fmul (of_Z 4)
                             (nth i (coeffs_list_of params) (of_Z 0)))
                 = false) ->
              returns
                (grad_sps_func backend_obj params params_ext n_sample true
                               args n_shots) w)).
Proof.
  split; [|split; [|split]]; intros n_shots; split.
  - intros out w'; apply grad_fd_shots.
  - intros nsl; apply grad_fd_returns.
  - intros out w'; apply grad_ps_shots.
  - intros nsl; apply grad_ps_returns.
  - intros out w'; apply grad_spsa_shots.
  - intros n Hs He ->; now apply grad_spsa_returns.
  - intros out w'; apply grad_sps_shots.
  - intros nsl; apply grad_sps_returns.
Qed.

(** ** The group sums the code forms *)

(** Entry 0 of the list comprehension slices [x_ext] from the last bound to
    the first, which is empty. *)
Lemma code_group_sum_first (v : list nat) (x_ext : list F) :
  code_group_sum (group_bounds v) x_ext 0 = of_Z 0.
Proof. unfold code_group_sum, py_slice; cbn. now rewrite skipn_nil. Qed.

(** Entry [i + 1] is the total of group [i]: every group is moved one
    place, and the last group is left out. *)
Lemma code_group_sum_next (l : list nat) (x_ext : list F) i :
  code_group_sum l x_ext (S i) = group_total l x_ext i.
Proof.
  unfold code_group_sum, group_total, code_lower; cbn [Nat.eqb].
  now rewrite Nat.add_1_r, Nat.sub_1_r.
Qed.

Lemma py_slice_map_seq {B} (g : nat -> B) a b n :
  (b <= n)%nat -> py_slice (map g (seq 0 n)) a b = map g (seq a (b - a)).
Proof.
  intros L; unfold py_slice.
  replace n with (b + (n - b))%nat by lia.
  rewrite seq_app, map_app, firstn_app, length_map, length_seq.
  rewrite Nat.sub_diag, firstn_O, app_nil_r.
  rewrite firstn_all2 by (rewrite length_map, length_seq; lia).
  now rewrite skipn_map, skipn_seq.
Qed.

Lemma map2_map_seq {B C D} (f : B -> C -> D) (g : nat -> B) (h : nat -> C)
    a b n :
  map2 f (map g (seq a n)) (map h (seq b n))
  = map (fun j => f (g (a + j)%nat) (h (b + j)%nat)) (seq 0 n).
Proof.
  revert a b; induction n as [|n IH]; intros a b; cbn [seq map map2];
    [reflexivity|].
  rewrite !Nat.add_0_r. f_equal.
  rewrite IH, <- seq_shift, map_map.
  apply map_ext; intros j. now rewrite !Nat.add_succ_comm.
Qed.

(** What the conversion returns on every input: the shape the
    specification asks for, over the code's group sums. *)
Lemma ext_to_std_code (l : list nat) (p : nat) (x_ext : list F) :
  length l = S (4 * p) ->
  ext_to_std l p x_ext
  = Ok (map (fun layer => fadd (code_group_sum l x_ext layer)
                               (code_group_sum l x_ext (p + layer)))
            (range p)
        ++ map (fun layer => fadd (code_group_sum l x_ext (2 * p + layer))
                                  (code_group_sum l x_ext (3 * p + layer)))
               (range p)).
Proof.
  intros L. rewrite ext_to_std_run by exact L. cbv zeta. unfold range.
  rewrite !py_slice_map_seq by lia.
  replace (1 * p - 0 * p)%nat with p by lia.
  replace (2 * p - 1 * p)%nat with p by lia.
  replace (3 * p - 2 * p)%nat with p by lia.
  replace (4 * p - 3 * p)%nat with p by lia.
  unfold vadd. rewrite !map2_map_seq.
  do 2 f_equal; apply map_ext; intros j; do 2 f_equal; lia.
Qed.

Lemma length_ext_to_std (l : list nat) (p : nat) (x_ext std : list F) :
  length l = S (4 * p) ->
  ext_to_std l p x_ext = Ok std -> length std = (2 * p)%nat.
Proof.
  intros L E. rewrite ext_to_std_code in E by exact L.
  injection E as <-. rewrite length_app, !length_map.
  unfold range; rewrite length_seq. lia.
Qed.

(** * Further properties *)

(** ** Counting the calls of computations that return *)

Lemma emits_ret {A} P (a : A) : emits P 0 (@ret F A a).
Proof.
  intros w; exists a, w, []; rewrite app_nil_r; repeat split; constructor.
Qed.

Lemma emits_lift {A} P (r : result A) a : r = Ok a -> emits P 0 (@lift F A r).
Proof. intros ->; apply emits_ret. Qed.

Lemma emits_bind {A B} P k1 k2 (m : @M F A) (k : A -> @M F B) :
  emits P k1 m -> (forall a, emits P k2 (k a)) ->
  emits P (k1 + k2) (bind m k).
Proof.
  intros Hm Hk w.
  destruct (Hm w) as (a & w1 & new1 & E1 & C1 & L1 & P1).
  destruct (Hk a w1) as (b & w2 & new2 & E2 & C2 & L2 & P2).
  exists b, w2, (new1 ++ new2).
  rewrite (bind_ok _ _ _ _ _ E1). split; [exact E2|].
  split; [now rewrite C2, C1, app_assoc|].
  split; [rewrite length_app; lia | now apply Forall_app].
Qed.

Lemma emits_count {A} P k k' (m : @M F A) : k = k' -> emits P k m -> emits P k' m.
Proof. now intros ->. Qed.

Lemma emits_for_each {A S} P (k : A -> nat) (xs : list A)
    (body : A -> S -> @M F S) :
  (forall x s, In x xs -> emits P (k x) (body x s)) ->
  forall s, emits P (list_sum (map k xs)) (for_each xs body s).
Proof.
  induction xs as [|x xs IH]; intros Hb s; cbn [for_each map].
  - apply emits_ret.
  - change (list_sum (k x :: map k xs)) with (k x + list_sum (map k xs))%nat.
    apply emits_bind; [apply Hb; now left|].
    intros s'; apply IH; intros; apply Hb; now right.
Qed.

Lemma emits_log_n_shots P l : emits P 0 (@log_n_shots F l).
Proof.
  intros w; do 2 eexists; exists []; split; [reflexivity|].
  cbn [calls]; rewrite app_nil_r; repeat split; constructor.
Qed.

Lemma emits_np_random_randint_0_2 P size :
  emits P 0 (@np_random_randint_0_2 F size).
Proof.
  intros w; unfold np_random_randint_0_2.
  destruct (np_random w); do 2 eexists; exists [];
    (split; [reflexivity|]); cbn [calls]; rewrite app_nil_r;
    repeat split; constructor.
Qed.

Lemma emits_update_and_compute_expectation (P : @BackendCall F -> Prop)
    backend_obj params args n_shots :
  (forall fe je,
     P {| call_kind := CallExpectation;
          call_params := update_from_raw params args;
          call_n_shots := n_shots_dict n_shots;
          call_func_evals := fe;
          call_jac_func_evals := je |}) ->
  emits P 1 (update_and_compute_expectation backend_obj params args n_shots).
Proof.
  intros HP w. rewrite update_and_compute_expectation_run.
  do 3 eexists; split; [reflexivity|]. split; [reflexivity|].
  split; [reflexivity|]. constructor; [apply HP | constructor].
Qed.

Lemma emits_update_and_get_counts (P : @BackendCall F -> Prop)
    backend_obj params args n_shots :
  (forall fe je,
     P {| call_kind := CallGetCounts;
          call_params := update_from_raw params args;
          call_n_shots := n_shots_dict n_shots;
          call_func_evals := fe;
          call_jac_func_evals := je |}) ->
  emits P 1 (update_and_get_counts backend_obj params args n_shots).
Proof.
  intros HP w. rewrite update_and_get_counts_run.
  do 3 eexists; split; [reflexivity|]. split; [reflexivity|].
  split; [reflexivity|]. constructor; [apply HP | constructor].
Qed.

Lemma emits_gradient backend_obj params args variance vect_eta constant
    n_shots :
  steady_totals backend_obj ->
  emits (fun _ => True) 2
    (__gradient args backend_obj params variance vect_eta constant n_shots).
Proof.
  intros Hsteady w; unfold __gradient; destruct variance.
  - rewrite fun_w_variance_run.
    rewrite np_subtract_same
      by (rewrite !length_shot_costs; apply Hsteady).
    do 3 eexists; split; [reflexivity|]. cbn [record_call calls].
    rewrite <- app_assoc. split; [reflexivity|].
    split; [reflexivity | repeat constructor].
  - rewrite fun_expectation_run.
    do 3 eexists; split; [reflexivity|]. cbn [record_call calls].
    rewrite <- app_assoc. split; [reflexivity|].
    split; [reflexivity | repeat constructor].
Qed.

(** ** The finite-difference gradient *)

Lemma fd_step_run backend_obj params eta args n_shots_list i w :
  fis_zero eta = false ->
  (i < length n_shots_list)%nat ->
  bind (lift (py_div (of_Z 1) eta)) (fun const =>
  bind (lift (get_item n_shots_list i)) (fun shots_i =>
    __gradient args backend_obj params false
      (set_item (np_zeros (length args)) i (fdiv eta (of_Z 2)))
      const shots_i)) w
  = (Ok (fd_estimate backend_obj params eta args n_shots_list i, of_Z 0),
     let v := fd_vector eta (length args) i in
     let kwargs := n_shots_dict (nth i n_shots_list None) in
     record_call CallExpectation (update_from_raw params (vsub args v)) kwargs
       (record_call CallExpectation (update_from_raw params (vadd args v))
          kwargs w)).
Proof.
  intros Heta Li. unfold py_div; rewrite Heta.
  rewrite (bind_ok _ _ _ _ _ (lift_ok _ _ _ eq_refl)).
  rewrite (bind_ok _ _ _ _ _
             (lift_ok _ _ _ (get_item_nth n_shots_list i None Li))).
  reflexivity.
Qed.

(** X1: in expectation mode, with a step size other than zero,
    [grad_fd_func] returns for every parameter [i] the central difference
    [(1 / eta) * (E(args + v) - E(args - v))], where [v] is [eta / 2] in
    slot [i] and zero elsewhere; the backend receives exactly these two
    expectation requests for each parameter, in this order, each with the
    shot count allocated to that parameter. *)
Theorem finite_difference_rule backend_obj params eta args n_shots
    n_shots_list w :
  __create_n_shots_list (length args) n_shots = Ok n_shots_list ->
  fis_zero eta = false ->
  exists grad w',
    grad_fd_func backend_obj params eta false args n_shots w
    = (Ok (Grad grad), w')
    /\ length grad = length args
    /\ (forall i, (i < length args)%nat ->
          nth_error grad i
          = Some (fd_estimate backend_obj params eta args n_shots_list i))
    /\ map call_request (calls w')
       = map call_request (calls w)
         ++ flat_map (fd_requests params eta args n_shots_list)
                     (range (length args)).
Proof.
  intros Hshots Heta.
  pose proof (create_n_shots_list_length _ _ _ Hshots) as Ls.
  set (f := fun (i : nat) (gv : list F * list F) =>
              (set_item (fst gv) i
                 (fd_estimate backend_obj params eta args n_shots_list i),
               set_item (snd gv) i (of_Z 0))).
  set (g := fun (i : nat) (w : @World F) =>
              let v := fd_vector eta (length args) i in
              let kwargs := n_shots_dict (nth i n_shots_list None) in
              record_call CallExpectation
                (update_from_raw params (vsub args v)) kwargs
                (record_call CallExpectation
                   (update_from_raw params (vadd args v)) kwargs w)).
  unfold grad_fd_func.
  rewrite (bind_ok _ _ _ _ _ (lift_ok _ _ _ Hshots)).
  rewrite (bind_ok _ _ _ _ _ (eq_refl : ret tt w = (Ok tt, w))).
  erewrite bind_ok.
  2:{ apply (for_each_pure _ _ f g).
      intros i gv w0 Hi. apply in_seq in Hi.
      pose proof (fd_step_run backend_obj params eta args n_shots_list i w0
                    Heta ltac:(lia)) as E.
      unfold bind, lift, py_div in E |- *. rewrite Heta in E |- *.
      cbn [ret] in E |- *.
      destruct (get_item n_shots_list i) as [shots_i|e]; cbn [ret raise] in *;
        [|discriminate].
      rewrite E. reflexivity. }
  pose proof
    (fold_left_pair
       (fun i gr =>
          set_item gr i
            (fd_estimate backend_obj params eta args n_shots_list i))
       (fun i va => set_item va i (of_Z 0))
       (range (length args))
       (np_zeros (length args)) (np_zeros (length args))) as P.
  cbv beta in P. unfold f at 1. rewrite P. clear P. cbn [fst snd].
  do 2 eexists. split; [reflexivity|].
  split; [now rewrite fold_set_item_length, length_np_zeros|].
  split.
  { intros i Hi.
    apply fold_set_item_get with
      (e := fd_estimate backend_obj params eta args n_shots_list).
    - apply in_seq; lia.
    - now rewrite length_np_zeros. }
  apply calls_fold_left. intros i w0 _. unfold g, fd_requests; cbn.
  rewrite !map_app, <- app_assoc. reflexivity.
Qed.

(** ** The number of evaluations of the Hessian *)

Lemma emits_hessian_diagonal backend_obj params eta args vect_eta1 :
  emits plain_expectation 5
    (hessian_diagonal backend_obj params eta args vect_eta1).
Proof.
  unfold hessian_diagonal.
  apply (emits_count _ (1 + (1 + (1 + (1 + (1 + 0)))))); [reflexivity|].
  repeat (apply emits_bind;
          [apply emits_update_and_compute_expectation;
             intros; split; reflexivity
          |intros]).
  apply emits_ret.
Qed.

Lemma emits_hessian_off_diagonal backend_obj params eta args vect_eta1
    vect_eta2 :
  emits plain_expectation 4
    (hessian_off_diagonal backend_obj params eta args vect_eta1 vect_eta2).
Proof.
  unfold hessian_off_diagonal.
  apply (emits_count _ (1 + (1 + (1 + (1 + 0))))); [reflexivity|].
  repeat (apply emits_bind;
          [apply emits_update_and_compute_expectation;
             intros; split; reflexivity
          |intros]).
  apply emits_ret.
Qed.

Lemma list_sum_row (i s m : nat) :
  list_sum (map (fun j => if Nat.eqb i j then 5 else 4)%nat (seq s m))
  = (4 * m + (if Nat.leb s i && Nat.ltb i (s + m) then 1 else 0))%nat.
Proof.
  revert s; induction m as [|m IH]; intros s.
  - cbn [seq map]. unfold list_sum; cbn [fold_right].
    destruct (Nat.leb_spec s i), (Nat.ltb_spec i (s + 0)); cbn; lia.
  - cbn [seq map].
    change (list_sum (?a :: ?t)) with (a + list_sum t)%nat.
    rewrite IH.
    destruct (Nat.eqb_spec i s), (Nat.leb_spec s i), (Nat.leb_spec (S s) i),
      (Nat.ltb_spec i (s + S m)), (Nat.ltb_spec i (S s + m)); cbn; lia.
Qed.

Lemma list_sum_constant {A} (c : nat) (xs : list A) :
  list_sum (map (fun _ => c) xs) = (length xs * c)%nat.
Proof.
  induction xs as [|x xs IH]; [reflexivity|].
  cbn [map length]. change (list_sum (?a :: ?t)) with (a + list_sum t)%nat.
  rewrite IH; lia.
Qed.

Lemma emits_hessian_fd_func backend_obj params eta args :
  emits plain_expectation (length args * (4 * length args + 1))
    (hessian_fd_func backend_obj params eta args).
Proof.
  unfold hessian_fd_func.
  apply (emits_count _ (length args * (4 * length args + 1) + 0));
    [lia|].
  apply emits_bind; [|intros; apply emits_ret].
  eapply emits_count;
    [|apply (emits_for_each _ (fun _ => (4 * length args + 1)%nat))].
  { unfold range; now rewrite list_sum_constant, length_seq. }
  intros i hess Hi. apply in_seq in Hi.
  eapply emits_count;
    [|apply (emits_for_each _ (fun j => if Nat.eqb i j then 5 else 4)%nat)].
  { unfold range; rewrite list_sum_row.
    destruct (Nat.leb_spec 0 i), (Nat.ltb_spec i (0 + length args));
      cbn; lia. }
  intros j hess' _.
  destruct (Nat.eqb i j).
  - apply (emits_count _ (5 + 0)); [reflexivity|].
    apply emits_bind; [apply emits_hessian_diagonal|intros; apply emits_ret].
  - apply (emits_count _ (4 + 0)); [reflexivity|].
    apply emits_bind;
      [apply emits_hessian_off_diagonal|intros; apply emits_ret].
Qed.

(** X2: for [n] parameters [hessian_fd_func] returns after exactly
    [n * (4 * n + 1)] backend calls (five for each diagonal entry, four for
    each of the others), all of them expectation requests without the
    [n_shots] keyword, and both counters of the logger grow by that
    number. *)
Theorem hessian_evaluations backend_obj params eta args w :
  let n := length args in
  exists hess w' new,
    hessian_fd_func backend_obj params eta args w = (Ok (Hess hess), w')
    /\ calls w' = calls w ++ new
    /\ length new = (n * (4 * n + 1))%nat
    /\ Forall plain_expectation new
    /\ func_evals (logger w')
       = func_evals (logger w) + Z.of_nat (n * (4 * n + 1))
    /\ jac_func_evals (logger w')
       = jac_func_evals (logger w) + Z.of_nat (n * (4 * n + 1)).
Proof.
  intros n.
  destruct (emits_hessian_fd_func backend_obj params eta args w)
    as (out & w' & new & E & C & L & P).
  destruct (tallied_hessian_fd_func backend_obj params eta args w)
    as (new' & C' & Hfe & Hje & _).
  rewrite E in C', Hfe, Hje; cbn [snd] in C', Hfe, Hje.
  rewrite C in C'; apply app_inv_head in C'; subst new'.
  assert (exists hess, out = Hess hess) as [hess ->].
  { unfold hessian_fd_func in E.
    apply bind_inv in E as (h & w1 & _ & E).
    apply ret_inv in E as [-> _]. now exists h. }
  exists hess, w', new. rewrite L in Hfe, Hje. auto 10.
Qed.

(** ** A step size of zero *)

(** X3: with a step size of zero (a Python number, so that [1/eta] raises)
    [grad_fd_func] raises [ZeroDivisionError] without any backend call as
    soon as there is one parameter, but returns the empty gradient when there
    is none, since the division stands inside the loop; [grad_spsa_func]
    raises [ZeroDivisionError] without any backend call in every case. *)
Theorem zero_stepsize backend_obj params eta variance args n_shots
    n_shots_list shots w :
  fis_zero eta = true ->
  __create_n_shots_list (length args) n_shots = Ok n_shots_list ->
  (args <> [] ->
   exists w',
     grad_fd_func backend_obj params eta variance args n_shots w
     = (Raise ZeroDivisionError, w')
     /\ calls w' = calls w)
  /\ (args = [] ->
      exists w',
        grad_fd_func backend_obj params eta variance args n_shots w
        = (Ok (if variance then GradVar [] [] 0 else Grad []), w')
        /\ calls w' = calls w)
  /\ exists w',
       grad_spsa_func backend_obj params eta variance args shots w
       = (Raise ZeroDivisionError, w')
       /\ calls w' = calls w.
Proof.
  intros Heta Hshots. split; [|split].
  - intros Hne. unfold grad_fd_func.
    rewrite (bind_ok _ _ _ _ _ (lift_ok _ _ _ Hshots)).
    destruct args as [|a args]; [contradiction|].
    cbn [length range seq for_each].
    unfold py_div; rewrite Heta.
    destruct variance; eexists; (split; [reflexivity|reflexivity]).
  - intros ->. unfold grad_fd_func.
    rewrite (bind_ok _ _ _ _ _ (lift_ok _ _ _ Hshots)).
    apply create_n_shots_list_length in Hshots.
    destruct n_shots_list; [|discriminate].
    destruct variance; eexists; (split; [reflexivity|reflexivity]).
  - unfold grad_spsa_func, py_div; rewrite Heta.
    unfold bind, np_random_randint_0_2.
    destruct variance; cbn; destruct (np_random w);
      eexists; (split; [reflexivity|reflexivity]).
Qed.

(** ** A missing shot count in variance mode *)

Lemma py_sum_none v acc : In None v -> py_sum v acc = Raise TypeError.
Proof.
  revert acc; induction v as [|[n|] v IH]; intros acc Hin; cbn [py_sum].
  - destruct Hin.
  - apply IH. destruct Hin as [E|Hin]; [discriminate | exact Hin].
  - reflexivity.
Qed.

Lemma emits_fd_loop backend_obj params eta variance args n_shots_list s :
  steady_totals backend_obj ->
  fis_zero eta = false ->
  length n_shots_list = length args ->
  emits (fun _ => True) (length args * 2)
    (for_each (range (length args))
       (fun i gv =>
          let vect_eta := np_zeros (length args) in
          let vect_eta := set_item vect_eta i (fdiv eta (of_Z 2)) in
          const <- lift (py_div (of_Z 1) eta) ;;
          shots_i <- lift (get_item n_shots_list i) ;;
          r <- __gradient args backend_obj params variance vect_eta const
                          shots_i ;;
          ret (set_item (fst gv) i (fst r), set_item (snd gv) i (snd r)))
       s).
Proof.
  intros Hsteady Heta Ls.
  eapply emits_count; [|apply (emits_for_each _ (fun _ => 2%nat))].
  { unfold range; now rewrite list_sum_constant, length_seq. }
  intros i gv Hi. apply in_seq in Hi. cbv zeta.
  apply (emits_count _ (0 + (0 + (2 + 0)))); [reflexivity|].
  apply emits_bind;
    [apply (emits_lift _ _ (fdiv (of_Z 1) eta)); unfold py_div;
       now rewrite Heta|].
  intros const. apply emits_bind;
    [apply (emits_lift _ _ (nth i n_shots_list None)), get_item_nth; lia|].
  intros shots_i. apply emits_bind; [now apply emits_gradient|].
  intros r; apply emits_ret.
Qed.

(** X4: in variance mode a shot count that is [None] is only noticed when
    the shots used are added up, after the backend has done all the work:
    on a backend with steady totals and with a step size other than zero,
    [grad_fd_func] raises [TypeError] after two backend calls for each
    parameter when some allocated shot count is [None], and
    [grad_spsa_func] called with [n_shots = None] raises [TypeError] after
    its two backend calls. *)
Theorem missing_shot_count backend_obj params eta args n_shots n_shots_list
    w :
  steady_totals backend_obj ->
  fis_zero eta = false ->
  __create_n_shots_list (length args) n_shots = Ok n_shots_list ->
  In None n_shots_list ->
  (exists w',
     grad_fd_func backend_obj params eta true args n_shots w
     = (Raise TypeError, w')
     /\ length (calls w') = (length (calls w) + 2 * length args)%nat)
  /\ exists w',
       grad_spsa_func backend_obj params eta true args None w
       = (Raise TypeError, w')
       /\ length (calls w') = (length (calls w) + 2)%nat.
Proof.
  intros Hsteady Heta Hshots Hnone.
  pose proof (create_n_shots_list_length _ _ _ Hshots) as Ls.
  split.
  - unfold grad_fd_func.
    rewrite (bind_ok _ _ _ _ _ (lift_ok _ _ _ Hshots)).
    erewrite bind_ok by reflexivity.
    match goal with
    | |- context [bind (for_each _ _ ?s) _ ?w1] =>
        destruct (emits_fd_loop backend_obj params eta true args n_shots_list
                    s Hsteady Heta Ls w1)
          as (gv & w2 & new & E & C & L & _)
    end.
    rewrite (bind_ok _ _ _ _ _ E).
    rewrite (bind_raise _ _ _ _ _
               (lift_raise _ _ _ (py_sum_none n_shots_list 0 Hnone))).
    exists w2; split; [reflexivity|].
    rewrite C, length_app, L; cbn [calls log_n_shots snd]; lia.
  - unfold grad_spsa_func.
    erewrite bind_ok by reflexivity.
    match goal with
    | |- context [bind (np_random_randint_0_2 _) _ ?w1] =>
        destruct (emits_np_random_randint_0_2 (fun _ => True) (length args)
                    w1) as (bits & w2 & new0 & E0 & C0 & L0 & _)
    end.
    rewrite (bind_ok _ _ _ _ _ E0).
    unfold py_div; rewrite Heta.
    rewrite (bind_ok _ _ _ _ _ (lift_ok _ _ _ eq_refl)).
    match goal with
    | |- context [bind (__gradient ?a ?b ?c true ?v ?k ?n) _ w2] =>
        destruct (emits_gradient b c a true v k n Hsteady w2)
          as (r & w3 & new & E & C & L & _)
    end.
    rewrite (bind_ok _ _ _ _ _ E).
    exists w3; split; [reflexivity|].
    rewrite C, C0, !length_app, L, L0; cbn [calls log_n_shots snd]; lia.
Qed.

(** ** SPSA *)

Lemma np_random_randint_0_2_run size (w : @World F) :
  exists w',
    np_random_randint_0_2 size w = (Ok (next_bits w size), w')
    /\ logger w' = logger w /\ calls w' = calls w
    /\ np_random w' = tl (np_random w).
Proof.
  unfold np_random_randint_0_2, next_bits.
  destruct (np_random w) as [|drawn rest] eqn:E; eexists;
    (split; [reflexivity|]); cbn; auto.
Qed.

(** X5: in expectation mode, with a step size other than zero,
    [grad_spsa_func] draws one vector of signs [delta = 2 * bits - 1],
    asks the backend for exactly two expectations, at [args + delta*eta/2]
    and at [args - delta*eta/2], whatever the number of parameters, and
    returns [g * delta] for the single difference quotient
    [g = (1 / eta) * (E(args + v) - E(args - v))]. *)
Theorem spsa_rule backend_obj params eta args n_shots w :
  fis_zero eta = false ->
  let delta := spsa_delta (next_bits w (length args)) in
  let v := spsa_vector eta delta in
  let kwargs := n_shots_dict n_shots in
  let g :=
    fmul (fdiv (of_Z 1) eta)
      (fsub (expectation backend_obj (update_from_raw params (vadd args v))
                         kwargs)
            (expectation backend_obj (update_from_raw params (vsub args v))
                         kwargs)) in
  exists w',
    grad_spsa_func backend_obj params eta false args n_shots w
    = (Ok (Grad (map (fun d => fmul g (of_Z d)) delta)), w')
    /\ map call_request (calls w')
       = map call_request (calls w)
         ++ [ (CallExpectation, update_from_raw params (vadd args v), kwargs);
              (CallExpectation, update_from_raw params (vsub args v), kwargs) ]
    /\ np_random w' = tl (np_random w).
Proof.
  intros Heta delta v kwargs g.
  unfold grad_spsa_func.
  erewrite bind_ok by reflexivity.
  destruct (np_random_randint_0_2_run (length args) w)
    as (w1 & E1 & _ & C1 & R1).
  rewrite (bind_ok _ _ _ _ _ E1).
  unfold py_div; rewrite Heta.
  rewrite (bind_ok _ _ _ _ _ (lift_ok _ _ _ eq_refl)).
  unfold __gradient.
  erewrite bind_ok by apply fun_expectation_run.
  eexists; split; [reflexivity|].
  cbn [record_call calls np_random].
  rewrite !map_app, <- app_assoc, C1. split; [reflexivity | exact R1].
Qed.

(** ** The extended shot list *)

Lemma firstn_repeat {A} (x : A) k m :
  (k <= m)%nat -> firstn k (repeat x m) = repeat x k.
Proof.
  revert m; induction k as [|k IH]; intros [|m] L; cbn; try reflexivity;
    try lia.
  f_equal; apply IH; lia.
Qed.

Lemma skipn_repeat {A} (x : A) k m :
  skipn k (repeat x m) = repeat x (m - k).
Proof.
  revert m; induction k as [|k IH]; intros [|m]; cbn; try reflexivity.
  apply IH.
Qed.

Lemma flat_map_combine_constant {A} (x : A) (sizes : list nat) m :
  (length sizes <= m)%nat ->
  flat_map (fun rs => repeat (snd rs) (fst rs)) (combine sizes (repeat x m))
  = repeat x (list_sum sizes).
Proof.
  revert m; induction sizes as [|a sizes IH]; intros m L; [reflexivity|].
  destruct m as [|m]; cbn [length] in L; [lia|].
  cbn [repeat combine flat_map fst snd].
  change (list_sum (a :: sizes)) with (a + list_sum sizes)%nat.
  rewrite repeat_app, IH by lia. reflexivity.
Qed.

Lemma half_of_double k : Nat.div (2 * k) 2 = k.
Proof. rewrite Nat.mul_comm; apply Nat.div_mul; discriminate. Qed.

Lemma repeat_rows_twice_run {A} (a : list A) k :
  length a = (2 * k)%nat ->
  repeat_rows_twice a
  = Ok (firstn k a ++ firstn k a ++ skipn k a ++ skipn k a).
Proof.
  intros L; unfold repeat_rows_twice.
  rewrite L, half_of_double, Nat.eqb_refl. reflexivity.
Qed.

(** X6: one shot count for all parameters is the same as the list that
    gives this count to each of the [2 p] standard parameters: both
    allocators return the same list for the two ways of writing it. *)
Theorem scalar_shots_as_list params (n : option Z) :
  let n_params := (2 * p params)%nat in
  let n_associated_params := np_repeat (family_sizes params) (p params) in
  __create_n_shots_list n_params (ShotsList (repeat n n_params))
  = __create_n_shots_list n_params (ShotsScalar n)
  /\ __create_n_shots_ext_list n_params n_associated_params
       (ShotsList (repeat n n_params))
     = __create_n_shots_ext_list n_params n_associated_params
         (ShotsScalar n).
Proof.
  intros n_params n_associated_params.
  unfold __create_n_shots_list, __create_n_shots_ext_list.
  rewrite repeat_length, Nat.eqb_refl. split; [reflexivity|].
  rewrite (repeat_rows_twice_run _ (p params)) by apply repeat_length.
  unfold n_params.
  rewrite firstn_repeat, skipn_repeat by lia.
  replace (2 * p params - p params)%nat with (p params) by lia.
  rewrite <- !repeat_app.
  rewrite flat_map_combine_constant; [reflexivity|].
  unfold n_associated_params.
  rewrite length_np_repeat; cbn [family_sizes length]; lia.
Qed.

Lemma sum_shots_app u v : sum_shots (u ++ v) = sum_shots u + sum_shots v.
Proof.
  unfold sum_shots; induction u as [|x u IH]; cbn [app fold_right];
    [reflexivity|].
  rewrite IH; lia.
Qed.

Lemma sum_shots_spread (a : nat) (row : list (option Z)) :
  sum_shots (flat_map (fun x => repeat x a) row)
  = Z.of_nat a * sum_shots row.
Proof.
  induction row as [|x row IH]; cbn [flat_map].
  - unfold sum_shots; cbn; lia.
  - rewrite sum_shots_app, IH.
    assert (E : sum_shots (repeat x a)
                = Z.of_nat a * match x with Some n => n | None => 0 end).
    { clear IH; induction a as [|a IHa]; [cbn; lia|].
      cbn [repeat]. unfold sum_shots in *; cbn [fold_right].
      rewrite IHa; lia. }
    rewrite E.
    change (sum_shots (x :: row))
      with (match x with Some n => n | None => 0 end + sum_shots row).
    lia.
Qed.

Lemma length_spread {A} (a : nat) (row : list A) :
  length (flat_map (fun x => repeat x a) row) = (a * length row)%nat.
Proof.
  induction row as [|x row IH]; cbn [flat_map length]; [lia|].
  rewrite length_app, repeat_length, IH; lia.
Qed.

(** X7: when [__create_n_shots_ext_list] expands a list of shot counts for
    the [2 p] standard parameters, the extended list has one entry for each
    gate of each layer, and its sum is the sum of the counts of the mixer
    angles times the number of mixer gates of a layer, plus the sum of the
    counts of the cost angles times the number of cost gates of a layer. *)
Theorem extended_shots_total params (shots n_shots_list : list (option Z)) :
  let mixer_gates :=
    (length (mixer_1q_coeffs params) + length (mixer_2q_coeffs params))%nat in
  let cost_gates :=
    (length (cost_1q_coeffs params) + length (cost_2q_coeffs params))%nat in
  __create_n_shots_ext_list (2 * p params)
    (np_repeat (family_sizes params) (p params)) (ShotsList shots)
  = Ok n_shots_list ->
  length n_shots_list = (p params * (mixer_gates + cost_gates))%nat
  /\ sum_shots n_shots_list
     = weighted_shots (p params) mixer_gates cost_gates shots.
Proof.
  intros mixer_gates cost_gates.
  unfold __create_n_shots_ext_list.
  destruct (Nat.eqb_spec (length shots) (2 * p params)) as [L|]; [|discriminate].
  rewrite (repeat_rows_twice_run _ (p params) L).
  intros [= <-].
  assert (L0 : length (firstn (p params) shots) = p params)
    by (rewrite length_firstn; lia).
  assert (L1 : length (skipn (p params) shots) = p params)
    by (rewrite length_skipn; lia).
  unfold np_repeat, family_sizes; cbn [flat_map]. rewrite app_nil_r.
  rewrite !combine_app_same by (rewrite repeat_length; lia).
  rewrite !flat_map_app, !flat_map_combine_repeat by assumption.
  split.
  - rewrite !length_app, !length_spread, L0, L1. unfold mixer_gates, cost_gates.
    lia.
  - rewrite !sum_shots_app, !sum_shots_spread.
    unfold weighted_shots, mixer_gates, cost_gates. lia.
Qed.

(** ** The shape of what the estimators return *)

Lemma for_each_invariant {A S} (I : S -> Prop) (xs : list A)
    (body : A -> S -> @M F S) :
  (forall x s w s' w', In x xs -> I s -> body x s w = (Ok s', w') -> I s') ->
  forall s w s' w', I s -> for_each xs body s w = (Ok s', w') -> I s'.
Proof.
  induction xs as [|x xs IH]; intros Hb s w s' w' Hs E; cbn [for_each] in E.
  - apply ret_inv in E as [-> _]; exact Hs.
  - apply bind_inv in E as (s1 & w1 & E1 & E2).
    eapply IH; [| |exact E2].
    + intros; eapply Hb; eauto; now right.
    + eapply Hb; eauto; now left.
Qed.

Lemma length_standard_bounds params :
  length (group_bounds (np_repeat (family_sizes params) (p params)))
  = S (4 * p params).
Proof. now rewrite length_group_bounds, length_np_repeat. Qed.

(** X8: whenever [grad_ps_func] or [grad_sps_func] returns, the gradient,
    and in variance mode the variance, has one entry for each of the [2 p]
    standard parameters, whatever the length of the argument vector and of
    its extended form; in variance mode the result is the triple of
    gradient, variance and shots used, otherwise the gradient alone. *)
Theorem standard_form_shape backend_obj params params_ext n_sample variance
    args n_shots w out w' :
  grad_ps_func backend_obj params params_ext variance args n_shots w
  = (Ok out, w')
  \/ grad_sps_func backend_obj params params_ext n_sample variance args
       n_shots w
     = (Ok out, w') ->
  if variance then
    exists grad var n_shots_used,
      out = GradVar grad var n_shots_used
      /\ length grad = (2 * p params)%nat
      /\ length var = (2 * p params)%nat
  else
    exists grad, out = Grad grad /\ length grad = (2 * p params)%nat.
Proof.
  pose proof (length_standard_bounds params) as Ll.
  intros [E | E].
  - unfold grad_ps_func in E.
    apply bind_inv in E as (u & w1 & _ & E).
    apply bind_inv in E as (n_shots_list & w2 & _ & E).
    apply bind_inv in E as (gv & w3 & _ & E).
    apply bind_inv in E as (grad & w4 & Eg & E).
    apply bind_inv in E as (var & w5 & Ev & E).
    apply lift_inv in Eg as [Eg _]. apply lift_inv in Ev as [Ev _].
    apply (length_ext_to_std _ _ _ _ Ll) in Eg.
    apply (length_ext_to_std _ _ _ _ Ll) in Ev.
    destruct variance.
    + apply bind_inv in E as (total & w6 & _ & E).
      apply ret_inv in E as [-> _]. eauto 6.
    + apply ret_inv in E as [-> _]. eauto.
  - unfold grad_sps_func in E.
    apply bind_inv in E as (u & w1 & _ & E).
    apply bind_inv in E as (n_shots_list & w2 & _ & E).
    apply bind_inv in E as (sampled & w3 & _ & E).
    apply bind_inv in E as (st & w4 & _ & E).
    apply bind_inv in E as (grad & w5 & Eg & E).
    apply bind_inv in E as (var & w6 & Ev & E).
    apply lift_inv in Eg as [Eg _]. apply lift_inv in Ev as [Ev _].
    apply (length_ext_to_std _ _ _ _ Ll) in Eg.
    apply (length_ext_to_std _ _ _ _ Ll) in Ev.
    destruct variance; apply ret_inv in E as [-> _]; eauto 6.
Qed.

(** X9: whenever [grad_fd_func] returns, the gradient, and in variance mode
    the variance, has one entry for each argument; whenever
    [grad_spsa_func] returns, they have one entry for each sign drawn from
    the generator.  In variance mode the result is the triple of gradient,
    variance and shots used, otherwise the gradient alone. *)
Theorem direct_form_shape backend_obj params eta variance args n_shots shots
    w out w' :
  (grad_fd_func backend_obj params eta variance args n_shots w = (Ok out, w')
   -> if variance then
        exists grad var n_shots_used,
          out = GradVar grad var n_shots_used
          /\ length grad = length args /\ length var = length args
      else exists grad, out = Grad grad /\ length grad = length args)
  /\ (grad_spsa_func backend_obj params eta variance args shots w
      = (Ok out, w')
      -> let n := length (next_bits w (length args)) in
         if variance then
           exists grad var n_shots_used,
             out = GradVar grad var n_shots_used
             /\ length grad = n /\ length var = n
         else exists grad, out = Grad grad /\ length grad = n).
Proof.
  split.
  - intros E. unfold grad_fd_func in E.
    apply bind_inv in E as (n_shots_list & w1 & _ & E).
    apply bind_inv in E as (u & w2 & _ & E).
    apply bind_inv in E as (gv & w3 & Eloop & E).
    assert (Hgv : length (fst gv) = length args
                  /\ length (snd gv) = length args).
    { revert Eloop.
      apply (for_each_invariant
               (fun gv : list F * list F =>
                  length (fst gv) = length args
                  /\ length (snd gv) = length args)).
      - intros i s w0 s' w0' _ [Hg Hv] Eb.
        apply bind_inv in Eb as (const & w4 & _ & Eb).
        apply bind_inv in Eb as (shots_i & w5 & _ & Eb).
        apply bind_inv in Eb as (r & w6 & _ & Eb).
        apply ret_inv in Eb as [-> _]; cbn [fst snd].
        now rewrite !length_set_item.
      - cbn [fst snd]; now rewrite length_np_zeros. }
    destruct Hgv as [Hg Hv].
    destruct variance.
    + apply bind_inv in E as (total & w4 & _ & E).
      apply ret_inv in E as [-> _]. eauto 6.
    + apply ret_inv in E as [-> _]. eauto.
  - intros E n. unfold grad_spsa_func in E.
    apply bind_inv in E as (u & w1 & Elog & E).
    assert (Hbits : next_bits w1 (length args) = next_bits w (length args)).
    { destruct variance; cbn in Elog; injection Elog as _ <-; reflexivity. }
    apply bind_inv in E as (bits & w2 & Ebits & E).
    destruct (np_random_randint_0_2_run (length args) w1) as (w2' & Er & _).
    rewrite Er in Ebits; injection Ebits as <- _.
    apply bind_inv in E as (const & w3 & _ & E).
    apply bind_inv in E as (r & w4 & _ & E).
    unfold n; rewrite <- Hbits.
    destruct variance.
    + destruct shots as [k|]; [|discriminate].
      apply ret_inv in E as [-> _].
      do 3 eexists; split; [reflexivity|].
      now rewrite !length_map.
    + apply ret_inv in E as [-> _].
      eexists; split; [reflexivity|]. now rewrite !length_map.
Qed.

(** ** The cost of stochastic sampling *)

Lemma gradient_ok_calls backend_obj params args variance vect_eta constant
    n_shots w r w' :
  __gradient args backend_obj params variance vect_eta constant n_shots w
  = (Ok r, w') ->
  length (calls w') = (length (calls w) + 2)%nat.
Proof.
  unfold __gradient; destruct variance; intros E.
  - rewrite fun_w_variance_run in E.
    apply bind_inv in E as (diff & w1 & E1 & E2).
    apply lift_inv in E1 as [_ ->]. apply ret_inv in E2 as [_ ->].
    cbn [record_call calls]. rewrite !length_app; cbn [length]; lia.
  - rewrite fun_expectation_run in E. injection E as _ <-.
    cbn [record_call calls]. rewrite !length_app; cbn [length]; lia.
Qed.

Lemma param_shift_step_calls backend_obj params_ext variance coeffs_list
    args_ext n_shots_list i w r w' :
  param_shift_step coeffs_list args_ext
    (__gradient args_ext backend_obj params_ext variance) n_shots_list i w
  = (Ok r, w') ->
  length (calls w') = (length (calls w) + 2)%nat.
Proof.
  unfold param_shift_step; intros E.
  apply bind_inv in E as (c & w1 & E1 & E).
  apply lift_inv in E1 as [_ ->].
  apply bind_inv in E as (shift & w1 & E1 & E).
  apply lift_inv in E1 as [_ ->].
  apply bind_inv in E as (shots_i & w1 & E1 & E).
  apply lift_inv in E1 as [_ ->].
  eapply gradient_ok_calls; exact E.
Qed.

Lemma sps_loop_calls backend_obj params_ext variance coeffs_list args_ext
    n_shots_list sampled_indices xs :
  forall st w st' w',
    for_each xs
      (fun i st =>
         if py_in i sampled_indices then
           r <- param_shift_step coeffs_list args_ext
                  (__gradient args_ext backend_obj params_ext variance)
                  n_shots_list i ;;
           shots_i <- lift (get_item n_shots_list i) ;;
           ret (set_item (fst (fst st)) i (fst r),
                set_item (snd (fst st)) i (snd r),
                snd st + match shots_i with
                         | Some n => 2 * n
                         | None => 0
                         end)
         else ret st)
      st w = (Ok st', w') ->
    length (calls w')
    = (length (calls w)
       + 2 * length (filter (fun i => py_in i sampled_indices) xs))%nat.
Proof.
  induction xs as [|i xs IH]; intros st w st' w' E; cbn [for_each filter] in *.
  - apply ret_inv in E as [_ ->]. cbn [length]; lia.
  - apply bind_inv in E as (st1 & w1 & Ebody & Erest).
    apply IH in Erest. rewrite Erest.
    destruct (py_in i sampled_indices).
    + apply bind_inv in Ebody as (r & w2 & Estep & Ebody).
      apply param_shift_step_calls in Estep.
      apply bind_inv in Ebody as (shots_i & w3 & Es & Ebody).
      apply lift_inv in Es as [_ ->]. apply ret_inv in Ebody as [_ ->].
      cbn [length]; lia.
    + apply ret_inv in Ebody as [_ ->]. lia.
Qed.

Lemma group_bounds_mono v i j :
  (i <= j)%nat -> (j <= length v)%nat ->
  (nth i (group_bounds v) 0 <= nth j (group_bounds v) 0)%nat.
Proof.
  induction j as [|j IH]; intros Hij Hj.
  - replace i with 0%nat by lia. lia.
  - destruct (Nat.eq_dec i (S j)) as [-> | N]; [lia|].
    rewrite group_bounds_step by lia.
    specialize (IH ltac:(lia) ltac:(lia)). lia.
Qed.

Lemma NoDup_firstn {A} n (v : list A) : NoDup v -> NoDup (firstn n v).
Proof.
  intros Hv. rewrite <- (firstn_skipn n v) in Hv.
  eapply NoDup_app_remove_r; exact Hv.
Qed.

Lemma incl_firstn {A} n (v : list A) : incl (firstn n v) v.
Proof.
  intros x Hx. rewrite <- (firstn_skipn n v). apply in_or_app; now left.
Qed.

Lemma np_random_choice_inv population size (w : @World F) drawn w1 requests :
  NoDup population ->
  np_random_choice population size w = (Ok drawn, w1) ->
  valid_draws ((population, size) :: requests) (np_random w) = true ->
  length drawn = size /\ NoDup drawn /\ incl drawn population
  /\ valid_draws requests (np_random w1) = true
  /\ calls w1 = calls w /\ logger w1 = logger w.
Proof.
  intros Hnd E Hv. unfold np_random_choice in E.
  destruct (Nat.ltb_spec (length population) size) as [|Hle];
    [discriminate|].
  destruct (np_random w) as [|out rest] eqn:Er.
  - injection E as <- <-.
    split; [rewrite length_firstn; lia|].
    split; [now apply NoDup_firstn|].
    split; [apply incl_firstn|].
    rewrite Er. split; [destruct requests as [|[? ?] ?]; reflexivity|].
    auto.
  - injection E as <- <-. cbn [valid_draws] in Hv.
    apply andb_prop in Hv as [Hd Hrest].
    unfold valid_draw in Hd.
    apply andb_prop in Hd as [Hd Hin]. apply andb_prop in Hd as [Hlen Hn].
    split; [now apply Nat.eqb_eq|].
    split; [now apply nodupb_NoDup|].
    split.
    { intros x Hx. rewrite forallb_forall in Hin. apply py_in_In, Hin, Hx. }
    cbn [np_random calls logger]. auto.
Qed.

Lemma draw_loop_inv (sizes ns : list nat) :
  forall k sampled (w : @World F) sampled' w',
    for_each (combine (seq k (length ns)) ns)
      (fun i_n sampled_indices =>
         lo <- lift (get_item (group_bounds sizes) (fst i_n)) ;;
         hi <- lift (get_item (group_bounds sizes) (fst i_n + 1)) ;;
         drawn <- np_random_choice (py_range lo hi) (snd i_n) ;;
         ret (sampled_indices ++ drawn))
      sampled w = (Ok sampled', w') ->
    valid_draws
      (map (fun i_n => (py_range (nth (fst i_n) (group_bounds sizes) 0%nat)
                                 (nth (fst i_n + 1) (group_bounds sizes)
                                      0%nat),
                        snd i_n))
           (combine (seq k (length ns)) ns))
      (np_random w) = true ->
    exists drawn_all,
      sampled' = sampled ++ drawn_all
      /\ length drawn_all = list_sum ns
      /\ NoDup drawn_all
      /\ (forall x, In x drawn_all ->
            (nth k (group_bounds sizes) 0 <= x < list_sum sizes)%nat)
      /\ calls w' = calls w /\ logger w' = logger w
      /\ np_random w' = skipn (length ns) (np_random w).
Proof.
  induction ns as [|n ns IH]; intros k sampled w sampled' w' E Hv;
    cbn [length seq combine for_each map] in E, Hv.
  - apply ret_inv in E as [-> ->]. exists [].
    rewrite app_nil_r. split; [reflexivity|]. split; [reflexivity|].
    split; [constructor|]. split; [intros x []|]. auto.
  - apply bind_inv in E as (s1 & w1 & Ebody & Erest).
    cbn [fst snd] in Ebody, Hv.
    apply bind_inv in Ebody as (lo & w2 & Elo & Ebody).
    apply lift_inv in Elo as [Elo ->].
    apply bind_inv in Ebody as (hi & w2 & Ehi & Ebody).
    apply lift_inv in Ehi as [Ehi ->].
    apply bind_inv in Ebody as (drawn & w2 & Ec & Ebody).
    apply ret_inv in Ebody as [-> ->].
    unfold get_item in Elo, Ehi.
    destruct (nth_error (group_bounds sizes) k) as [lo'|] eqn:Nlo;
      [|discriminate].
    destruct (nth_error (group_bounds sizes) (k + 1)) as [hi'|] eqn:Nhi;
      [|discriminate].
    injection Elo as ->. injection Ehi as ->.
    assert (Lk : (k < length sizes)%nat).
    { assert (k + 1 < length (group_bounds sizes))%nat
        by (apply nth_error_Some; congruence).
      rewrite length_group_bounds in *; lia. }
    apply (nth_error_nth _ _ 0%nat) in Nlo, Nhi.
    rewrite Nlo, Nhi in Hv.
    destruct (np_random_choice_inv _ _ _ _ _ _ (seq_NoDup _ _) Ec Hv)
      as (Hlen & Hnd & Hincl & Hv1 & C1 & G1).
    destruct (IH (S k) _ _ _ _ Erest Hv1)
      as (rest & -> & Lrest & Ndrest & Hrange & C & G & R).
    rewrite Nat.add_1_r in Nhi.
    pose proof (group_bounds_step sizes k Lk) as Hstep.
    pose proof (group_bounds_mono sizes (S k) (length sizes)
                  ltac:(lia) ltac:(lia)) as Hmono.
    rewrite group_bounds_last in Hmono.
    assert (Hdrawn : forall x, In x drawn -> (lo <= x < hi)%nat).
    { intros x Hx. apply Hincl in Hx. unfold py_range in Hx.
      apply in_seq in Hx. lia. }
    exists (drawn ++ rest).
    split; [now rewrite app_assoc|].
    split.
    { rewrite length_app, Hlen, Lrest.
      change (list_sum (n :: ns)) with (n + list_sum ns)%nat. reflexivity. }
    split.
    { apply NoDup_app; [exact Hnd | exact Ndrest |].
      intros x Hx Hx'. apply Hdrawn in Hx. apply Hrange in Hx'. lia. }
    split.
    { intros x Hx. apply in_app_or in Hx as [Hx | Hx].
      - apply Hdrawn in Hx. lia.
      - apply Hrange in Hx. lia. }
    split; [congruence|]. split; [congruence|].
    rewrite R. clear - Ec. unfold np_random_choice in Ec.
    destruct (Nat.ltb _ _); [discriminate|].
    destruct (np_random w) as [|out t] eqn:Er.
    + injection Ec as _ <-. rewrite Er. now rewrite !skipn_nil.
    + injection Ec as _ <-. reflexivity.
Qed.

Lemma filter_in_length (sampled : list nat) n :
  NoDup sampled ->
  (forall x, In x sampled -> (x < n)%nat) ->
  length (filter (fun i => py_in i sampled) (range n)) = length sampled.
Proof.
  intros Hnd Hlt. apply Nat.le_antisymm.
  - apply NoDup_incl_length; [apply NoDup_filter, seq_NoDup|].
    intros x Hx. apply filter_In in Hx as [_ Hx]. now apply py_in_In.
  - apply NoDup_incl_length; [exact Hnd|].
    intros x Hx. apply filter_In. split.
    + apply in_seq. specialize (Hlt x Hx). lia.
    + now apply py_in_In.
Qed.

Lemma list_sum_np_repeat (v : list nat) k :
  list_sum (np_repeat v k) = (k * list_sum v)%nat.
Proof.
  unfold np_repeat; induction v as [|x v IH]; cbn [flat_map].
  - cbn; lia.
  - rewrite list_sum_app, list_sum_repeat, IH.
    change (list_sum (x :: v)) with (x + list_sum v)%nat. lia.
Qed.

(** X10: whenever [grad_sps_func] returns, it has asked the backend twice
    for each sampled gate and for no other: with sample sizes
    [n_sample] for the four families, [p] layers, a generator whose
    outputs are possible outputs of [np.random.choice], and an extended
    argument vector that holds every gate, the backend has received
    exactly [2 * p * sum(n_sample)] calls, and both counters of the logger
    have grown by that number. *)
Theorem stochastic_sampling_cost backend_obj params params_ext n_sample
    variance args n_shots w out w' :
  let sizes := np_repeat (family_sizes params) (p params) in
  let n_associated_params := np_repeat n_sample (p params) in
  valid_draws (sampling_requests (group_bounds sizes) n_associated_params)
              (np_random w) = true ->
  (list_sum sizes <= length (convert_to_ext params args))%nat ->
  grad_sps_func backend_obj params params_ext n_sample variance args n_shots
                w
  = (Ok out, w') ->
  let cost := (2 * (p params * list_sum n_sample))%nat in
  length (calls w') = (length (calls w) + cost)%nat
  /\ func_evals (logger w') = func_evals (logger w) + Z.of_nat cost
  /\ jac_func_evals (logger w') = jac_func_evals (logger w) + Z.of_nat cost.
Proof.
  intros sizes n_associated_params Hv Hext E cost.
  assert (Hcalls : length (calls w') = (length (calls w) + cost)%nat).
  { unfold grad_sps_func in E. fold sizes n_associated_params in E.
    apply bind_inv in E as (u & w1 & Elog & E).
    assert (Hw1 : calls w1 = calls w /\ np_random w1 = np_random w).
    { destruct variance.
      - apply bind_inv in Elog as (std & w0 & Estd & Elog).
        apply lift_inv in Estd as [_ ->].
        injection Elog as _ <-. split; reflexivity.
      - apply ret_inv in Elog as [_ ->]. split; reflexivity. }
    destruct Hw1 as [C1 R1].
    apply bind_inv in E as (n_shots_list & w2 & Els & E).
    apply lift_inv in Els as [_ ->].
    apply bind_inv in E as (sampled & w3 & Edraw & E).
    apply bind_inv in E as (st & w4 & Eloop & E).
    apply bind_inv in E as (grad & w5 & Eg & E).
    apply lift_inv in Eg as [_ ->].
    apply bind_inv in E as (var & w5 & Ev & E).
    apply lift_inv in Ev as [_ ->].
    assert (w' = w4) as -> by (destruct variance; now apply ret_inv in E).
    unfold draw_sampled_indices, range in Edraw.
    rewrite <- R1 in Hv. unfold sampling_requests, range in Hv.
    destruct (draw_loop_inv sizes n_associated_params 0 [] w1 sampled w3
                Edraw Hv)
      as (drawn & -> & Ld & Nd & Hrange & C3 & _).
    cbn [app] in Eloop.
    unfold sps_extended in Eloop. apply sps_loop_calls in Eloop.
    rewrite Eloop, C3, C1.
    rewrite filter_in_length;
      [|exact Nd | intros x Hx; apply Hrange in Hx; lia].
    rewrite Ld. unfold n_associated_params, cost.
    rewrite list_sum_np_repeat. reflexivity. }
  split; [exact Hcalls|].
  destruct (tallied_grad_sps_func backend_obj params params_ext n_sample
              variance args n_shots w) as (new & C & Hfe & Hje & _).
  rewrite E in C, Hfe, Hje; cbn [snd] in C, Hfe, Hje.
  rewrite C, length_app in Hcalls.
  assert (length new = cost) as <- by lia. auto.
Qed.

(** ** What the factory accepts *)

Lemma str_is_reflect x name : reflect (x = Some name) (str_is x name).
Proof.
  destruct x as [s|]; cbn.
  - destruct (String.eqb_spec s name); constructor; congruence.
  - constructor; discriminate.
Qed.

Lemma str_in_types x :
  str_in x derivative_types
  = str_is x "gradient" || str_is x "gradient_w_variance"
    || str_is x "hessian".
Proof.
  destruct x as [s|]; cbn; [|reflexivity].
  now rewrite orb_false_r, orb_assoc.
Qed.

Lemma str_in_methods x :
  str_in x derivative_methods
  = str_is x "finite_difference" || str_is x "param_shift"
    || str_is x "stoch_param_shift" || str_is x "grad_spsa".
Proof.
  destruct x as [s|]; cbn; [|reflexivity].
  now rewrite orb_false_r, !orb_assoc.
Qed.

Lemma check_n_sample_in_range x0 x1 x2 x3 y0 y1 y2 y3 :
  (exists n_sample,
     check_n_sample names_params [x0; x1; x2; x3] [y0; y1; y2; y3]
     = Ok n_sample)
  <-> in_range x0 y0 /\ in_range x1 y1 /\ in_range x2 y2 /\ in_range x3 y3.
Proof.
  unfold in_range, names_params; cbn [check_n_sample].
  repeat match goal with
  | |- context [Z.leb ?a ?b] => destruct (Z.leb_spec a b)
  end; cbn [andb rbind];
    (split; [intros [n_sample E]; try discriminate; lia
            |intros Hr; try lia; eexists; reflexivity]).
Qed.

Lemma derivative_gradient_accepts backend_obj params params_ext
    derivative_method (o : @DerivativeOptions F) variance w :
  snd (derivative_gradient backend_obj params params_ext derivative_method o
                           variance w) = w
  /\ ((exists c,
         fst (derivative_gradient backend_obj params params_ext
                derivative_method o variance w) = Ok c)
      <-> derivative_method = Some "finite_difference"%string
          \/ derivative_method = Some "grad_spsa"%string
          \/ (derivative_method = Some "param_shift"%string
              /\ class_name params = "QAOAVariationalStandardParams"%string)
          \/ (derivative_method = Some "stoch_param_shift"%string
              /\ class_name params = "QAOAVariationalStandardParams"%string
              /\ in_range (n_beta_single o) (length (mixer_1q_coeffs params))
              /\ in_range (n_beta_pair o) (length (mixer_2q_coeffs params))
              /\ in_range (n_gamma_single o)
                          (length (cost_1q_coeffs params))
              /\ in_range (n_gamma_pair o)
                          (length (cost_2q_coeffs params)))).
Proof.
  pose proof
    (check_n_sample_in_range
       (n_beta_single o) (n_beta_pair o) (n_gamma_single o) (n_gamma_pair o)
       (length (mixer_1q_coeffs params)) (length (mixer_2q_coeffs params))
       (length (cost_1q_coeffs params)) (length (cost_2q_coeffs params)))
    as Hc.
  unfold derivative_gradient, is_standard, grad_sps, family_sizes, bind.
  destruct (str_is_reflect derivative_method "finite_difference") as [->|N1].
  { split; [reflexivity|]. split; [auto | intros _; eexists; reflexivity]. }
  destruct (str_is_reflect derivative_method "param_shift") as [->|N2].
  { destruct (String.eqb_spec (class_name params)
                "QAOAVariationalStandardParams") as [Es|Ns];
      (split; [reflexivity|]); split.
    - auto.
    - intros _; eexists; reflexivity.
    - intros [c Ec]; discriminate.
    - intros [E|[E|[[_ E]|[E _]]]]; try discriminate; contradiction. }
  destruct (str_is_reflect derivative_method "stoch_param_shift") as [->|N3].
  { destruct (String.eqb_spec (class_name params)
                "QAOAVariationalStandardParams") as [Es|Ns].
    - destruct (check_n_sample _ _ _) as [n_sample|e]; cbn;
        (split; [reflexivity|]); split.
      + intros _. right; right; right.
        split; [reflexivity|]. split; [exact Es|]. apply Hc; eauto.
      + intros _; eexists; reflexivity.
      + intros [c Ec]; discriminate.
      + intros [E|[E|[[E _]|(_ & _ & Hr)]]]; try discriminate.
        apply Hc in Hr as [n_sample Hr]; discriminate.
    - split; [reflexivity|]. split.
      + intros [c Ec]; discriminate.
      + intros [E|[E|[[E _]|(_ & E & _)]]]; try discriminate;
          contradiction. }
  destruct (str_is_reflect derivative_method "grad_spsa") as [->|N4].
  { split; [reflexivity|]. split; [auto | intros _; eexists; reflexivity]. }
  split; [reflexivity|]. split.
  - intros [c Ec]; discriminate.
  - intros [E|[E|[[E _]|[E _]]]]; contradiction.
Qed.

(** X11: [derivative] never touches the logger, the backend or the random
    generator, and it returns a callable exactly for the accepted requests:
    a Hessian by finite differences, or a gradient, with or without
    variance, by finite differences or SPSA, by parameter shift on standard
    parameters, or by stochastic parameter shift on standard parameters
    with the four sample sizes between [-1] and the size of their family;
    on every other request it raises. *)
Theorem factory_accepts backend_obj params derivative_type derivative_method
    derivative_options w :
  snd (derivative backend_obj params derivative_type derivative_method
                  derivative_options w) = w
  /\ ((exists c,
         fst (derivative backend_obj params derivative_type derivative_method
                         derivative_options w) = Ok c)
      <-> accepted_request params derivative_type derivative_method
                           derivative_options).
Proof.
  pose proof (fun variance =>
    derivative_gradient_accepts backend_obj params
      (extended_params_empty backend_obj) derivative_method
      (merge_options derivative_options) variance w) as Hg.
  unfold derivative, accepted_request, is_gradient_type.
  rewrite str_in_types, str_in_methods. cbv zeta.
  assert (Hm : str_is derivative_method "finite_difference"
               || str_is derivative_method "param_shift"
               || str_is derivative_method "stoch_param_shift"
               || str_is derivative_method "grad_spsa" = false ->
               forall name,
                 In name derivative_methods ->
                 derivative_method <> Some name).
  { intros Hm name Hin ->. cbn in Hin.
    destruct Hin as [<-|[<-|[<-|[<-|[]]]]]; discriminate. }
  destruct (str_is_reflect derivative_type "gradient") as [->|T1].
  { cbn [orb negb str_is String.eqb].
    destruct (_ || _ || _ || _) eqn:Em; cbn [negb].
    - change (str_is (Some "gradient"%string) "gradient") with true.
      cbv iota. destruct (Hg false) as [Hs Hi]. split; [exact Hs|].
      rewrite Hi. split; [intros Ha; right; auto|].
      intros [[E _]|[_ Ha]]; [discriminate | exact Ha].
    - specialize (Hm eq_refl). split; [reflexivity|]. split.
      + intros [c Ec]; discriminate.
      + intros [[E _]|[_ [E|[E|[[E _]|[E _]]]]]]; try discriminate;
          (exfalso; eapply Hm; [|exact E]; cbn; auto 6). }
  destruct (str_is_reflect derivative_type "gradient_w_variance") as [->|T2].
  { cbn [orb negb].
    destruct (_ || _ || _ || _) eqn:Em; cbn [negb].
    - change (str_is (Some "gradient_w_variance"%string) "gradient")
        with false.
      change (str_is (Some "gradient_w_variance"%string)
                     "gradient_w_variance") with true.
      cbv iota. destruct (Hg true) as [Hs Hi]. split; [exact Hs|].
      rewrite Hi. split; [intros Ha; right; auto|].
      intros [[E _]|[_ Ha]]; [discriminate | exact Ha].
    - specialize (Hm eq_refl). split; [reflexivity|]. split.
      + intros [c Ec]; discriminate.
      + intros [[E _]|[_ [E|[E|[[E _]|[E _]]]]]]; try discriminate;
          (exfalso; eapply Hm; [|exact E]; cbn; auto 6). }
  destruct (str_is_reflect derivative_type "hessian") as [->|T3].
  { cbn [orb negb].
    destruct (_ || _ || _ || _) eqn:Em; cbn [negb].
    - change (str_is (Some "hessian"%string) "gradient") with false.
      change (str_is (Some "hessian"%string) "gradient_w_variance")
        with false.
      cbv iota.
      destruct (str_is_reflect derivative_method "finite_difference")
        as [->|N1]; (split; [reflexivity|]); split.
      + auto.
      + intros _; eexists; reflexivity.
      + intros [c Ec]; discriminate.
      + intros [[_ E]|[[E|E] _]]; [contradiction | discriminate..].
    - specialize (Hm eq_refl). split; [reflexivity|]. split.
      + intros [c Ec]; discriminate.
      + intros [[_ E]|[[E|E] _]]; try discriminate.
        exfalso; eapply Hm; [|exact E]; cbn; auto 6. }
  cbn [orb negb]. split; [reflexivity|]. split.
  - intros [c Ec]; discriminate.
  - intros [[E _]|[[E|E] _]]; contradiction.
Qed.

(** ** Stochastic parameter shift in expectation mode *)

Lemma draw_keeps_calls (l : list nat) (xs : list (nat * nat)) :
  forall sampled (w : @World F) sampled' w',
    for_each xs
      (fun i_n sampled_indices =>
         lo <- lift (get_item l (fst i_n)) ;;
         hi <- lift (get_item l (fst i_n + 1)) ;;
         drawn <- np_random_choice (py_range lo hi) (snd i_n) ;;
         ret (sampled_indices ++ drawn))
      sampled w = (Ok sampled', w') ->
    calls w' = calls w.
Proof.
  induction xs as [|x xs IH]; intros sampled w sampled' w' E;
    cbn [for_each] in E.
  - now apply ret_inv in E as [_ ->].
  - apply bind_inv in E as (s1 & w1 & Ebody & Erest).
    apply IH in Erest. rewrite Erest.
    apply bind_inv in Ebody as (lo & w2 & Elo & Ebody).
    apply lift_inv in Elo as [_ ->].
    apply bind_inv in Ebody as (hi & w2 & Ehi & Ebody).
    apply lift_inv in Ehi as [_ ->].
    apply bind_inv in Ebody as (drawn & w2 & Ec & Ebody).
    apply ret_inv in Ebody as [_ ->].
    unfold np_random_choice in Ec.
    destruct (Nat.ltb _ _); [discriminate|].
    destruct (np_random w); injection Ec as _ <-; reflexivity.
Qed.

Lemma fold_cond_set_item_get {A} (c : nat -> bool) (e : nat -> A) xs :
  forall v k,
    nth_error
      (fold_left (fun v i => if c i then set_item v i (e i) else v) xs v) k
    = if c k && existsb (Nat.eqb k) xs && Nat.ltb k (length v)
      then Some (e k) else nth_error v k.
Proof.
  induction xs as [|x xs IH]; intros v k; cbn [fold_left existsb].
  - now rewrite andb_false_r.
  - rewrite IH.
    assert (Lv : length (if c x then set_item v x (e x) else v) = length v)
      by (destruct (c x); [apply length_set_item | reflexivity]).
    rewrite Lv.
    destruct (Nat.eqb_spec k x) as [->|N]; cbn [orb].
    + destruct (c x) eqn:Cx; cbn [andb]; [|reflexivity].
      destruct (Nat.ltb_spec x (length v)) as [L|L].
      * rewrite nth_error_set_item_same by exact L.
        now destruct (existsb _ xs).
      * rewrite set_item_beyond by exact L.
        now rewrite andb_false_r.
    + destruct (c x); [|reflexivity].
      now rewrite nth_error_set_item_other by exact N.
Qed.

Lemma fold_cond_length {A} (c : nat -> bool) (e : nat -> A) xs :
  forall v,
    length (fold_left (fun v i => if c i then set_item v i (e i) else v) xs v)
    = length v.
Proof.
  induction xs as [|x xs IH]; intros v; cbn [fold_left]; [reflexivity|].
  rewrite IH. destruct (c x); [apply length_set_item | reflexivity].
Qed.

Lemma flat_map_filter {A B} (c : A -> bool) (r : A -> list B) xs :
  flat_map (fun x => if c x then r x else []) xs = flat_map r (filter c xs).
Proof.
  induction xs as [|x xs IH]; cbn [flat_map filter]; [reflexivity|].
  rewrite IH. now destruct (c x).
Qed.

(** X12: in expectation mode [grad_sps_func] gives every sampled extended
    parameter the parameter-shift estimate
    [r_i * (E(theta + eta) - E(theta - eta))] and every other one zero, asks
    the backend for the two expectations of the sampled parameters only, in
    the order of their indices, and returns the conversion of these values
    to the standard form. *)
Theorem stochastic_shift_rule backend_obj params params_ext n_sample args
    n_shots n_shots_list sampled_indices w w1 :
  let coeffs_list := coeffs_list_of params in
  let args_ext := convert_to_ext params args in
  let sizes := np_repeat (family_sizes params) (p params) in
  let l := group_bounds sizes in
  __create_n_shots_ext_list (length args) sizes n_shots = Ok n_shots_list ->
  draw_sampled_indices l (np_repeat n_sample (p params)) w
  = (Ok sampled_indices, w1) ->
  (forall i, (i < length args_ext)%nat ->
     py_in i sampled_indices = true ->
     (i < length coeffs_list)%nat /\ (i < length n_shots_list)%nat
     /\ fis_zero (fmul (of_Z 4) (nth i coeffs_list (of_Z 0))) = false) ->
  exists grad_ext grad w',
    grad_sps_func backend_obj params params_ext n_sample false args n_shots w
    = (Ok (Grad grad), w')
    /\ ext_to_std l (p params) grad_ext = Ok grad
    /\ length grad_ext = length args_ext
    /\ (forall i, (i < length args_ext)%nat ->
          nth_error grad_ext i
          = Some (if py_in i sampled_indices
                  then shift_estimate backend_obj params_ext coeffs_list
                                      args_ext n_shots_list i
                  else of_Z 0))
    /\ map call_request (calls w')
       = map call_request (calls w)
         ++ flat_map (shift_requests params_ext coeffs_list args_ext
                                     n_shots_list)
                     (filter (fun i => py_in i sampled_indices)
                             (range (length args_ext))).
Proof.
  intros coeffs_list args_ext sizes l Hshots Hdraw Hok.
  set (c := fun i => py_in i sampled_indices).
  set (e := shift_estimate backend_obj params_ext coeffs_list args_ext
                           n_shots_list).
  set (f := fun (i : nat) (st : list F * list F * Z) =>
              if c i then
                (set_item (fst (fst st)) i (e i),
                 set_item (snd (fst st)) i (of_Z 0),
                 snd st + match nth i n_shots_list None with
                          | Some n => 2 * n
                          | None => 0
                          end)
              else st).
  set (g := fun (i : nat) (w : @World F) =>
              if c i then
                let eta := shift_vector coeffs_list (length args_ext) i in
                let kwargs := n_shots_dict (nth i n_shots_list None) in
                record_call CallExpectation
                  (update_from_raw params_ext (vsub args_ext eta)) kwargs
                  (record_call CallExpectation
                     (update_from_raw params_ext (vadd args_ext eta)) kwargs
                     w)
              else w).
  assert (Hloop :
    sps_extended coeffs_list args_ext
      (__gradient args_ext backend_obj params_ext false) n_shots_list
      sampled_indices w1
    = (Ok (fold_left (fun s x => f x s) (range (length args_ext))
             (np_zeros (length args_ext), np_zeros (length args_ext), 0)),
       fold_left (fun w x => g x w) (range (length args_ext)) w1)).
  { unfold sps_extended. apply for_each_pure.
    intros i st w0 Hi. apply in_seq in Hi. unfold f, g, c.
    destruct (py_in i sampled_indices) eqn:Ci; [|reflexivity].
    destruct (Hok i ltac:(lia) Ci) as (Lc & Ls & Z0).
    erewrite bind_ok by (apply param_shift_step_run; assumption).
    rewrite (bind_ok _ _ _ _ _
               (lift_ok _ _ _ (get_item_nth n_shots_list i None Ls))).
    reflexivity. }
  assert (Hgrad : forall xs st,
    fst (fst (fold_left (fun s x => f x s) xs st))
    = fold_left (fun v i => if c i then set_item v i (e i) else v) xs
                (fst (fst st))).
  { induction xs as [|x xs IH]; intros st; cbn [fold_left]; [reflexivity|].
    rewrite IH. unfold f. now destruct (c x). }
  destruct (ext_to_std_returns params
              (fst (fst (fold_left (fun s x => f x s)
                           (range (length args_ext))
                           (np_zeros (length args_ext),
                            np_zeros (length args_ext), 0)))))
    as [grad Eg].
  destruct (ext_to_std_returns params
              (snd (fst (fold_left (fun s x => f x s)
                           (range (length args_ext))
                           (np_zeros (length args_ext),
                            np_zeros (length args_ext), 0)))))
    as [var Ev].
  do 3 eexists. split; [|split; [exact Eg|]].
  { unfold grad_sps_func. fold coeffs_list args_ext sizes l.
    rewrite (bind_ok _ _ _ _ _ (eq_refl : ret tt w = (Ok tt, w))).
    rewrite (bind_ok _ _ _ _ _ (lift_ok _ _ _ Hshots)).
    rewrite (bind_ok _ _ _ _ _ Hdraw).
    rewrite (bind_ok _ _ _ _ _ Hloop).
    rewrite (bind_ok _ _ _ _ _ (lift_ok _ _ _ Eg)).
    rewrite (bind_ok _ _ _ _ _ (lift_ok _ _ _ Ev)).
    reflexivity. }
  rewrite Hgrad; cbn [fst].
  split; [now rewrite fold_cond_length, length_np_zeros|].
  split.
  { intros i Hi. rewrite fold_cond_set_item_get, length_np_zeros.
    assert (Ei : existsb (Nat.eqb i) (range (length args_ext)) = true).
    { apply existsb_exists; exists i; split;
        [apply in_seq; lia | apply Nat.eqb_refl]. }
    rewrite Ei, (proj2 (Nat.ltb_lt _ _) Hi), !andb_true_r.
    unfold c. destruct (py_in i sampled_indices); [reflexivity|].
    unfold np_zeros. apply nth_error_repeat; exact Hi. }
  assert (C1 : calls w1 = calls w)
    by (eapply draw_keeps_calls; exact Hdraw).
  rewrite <- C1, <- flat_map_filter.
  apply (calls_fold_left g
           (fun i => if py_in i sampled_indices
                     then shift_requests params_ext coeffs_list args_ext
                                         n_shots_list i
                     else [])).
  intros i w0 _. unfold g, c, shift_requests.
  destruct (py_in i sampled_indices); [|now rewrite app_nil_r].
  cbn. rewrite !map_app, <- app_assoc. reflexivity.
Qed.

(** ** The shot lists of the logger *)

Lemma keeps_ret {A} (a : A) : keeps_shots_log (@ret F A a).
Proof. intros w; reflexivity. Qed.

Lemma keeps_raise {A} e : keeps_shots_log (@raise F A e).
Proof. intros w; reflexivity. Qed.

Lemma keeps_lift {A} (r : result A) : keeps_shots_log (@lift F A r).
Proof. destruct r; intros w; reflexivity. Qed.

Lemma keeps_bind {A B} (m : @M F A) (k : A -> @M F B) :
  keeps_shots_log m -> (forall a, keeps_shots_log (k a)) ->
  keeps_shots_log (bind m k).
Proof.
  intros Hm Hk w; unfold bind. specialize (Hm w).
  destruct (m w) as [[a|e] w1]; cbn [snd] in *; [|exact Hm].
  now rewrite Hk.
Qed.

Lemma keeps_for_each {A S} (xs : list A) (body : A -> S -> @M F S) s :
  (forall x s', keeps_shots_log (body x s')) ->
  keeps_shots_log (for_each xs body s).
Proof.
  intros Hb; revert s; induction xs as [|x xs IH]; intros s; cbn [for_each].
  - apply keeps_ret.
  - apply keeps_bind; [apply Hb | intros; apply IH].
Qed.

Lemma keeps_update_and_compute_expectation backend_obj params args n_shots :
  keeps_shots_log
    (update_and_compute_expectation backend_obj params args n_shots).
Proof. intros w; reflexivity. Qed.

Lemma keeps_update_and_get_counts backend_obj params args n_shots :
  keeps_shots_log (update_and_get_counts backend_obj params args n_shots).
Proof. intros w; reflexivity. Qed.

Lemma keeps_np_random_choice population size :
  keeps_shots_log (@np_random_choice F population size).
Proof.
  intros w; unfold np_random_choice.
  destruct (Nat.ltb _ _); [reflexivity|]. now destruct (np_random w).
Qed.

Lemma keeps_np_random_randint_0_2 size :
  keeps_shots_log (@np_random_randint_0_2 F size).
Proof. intros w; unfold np_random_randint_0_2. now destruct (np_random w). Qed.

Create HintDb keeps.

#[local] Hint Resolve keeps_ret keeps_raise keeps_lift
  keeps_update_and_compute_expectation keeps_update_and_get_counts
  keeps_np_random_choice keeps_np_random_randint_0_2 : keeps.

Ltac keeps_step :=
  lazymatch goal with
  | |- keeps_shots_log (bind _ _) => apply keeps_bind; [ | intros ]
  | |- keeps_shots_log (for_each _ _ _) => apply keeps_for_each; intros
  | |- keeps_shots_log (if ?b then _ else _) => destruct b
  | |- keeps_shots_log (match ?x with _ => _ end) => destruct x
  | |- keeps_shots_log _ => solve [ auto with keeps ]
  end.

Ltac keeps_tac := cbv beta zeta; repeat (keeps_step; cbv beta zeta).

Lemma keeps_gradient args backend_obj params variance vect_eta constant
    n_shots :
  keeps_shots_log
    (__gradient args backend_obj params variance vect_eta constant n_shots).
Proof.
  unfold __gradient; destruct variance;
    unfold fun_w_variance, fun_expectation; keeps_tac.
Qed.

#[local] Hint Resolve keeps_gradient : keeps.

Lemma keeps_param_shift_step coeffs_list args_ext backend_obj params variance
    n_shots_list i :
  keeps_shots_log
    (param_shift_step coeffs_list args_ext
       (__gradient args_ext backend_obj params variance) n_shots_list i).
Proof. unfold param_shift_step; keeps_tac. Qed.

#[local] Hint Resolve keeps_param_shift_step : keeps.

(** The head of the two parameter-shift estimators, which allocates the
    standard list only to log it. *)
Lemma logged_then_kept {A} (variance : bool)
    (std : result (list (option Z))) (k : @M F A) w :
  keeps_shots_log k ->
  n_shots_log
    (logger
       (snd (bind (if variance then
                     std_list <- lift std ;; log_n_shots std_list
                   else ret tt)
                  (fun _ => k) w)))
  = n_shots_log (logger w) ++ logged_shots variance std.
Proof.
  intros Hk. unfold bind, logged_shots.
  destruct variance, std as [l|e]; cbn [lift ret raise log_n_shots];
    rewrite ?Hk; cbn [snd logger n_shots_log]; now rewrite ?app_nil_r.
Qed.

(** X13: the shot lists of the logger record exactly one list for each
    call of an estimator in variance mode, before any backend call and
    whether the call then returns or raises: [grad_fd_func],
    [grad_ps_func] and [grad_sps_func] record the list allocated to the
    standard parameters (nothing when this allocation is refused), and
    [grad_spsa_func] records the one-element list [[n_shots]]; in
    expectation mode, and for the Hessian, nothing is recorded. *)
Theorem shots_logged backend_obj params params_ext eta n_sample variance
    args n_shots shots w :
  let std := __create_n_shots_list (length args) n_shots in
  let log_after (m : @M F Output) := n_shots_log (logger (snd (m w))) in
  let before := n_shots_log (logger w) in
  log_after (grad_fd_func backend_obj params eta variance args n_shots)
  = before ++ logged_shots variance std
  /\ log_after (grad_ps_func backend_obj params params_ext variance args
                             n_shots)
     = before ++ logged_shots variance std
  /\ log_after (grad_sps_func backend_obj params params_ext n_sample
                              variance args n_shots)
     = before ++ logged_shots variance std
  /\ log_after (grad_spsa_func backend_obj params eta variance args shots)
     = before ++ logged_shots variance (Ok [shots])
  /\ log_after (hessian_fd_func backend_obj params eta args) = before.
Proof.
  intros std log_after before. unfold log_after, before.
  split; [|split; [|split; [|split]]].
  - unfold grad_fd_func. fold std. unfold bind at 1, logged_shots.
    destruct std as [l|e]; cbn [lift ret raise snd];
      [|now rewrite app_nil_r].
    assert (K : forall u : unit, keeps_shots_log
      (gv <- for_each (range (length args))
               (fun i gv =>
                  let vect_eta := np_zeros (length args) in
                  let vect_eta := set_item vect_eta i (fdiv eta (of_Z 2)) in
                  const <- lift (py_div (of_Z 1) eta) ;;
                  shots_i <- lift (get_item l i) ;;
                  r <- __gradient args backend_obj params variance vect_eta
                                  const shots_i ;;
                  ret (set_item (fst gv) i (fst r),
                       set_item (snd gv) i (snd r)))
               (np_zeros (length args), np_zeros (length args)) ;;
       if variance then
         total <- lift (py_sum l 0) ;;
         ret (GradVar (fst gv) (snd gv) (2 * total))
       else ret (Grad (fst gv)))) by (intros u; keeps_tac).
    unfold bind at 1.
    destruct variance; cbn [log_n_shots ret]; rewrite (K tt);
      cbn [snd logger n_shots_log]; now rewrite ?app_nil_r.
  - unfold grad_ps_func. fold std. apply logged_then_kept.
    unfold ps_extended; keeps_tac.
  - unfold grad_sps_func. fold std. apply logged_then_kept.
    unfold draw_sampled_indices, sps_extended; keeps_tac.
  - unfold grad_spsa_func, logged_shots.
    assert (K : keeps_shots_log
      (bits <- np_random_randint_0_2 (length args) ;;
       let delta := map (fun b => 2 * Z.of_nat b - 1) bits in
       let vector_eta :=
         map (fun d => fdiv (fmul (of_Z d) eta) (of_Z 2)) delta in
       const <- lift (py_div (of_Z 1) eta) ;;
       r <- __gradient args backend_obj params variance vector_eta const
                       shots ;;
       if variance then
         match shots with
         | Some n =>
             ret (GradVar (map (fun d => fmul (fst r) (of_Z d)) delta)
                          (map (fun d => fmul (snd r) (of_Z (Z.abs d))) delta)
                          (2 * n))
         | None => raise TypeError
         end
       else ret (Grad (map (fun d => fmul (fst r) (of_Z d)) delta))))
      by keeps_tac.
    unfold bind at 1.
    destruct variance; cbn [log_n_shots ret]; rewrite K;
      cbn [snd logger n_shots_log]; now rewrite ?app_nil_r.
  - assert (K : keeps_shots_log
                  (hessian_fd_func backend_obj params eta args))
      by (unfold hessian_fd_func, hessian_diagonal, hessian_off_diagonal;
          keeps_tac).
    apply K.
Qed.

End Properties.

(** * The claims on the example circuit *)

(** C1 (the code departs from the claim): on the example circuit the
    extended gradients at [beta = gamma = 0] are [pi/2] for the mixer gate
    and [pi] for the cost gate, so the standard gradient asked for is
    [[pi/2; pi]]; [grad_ps_func] returns [[pi/2; 0]].  The list
    comprehension reads [l[i-1] : l[i]] for [i] from 0, so its first entry
    is an empty sum, every group total is moved one place, and the last
    group (cost-2q of the last layer) is never added. *)
Theorem grad_ps_loses_last_group :
  let args := [0; 0]%Q in
  let l := group_bounds
             (np_repeat (family_sizes example_params) (p example_params)) in
  exists g_mixer g_cost std_beta std_gamma code_beta,
    fst (ps_extended (coeffs_list_of example_params)
           (convert_to_ext example_params args)
           (__gradient (convert_to_ext example_params args) example_backend
                       example_params_ext false)
           [None; None] example_world)
    = Ok ([g_mixer; g_cost], [0; 0]%Q)
    /\ (g_mixer == np_pi / 2)%Q /\ (g_cost == np_pi)%Q
    /\ ext_to_std_spec l 1 [g_mixer; g_cost] = [std_beta; std_gamma]
    /\ (std_beta == np_pi / 2)%Q /\ (std_gamma == np_pi)%Q
    /\ fst (grad_ps_func example_backend example_params example_params_ext
              false args (ShotsScalar None) example_world)
       = Ok (Grad [code_beta; 0%Q])
    /\ (code_beta == np_pi / 2)%Q
    /\ ~ (0 == std_gamma)%Q
    /\ ext_to_std l 1 [3; 5]%Q = Ok [3; 0]%Q
    /\ ext_to_std_spec l 1 [3; 5]%Q = [3; 5]%Q.
Proof.
  cbv zeta. do 5 eexists.
  split; [vm_compute; reflexivity|].
  split; [vm_compute; reflexivity|].
  split; [vm_compute; reflexivity|].
  split; [vm_compute; reflexivity|].
  split; [vm_compute; reflexivity|].
  split; [vm_compute; reflexivity|].
  split; [vm_compute; reflexivity|].
  split; [vm_compute; reflexivity|].
  split; [vm_compute; discriminate|].
  split; vm_compute; reflexivity.
Qed.

(** C8 (counterexample): a caller who provides [n_shots = 0] gets a backend
    call without the keyword, from either wrapper. *)
Lemma zero_shots_not_forwarded :
  map call_n_shots
      (calls (snd (update_and_compute_expectation example_backend
                     example_params [0; 0]%Q (Some 0) example_world)))
  = [None]
  /\ map call_n_shots
         (calls (snd (update_and_get_counts example_backend example_params
                        [0; 0]%Q (Some 0) example_world)))
     = [None].
Proof. split; reflexivity. Qed.

(** C10 (counterexample): the histogram at [args + eta] holds one shot and
    the histogram at [args - eta] holds two, and the kernel returns a mean
    and a variance over two samples. *)
Lemma kernel_returns_on_unequal_totals :
  count_total (get_counts (uneven_backend 1)
                 (update_from_raw example_params_ext (vadd [0] [1]))%Q None)
  = 1%nat
  /\ count_total (get_counts (uneven_backend 1)
                    (update_from_raw example_params_ext (vsub [0] [1]))%Q
                    None)
     = 2%nat
  /\ fst (fun_w_variance [0%Q] (uneven_backend 1) example_params_ext [1%Q]
                         1%Q None example_world)
     = Ok ((-1 # 2)%Q, (8 # 32)%Q).
Proof. repeat split; vm_compute; reflexivity. Qed.

(** ** Instances of the general theorems *)

(** C2 on the example circuit, without a shot count. *)
Lemma parameter_shift_rule_witness :
  exists grad_ext var_ext w',
    ps_extended (coeffs_list_of example_params)
      (convert_to_ext example_params [0; 0]%Q)
      (__gradient (convert_to_ext example_params [0; 0]%Q) example_backend
                  example_params_ext false)
      [None; None] example_world
    = (Ok (grad_ext, var_ext), w')
    /\ length grad_ext = 2%nat
    /\ nth_error grad_ext 1
       = Some (shift_estimate example_backend example_params_ext
                 (coeffs_list_of example_params)
                 (convert_to_ext example_params [0; 0]%Q) [None; None] 1)
    /\ length (calls w') = 4%nat.
Proof.
  destruct (parameter_shift_rule example_backend example_params
              example_params_ext [0; 0]%Q (ShotsScalar None) [None; None]
              example_world)
    as (grad_ext & var_ext & w' & Hrun & Hlen & Hval & Hcalls & _).
  - reflexivity.
  - vm_compute; lia.
  - vm_compute; lia.
  - intros [|[|i]] Hi; [reflexivity | reflexivity | vm_compute in Hi; lia].
  - exists grad_ext, var_ext, w'.
    split; [exact Hrun|]. split; [exact Hlen|].
    split; [apply Hval; vm_compute; lia|].
    apply (f_equal (@length _)) in Hcalls.
    rewrite !length_map in Hcalls. exact Hcalls.
Defined.

(** C3 on the example circuit: all four sample sizes are [-1] and the
    generator answers with [[0]], [[]], [[]], [[1]]. *)
Lemma full_sampling_witness :
  exists grad_sps_func out_sps w_sps out_ps w_ps,
    grad_sps example_backend example_params example_params_ext
             example_options false
    = Ok grad_sps_func
    /\ grad_sps_func [0; 0]%Q (ShotsScalar None) example_world_sampling
       = (Ok out_sps, w_sps)
    /\ grad_ps example_backend example_params example_params_ext false
               [0; 0]%Q (ShotsScalar None) example_world_sampling
       = (Ok out_ps, w_ps)
    /\ output_gradient out_sps = output_gradient out_ps
    /\ output_variance out_sps = output_variance out_ps
    /\ calls w_sps = calls w_ps.
Proof.
  destruct (grad_ps example_backend example_params example_params_ext false
              [0; 0]%Q (ShotsScalar None) example_world_sampling)
    as [[out_ps | e] w_ps] eqn:Hps; [|vm_compute in Hps; discriminate].
  destruct (full_sampling_is_parameter_shift example_backend example_params
              example_params_ext example_options false [0; 0]%Q
              (ShotsScalar None) example_world_sampling out_ps w_ps)
    as (f & out_sps & w_sps & Hf & Hrun & Hg & Hv & Hc & _).
  - left; reflexivity.
  - left; reflexivity.
  - left; reflexivity.
  - left; reflexivity.
  - reflexivity.
  - exact Hps.
  - exists f, out_sps, w_sps, out_ps, w_ps. repeat split; assumption.
Defined.

(** C5 on the example circuit: an unknown type, an unknown method, a
    Hessian by parameter shift, parameter shift on an extended container, a
    sample size of 5 for a family of one gate, and a shot list of the wrong
    length for each of the three estimators that take one. *)
Lemma validation_precedes_backend_witness :
  (exists e,
     derivative example_backend example_params (Some "jacobian"%string)
                (Some "finite_difference"%string) None example_world
     = (Raise e, example_world))
  /\ (exists e,
        derivative example_backend example_params (Some "gradient"%string)
                   None None example_world
        = (Raise e, example_world))
  /\ (exists e,
        derivative example_backend example_params (Some "hessian"%string)
                   (Some "param_shift"%string) None example_world
        = (Raise e, example_world))
  /\ (exists e,
        derivative example_backend example_params_ext
                   (Some "gradient_w_variance"%string)
                   (Some "param_shift"%string) None example_world
        = (Raise e, example_world))
  /\ (exists e,
        derivative example_backend example_params (Some "gradient"%string)
                   (Some "stoch_param_shift"%string)
                   (Some {| opt_stepsize := None;
                            opt_n_beta_single := Some 5;
                            opt_n_beta_pair := None;
                            opt_n_gamma_single := None;
                            opt_n_gamma_pair := None |})
                   example_world
        = (Raise e, example_world))
  /\ (exists e,
        grad_fd_func example_backend example_params (1 # 10)%Q true
                     [0; 0]%Q (ShotsList [Some 3]) example_world
        = (Raise e, example_world))
  /\ (exists e,
        grad_ps_func example_backend example_params example_params_ext false
                     [0; 0]%Q (ShotsList [Some 3; Some 4; Some 5])
                     example_world
        = (Raise e, example_world))
  /\ (exists e,
        grad_sps_func example_backend example_params example_params_ext
                      [1; 0; 0; 1]%nat true [0; 0]%Q (ShotsList [])
                      example_world
        = (Raise e, example_world)).
Proof.
  repeat split.
  - apply (validation_precedes_backend _ _
             (unknown_type example_backend example_params
                (Some "jacobian"%string) (Some "finite_difference"%string)
                None eq_refl)).
  - apply (validation_precedes_backend _ _
             (unknown_method example_backend example_params
                (Some "gradient"%string) None None eq_refl)).
  - apply (validation_precedes_backend _ _
             (hessian_other_method example_backend example_params
                (Some "param_shift"%string) None
                ltac:(discriminate))).
  - apply (validation_precedes_backend _ _
             (not_standard example_backend example_params_ext
                (Some "gradient_w_variance"%string)
                (Some "param_shift"%string) None
                (or_intror eq_refl) (or_introl eq_refl)
                ltac:(discriminate))).
  - apply (validation_precedes_backend _ _
             (sample_size_out_of_range example_backend example_params
                (Some "gradient"%string)
                (Some {| opt_stepsize := None;
                         opt_n_beta_single := Some 5;
                         opt_n_beta_pair := None;
                         opt_n_gamma_single := None;
                         opt_n_gamma_pair := None |})
                (or_introl eq_refl) eq_refl
                ltac:(left; right; vm_compute; reflexivity))).
  - apply (validation_precedes_backend _ _
             (shots_length_fd example_backend example_params (1 # 10)%Q true
                [0; 0]%Q [Some 3] ltac:(discriminate))).
  - apply (validation_precedes_backend _ _
             (shots_length_ps example_backend example_params
                example_params_ext false [0; 0]%Q
                [Some 3; Some 4; Some 5] ltac:(discriminate))).
  - apply (validation_precedes_backend _ _
             (shots_length_sps example_backend example_params
                example_params_ext [1; 0; 0; 1]%nat true [0; 0]%Q []
                ltac:(discriminate))).
Defined.

Lemma example_backend_steady : steady_totals example_backend.
Proof.
  intros params1 params2 kwargs; unfold example_backend; cbn [get_counts].
  destruct (Qle_bool _ _), (Qle_bool _ _); reflexivity.
Qed.

(** C4 on the example circuit with 3 shots for [beta] and 4 for [gamma]
    (5 shots for SPSA): 14 shots for finite difference and parameter
    shift, 10 for SPSA, and 6 when only the mixer gate is sampled. *)
Lemma shots_used_reported_witness :
  (exists out w',
     grad_fd_func example_backend example_params (1 # 10)%Q true [0; 0]%Q
                  (ShotsList [Some 3; Some 4]) example_world
     = (Ok out, w')
     /\ output_shots out = Some 14)
  /\ (exists out w',
        grad_ps_func example_backend example_params example_params_ext true
                     [0; 0]%Q (ShotsList [Some 3; Some 4]) example_world
        = (Ok out, w')
        /\ output_shots out = Some 14)
  /\ (exists out w',
        grad_spsa_func example_backend example_params (1 # 10)%Q true
                       [0; 0]%Q (Some 5) example_world
        = (Ok out, w')
        /\ output_shots out = Some 10)
  /\ (exists out w',
        grad_sps_func example_backend example_params example_params_ext
                      [1; 0; 0; 0]%nat true [0; 0]%Q
                      (ShotsList [Some 3; Some 4]) example_world
        = (Ok out, w')
        /\ output_shots out = Some 6).
Proof.
  destruct (shots_used_reported example_backend example_params
              example_params_ext (1 # 10)%Q [1; 0; 0; 0]%nat [0; 0]%Q
              example_world) as (Hfd & Hps & Hspsa & Hsps).
  assert (Hint : Forall (fun s : option Z => s <> None) [Some 3; Some 4])
    by (repeat constructor; discriminate).
  assert (Hnz : forall i, (i < 2)%nat ->
            fis_zero (fmul (of_Z 4)
                        (nth i (coeffs_list_of example_params) (of_Z 0)))
            = false)
    by (intros [|[|i]] Hi; [reflexivity | reflexivity | lia]).
  split; [|split; [|split]].
  - destruct (Hfd (ShotsList [Some 3; Some 4])) as [Hvalue Hreturns].
    destruct (Hreturns [Some 3; Some 4] example_backend_steady eq_refl
                eq_refl Hint) as (out & w' & Hrun).
    exists out, w'; split; [exact Hrun|].
    destruct (Hvalue out w' Hrun) as (nsl & Hnsl & Hs).
    vm_compute in Hnsl; injection Hnsl as <-. exact Hs.
  - destruct (Hps (ShotsList [Some 3; Some 4])) as [Hvalue Hreturns].
    destruct (Hreturns [Some 3; Some 4] example_backend_steady eq_refl Hint
                (le_n 2) (le_n 2) Hnz) as (out & w' & Hrun).
    exists out, w'; split; [exact Hrun|].
    destruct (Hvalue out w' Hrun) as (nsl & Hnsl & Hs).
    vm_compute in Hnsl; injection Hnsl as <-. exact Hs.
  - destruct (Hspsa (Some 5)) as [Hvalue Hreturns].
    destruct (Hreturns 5 example_backend_steady eq_refl eq_refl)
      as (out & w' & Hrun).
    exists out, w'; split; [exact Hrun|].
    destruct (Hvalue out w' Hrun) as (n & Hn & Hs).
    injection Hn as <-. exact Hs.
  - destruct (Hsps (ShotsList [Some 3; Some 4])) as [Hvalue Hreturns].
    destruct (Hreturns [Some 3; Some 4] example_backend_steady
                ltac:(repeat constructor) eq_refl (le_n 2) (le_n 2) Hnz)
      as (out & w' & Hrun).
    exists out, w'; split; [exact Hrun|].
    destruct (Hvalue out w' Hrun)
      as (nsl & std & sampled & w2 & Hnsl & Hstd & Hdraw & Hs).
    vm_compute in Hnsl; injection Hnsl as <-.
    vm_compute in Hstd; injection Hstd as <-.
    vm_compute in Hdraw; injection Hdraw as <- _. exact Hs.
Defined.

(** C6 on small inputs; the extended list is for two layers and families
    of 2, 0, 1 and 3 gates. *)
Lemma shot_broadcasting_witness :
  __create_n_shots_list 3 (ShotsScalar (Some 7))
  = Ok [Some 7; Some 7; Some 7]
  /\ __create_n_shots_list 2 (ShotsList [Some 5; None]) = Ok [Some 5; None]
  /\ (exists msg,
        __create_n_shots_list 3 (ShotsList [Some 5])
        = Raise (AssertionError msg))
  /\ __create_n_shots_ext_list 4 (np_repeat [2; 0; 1; 3]%nat 2)
       (ShotsList [Some 1; Some 2; Some 3; Some 4])
     = Ok (map Some [1; 1; 2; 2; 3; 4; 3; 3; 3; 4; 4; 4]).
Proof.
  destruct shot_broadcasting as (Hscalar & Hsame & Hother & Hext & _).
  split; [exact (proj1 (Hscalar 3%nat (Some 7)))|].
  split; [exact (Hsame 2%nat [Some 5; None] eq_refl)|].
  split; [exact (Hother 3%nat [Some 5] ltac:(discriminate))|].
  exact (proj1 (Hext 2%nat 2%nat 0%nat 1%nat 3%nat
                  [Some 1; Some 2; Some 3; Some 4] eq_refl)).
Defined.

(** C9 on the example circuit: a finite-difference gradient followed by a
    Hessian, both built by the factory. *)
Lemma counters_count_backend_calls_witness :
  let ms :=
    [ grad_fd example_backend example_params example_options false
              [0; 0]%Q (ShotsScalar None);
      hessian_fd example_backend example_params example_options [0; 0]%Q ] in
  (exists new, tally example_world new (run_all ms example_world))
  /\ func_evals (logger (run_all ms example_world)) = 22
  /\ length (calls (run_all ms example_world)) = 22%nat.
Proof.
  cbv zeta.
  destruct (@counters_count_backend_calls Q Q_Scalar) as (_ & _ & Hseq).
  split; [|split; vm_compute; reflexivity].
  apply Hseq.
  apply Forall_cons; [|apply Forall_cons; [|apply Forall_nil]].
  - apply (call_gradient
             (grad_fd example_backend example_params example_options false)
             [0; 0]%Q (ShotsScalar None)).
    exists example_backend, example_params, (Some "gradient"%string),
      (Some "finite_difference"%string), None, example_world.
    reflexivity.
  - apply (call_hessian
             (hessian_fd example_backend example_params example_options)
             [0; 0]%Q).
    exists example_backend, example_params, (Some "hessian"%string),
      (Some "finite_difference"%string), None, example_world.
    reflexivity.
Defined.

(** C10 on three pairs of histograms: three shots against three; three
    shots against two; and one shot, of cost 0, against two shots, of costs
    0 and 1, where the samples are [0 - 0] and [0 - 1]. *)
Lemma kernel_shot_totals_witness :
  (exists mean var w',
     fun_w_variance [0; 0]%Q example_backend example_params_ext [0; 1]%Q
                    1%Q (Some 3) example_world
     = (Ok (mean, var), w'))
  /\ (exists msg w',
        fun_w_variance [0%Q] (uneven_backend 3) example_params_ext [1%Q] 1%Q
                       None example_world
        = (Raise (ValueError msg), w'))
  /\ (exists sample_0 sample_1 w',
        fun_w_variance [0%Q] (uneven_backend 1) example_params_ext [1%Q] 1%Q
                       None example_world
        = (Ok (np_mean [sample_0; sample_1], np_var [sample_0; sample_1]),
           w')
        /\ (sample_0 == 0)%Q /\ (sample_1 == -1)%Q).
Proof.
  split; [|split].
  - destruct (kernel_shot_totals example_backend example_params_ext
                [0; 0]%Q [0; 1]%Q 1%Q (Some 3) example_world)
      as (_ & Hsame & _).
    destruct (Hsame eq_refl) as [Hrun _].
    do 3 eexists; exact Hrun.
  - destruct (kernel_shot_totals (uneven_backend 3) example_params_ext
                [0%Q] [1%Q] 1%Q None example_world)
      as (_ & _ & Hdiffer & _).
    destruct (Hdiffer ltac:(vm_compute; discriminate)
                ltac:(vm_compute; discriminate)
                ltac:(vm_compute; discriminate)) as [msg Hrun].
    do 2 eexists; exact Hrun.
  - destruct (kernel_shot_totals (uneven_backend 1) example_params_ext
                [0%Q] [1%Q] 1%Q None example_world)
      as (_ & _ & _ & Hforward & _).
    destruct (Hforward eq_refl) as [Hrun _].
    do 3 eexists. split; [exact Hrun|].
    split; vm_compute; reflexivity.
Defined.

(** C7 on the example circuit, whose expectation is linear: every entry of
    the Hessian is a zero. *)
Lemma hessian_stencils_witness :
  exists hess w',
    hessian_fd_func example_backend example_params (1 # 10)%Q [0; 0]%Q
                    example_world
    = (Ok (Hess hess), w')
    /\ (forall i j, (i < 2)%nat -> (j < 2)%nat ->
          exists x, nth_error (nth i hess []) j = Some x /\ (x == 0)%Q).
Proof.
  destruct (hessian_stencils example_backend example_params (1 # 10)%Q
              [0; 0]%Q example_world) as (hess & w' & Hrun & _ & Hentry).
  exists hess, w'; split; [exact Hrun|].
  intros i j Hi Hj. eexists; split; [apply Hentry; assumption|].
  destruct i as [|[|i]]; [| |lia]; (destruct j as [|[|j]]; [| |lia]);
    vm_compute; reflexivity.
Defined.

(** ** Instances of the further properties *)

(** X1 on the example circuit, whose expectation is
    [angle_0 + 2 * angle_1]: the gradient is [[1; 2]], after four calls. *)
Lemma finite_difference_rule_witness :
  exists grad w' g_beta g_gamma,
    grad_fd_func example_backend example_params (1 # 10)%Q false [0; 0]%Q
                 (ShotsList [Some 3; None]) example_world
    = (Ok (Grad grad), w')
    /\ grad = [g_beta; g_gamma]
    /\ (g_beta == 1)%Q /\ (g_gamma == 2)%Q
    /\ map call_n_shots (calls w') = [Some 3; Some 3; None; None].
Proof.
  destruct (finite_difference_rule example_backend example_params
              (1 # 10)%Q [0; 0]%Q (ShotsList [Some 3; None])
              [Some 3; None] example_world)
    as (grad & w' & Hrun & Hlen & Hval & Hcalls);
    [reflexivity | reflexivity |].
  pose proof (Hval 0%nat ltac:(cbn; lia)) as H0.
  pose proof (Hval 1%nat ltac:(cbn; lia)) as H1.
  destruct grad as [|g_beta [|g_gamma [|x grad]]]; try discriminate Hlen.
  cbn [nth_error] in H0, H1.
  exists [g_beta; g_gamma], w', g_beta, g_gamma.
  split; [exact Hrun|]. split; [reflexivity|].
  injection H0 as ->. injection H1 as ->.
  split; [vm_compute; reflexivity|]. split; [vm_compute; reflexivity|].
  apply (f_equal (map (fun r => snd r))) in Hcalls.
  rewrite map_map in Hcalls. exact Hcalls.
Defined.

(** X3 on the example circuit with a step size of zero. *)
Lemma zero_stepsize_witness :
  (exists w',
     grad_fd_func example_backend example_params 0%Q true [0; 0]%Q
                  (ShotsScalar (Some 3)) example_world
     = (Raise ZeroDivisionError, w')
     /\ calls w' = [])
  /\ (exists w',
        grad_spsa_func example_backend example_params 0%Q true [0; 0]%Q
                       (Some 3) example_world
        = (Raise ZeroDivisionError, w')
        /\ calls w' = []).
Proof.
  destruct (zero_stepsize example_backend example_params 0%Q true [0; 0]%Q
              (ShotsScalar (Some 3)) [Some 3; Some 3] (Some 3) example_world)
    as (Hfd & _ & Hspsa); [reflexivity | reflexivity |].
  split; [apply Hfd; discriminate | exact Hspsa].
Defined.

(** X4 on the example circuit: a shot count for [beta] only. *)
Lemma missing_shot_count_witness :
  (exists w',
     grad_fd_func example_backend example_params (1 # 10)%Q true [0; 0]%Q
                  (ShotsList [Some 3; None]) example_world
     = (Raise TypeError, w')
     /\ length (calls w') = 4%nat)
  /\ (exists w',
        grad_spsa_func example_backend example_params (1 # 10)%Q true
                       [0; 0]%Q None example_world
        = (Raise TypeError, w')
        /\ length (calls w') = 2%nat).
Proof.
  apply (missing_shot_count example_backend example_params (1 # 10)%Q
           [0; 0]%Q (ShotsList [Some 3; None]) [Some 3; None] example_world).
  - exact example_backend_steady.
  - reflexivity.
  - reflexivity.
  - right; left; reflexivity.
Defined.

(** X5 on the example circuit when the generator answers [[1; 0]]: the
    signs are [[1; -1]], the difference quotient is [1 - 2 = -1], and the
    gradient is [[-1; 1]] after two calls. *)
Lemma spsa_rule_witness :
  exists g_beta g_gamma w',
    grad_spsa_func example_backend example_params (1 # 10)%Q false [0; 0]%Q
                   None example_world_signs
    = (Ok (Grad [g_beta; g_gamma]), w')
    /\ (g_beta == -1)%Q /\ (g_gamma == 1)%Q
    /\ length (calls w') = 2%nat
    /\ np_random w' = [].
Proof.
  destruct (spsa_rule example_backend example_params (1 # 10)%Q [0; 0]%Q
              None example_world_signs)
    as (w' & Hrun & Hcalls & Hrandom); [reflexivity|].
  do 2 eexists. exists w'.
  split; [exact Hrun|].
  split; [vm_compute; reflexivity|]. split; [vm_compute; reflexivity|].
  split; [|exact Hrandom].
  apply (f_equal (@length _)) in Hcalls.
  rewrite length_map in Hcalls. exact Hcalls.
Defined.

(** X7 on the example circuit, with one mixer gate and one cost gate:
    3 shots for [beta] and 4 for [gamma] make 7 shots. *)
Lemma extended_shots_total_witness :
  __create_n_shots_ext_list 2
    (np_repeat (family_sizes example_params) (p example_params))
    (ShotsList [Some 3; Some 4])
  = Ok [Some 3; Some 4]
  /\ sum_shots [Some 3; Some 4] = 7.
Proof.
  split; [reflexivity|].
  apply (extended_shots_total example_params [Some 3; Some 4]
           [Some 3; Some 4]).
  reflexivity.
Defined.

(** X8 on the example circuit in variance mode. *)
Lemma standard_form_shape_witness :
  exists grad var n_shots_used w',
    grad_ps_func example_backend example_params example_params_ext true
                 [0; 0]%Q (ShotsList [Some 3; Some 4]) example_world
    = (Ok (GradVar grad var n_shots_used), w')
    /\ length grad = 2%nat /\ length var = 2%nat.
Proof.
  destruct (grad_ps_func example_backend example_params example_params_ext
              true [0; 0]%Q (ShotsList [Some 3; Some 4]) example_world)
    as [[out | e] w'] eqn:Hps; [|vm_compute in Hps; discriminate].
  destruct (standard_form_shape example_backend example_params
              example_params_ext [1; 0; 0; 1]%nat true [0; 0]%Q
              (ShotsList [Some 3; Some 4]) example_world out w'
              (or_introl Hps))
    as (grad & var & n_shots_used & -> & Hg & Hv).
  exists grad, var, n_shots_used, w'. auto.
Defined.

(** X10 on the example circuit when only the mixer gate is sampled: two
    calls instead of four. *)
Lemma stochastic_sampling_cost_witness :
  exists out w',
    grad_sps_func example_backend example_params example_params_ext
                  [1; 0; 0; 0]%nat true [0; 0]%Q
                  (ShotsList [Some 3; Some 4]) example_world_mixer
    = (Ok out, w')
    /\ length (calls w') = 2%nat
    /\ func_evals (logger w') = 2.
Proof.
  destruct (grad_sps_func example_backend example_params example_params_ext
              [1; 0; 0; 0]%nat true [0; 0]%Q (ShotsList [Some 3; Some 4])
              example_world_mixer)
    as [[out | e] w'] eqn:Hsps; [|vm_compute in Hsps; discriminate].
  destruct (stochastic_sampling_cost example_backend example_params
              example_params_ext [1; 0; 0; 0]%nat true [0; 0]%Q
              (ShotsList [Some 3; Some 4]) example_world_mixer out w')
    as (Hcalls & Hfe & _); [reflexivity | cbn; lia | exact Hsps |].
  exists out, w'. auto.
Defined.

(** X12 on the example circuit when only the mixer gate is sampled. *)
Lemma stochastic_shift_rule_witness :
  exists g_beta g_gamma w',
    grad_sps_func example_backend example_params example_params_ext
                  [1; 0; 0; 0]%nat false [0; 0]%Q (ShotsScalar None)
                  example_world_mixer
    = (Ok (Grad [g_beta; g_gamma]), w')
    /\ length (calls w') = 2%nat.
Proof.
  destruct (stochastic_shift_rule example_backend example_params
              example_params_ext [1; 0; 0; 0]%nat [0; 0]%Q
              (ShotsScalar None) [None; None] [0%nat] example_world_mixer
              example_world)
    as (grad_ext & grad & w' & Hrun & Hstd & _ & _ & Hcalls).
  - reflexivity.
  - reflexivity.
  - intros [|[|i]] Hi Hin; [| discriminate Hin | cbn in Hi; lia].
    split; [cbn; lia|]. split; [cbn; lia | reflexivity].
  - assert (Ll : length (group_bounds
                           (np_repeat (family_sizes example_params)
                                      (p example_params)))
                 = S (4 * p example_params)) by reflexivity.
    pose proof (length_ext_to_std _ _ _ _ Ll Hstd) as Hlen.
    destruct grad as [|g_beta [|g_gamma [|x grad]]]; try discriminate Hlen.
    exists g_beta, g_gamma, w'. split; [exact Hrun|].
    apply (f_equal (@length _)) in Hcalls.
    rewrite length_map in Hcalls. exact Hcalls.
Defined.
